(** * A resource dashboard: samplers, CPU usage derivation and formatters

    Shallow embedding of [src/main.cpp].  The program samples the host once
    per second (CPU ticks, memory, task count, load averages, uptime) and
    prints a [top]-like header.  The embedding keeps the source's names:

    - unsigned 64-bit integers are [Z] with the wrap-around written out
      (module [U64]);
    - [double] is IEEE-754 binary64, given by the Standard Library's
      executable specification [SpecFloat] at precision 53 and [emax] 1024
      (module [Double]);
    - [std::string], file contents and lines are [string]; formatted stream
      extraction ([>>], [std::getline]) is module [IStream];
    - the two build targets selected by [#ifdef _WIN32] are the modules
      [Linux] and [Windows]; what a sampler reads from the host is an
      explicit argument;
    - the derivation [compute_cpu_usage] and the formatters
      [format_uptime], [format_memory_mib] are platform independent.

    The file has three parts: the embedding, the vocabulary in which the
    properties are stated (modules named [...Spec]), and the properties with
    their lemmas (modules named [...Props]).  Real numbers appear only as
    the value of a double, to state and prove bounds. *)

From Stdlib Require Import ZArith List String Ascii Bool Lia SpecFloat.
From Stdlib Require Import Reals Lra.
From Stdlib Require Import Permutation.
Import ListNotations.

Local Open Scope string_scope.
Local Open Scope Z_scope.

(** ** Unsigned 64-bit arithmetic *)

Module U64.

Definition modulus : Z := 2 ^ 64.
Definition max : Z := modulus - 1.

Definition wrap (z : Z) : Z := z mod modulus.
Definition add (a b : Z) : Z := wrap (a + b).
Definition sub (a b : Z) : Z := wrap (a - b).
Definition mul (a b : Z) : Z := wrap (a * b).

Definition in_range (z : Z) : Prop := 0 <= z < modulus.

End U64.

(** [<cctype>] in the "C" locale. *)

Definition isspace (c : ascii) : bool :=
  let n := Z.of_nat (nat_of_ascii c) in
  (n =? 32) || ((9 <=? n) && (n <=? 13)).

Definition isdigit (c : ascii) : bool :=
  let n := Z.of_nat (nat_of_ascii c) in
  (48 <=? n) && (n <=? 57).

Definition digit_value (c : ascii) : Z := Z.of_nat (nat_of_ascii c) - 48.

Definition digit_char (d : Z) : ascii := ascii_of_nat (Z.to_nat (48 + d)).

Fixpoint string_forall (p : ascii -> bool) (s : string) : bool :=
  match s with
  | EmptyString => true
  | String c r => p c && string_forall p r
  end.

(** ** Decimal output of an unsigned integer ([ostream << uint64_t]) *)

(** Digits of [n], least significant first.  A number has no more decimal
    digits than binary ones, which bounds the recursion. *)
Fixpoint dec_digits (fuel : nat) (n : Z) : list Z :=
  match fuel with
  | O => []
  | S fuel' =>
      (n mod 10) :: (if n / 10 =? 0 then [] else dec_digits fuel' (n / 10))
  end.

Definition string_of_digits (ds : list Z) : string :=
  string_of_list_ascii (map digit_char ds).

Definition dec (n : Z) : string :=
  string_of_digits (rev (dec_digits (S (Z.to_nat (Z.log2 n))) n)).

(** [std::setw(w) << std::setfill(c)] applied to the next item. *)
Fixpoint fill (n : nat) (c : ascii) : string :=
  match n with
  | O => ""
  | S n' => String c (fill n' c)
  end.

Definition setw_setfill (w : nat) (c : ascii) (item : string) : string :=
  fill (w - String.length item) c ++ item.

(** ** Formatted input: [std::getline] and [operator>>] on an input stream *)

Module IStream.

(** The unread characters of a stream.  A failed extraction sets [failbit];
    the callers below test it right after each extraction, so the state is
    the remaining text and the outcome of the last extraction. *)

Fixpoint skip_ws (s : string) : string :=
  match s with
  | EmptyString => ""
  | String c r => if isspace c then skip_ws r else s
  end.

(** The maximal prefix without white space, and what follows it. *)
Fixpoint take_word (s : string) : string * string :=
  match s with
  | EmptyString => ("", "")
  | String c r =>
      if isspace c then ("", s)
      else let '(w, rest) := take_word r in (String c w, rest)
  end.

(** [is >> word] for a [std::string]: skip white space, read up to the next
    white space; fails when nothing is left. *)
Definition read_word (s : string) : option (string * string) :=
  match take_word (skip_ws s) with
  | (EmptyString, _) => None
  | (w, rest) => Some (w, rest)
  end.

(** [std::getline(is, line)]: fails on an exhausted stream, otherwise the
    text up to the first newline, which is consumed. *)
Fixpoint upto_newline (s : string) : string * string :=
  match s with
  | EmptyString => ("", "")
  | String c r =>
      if (Z.of_nat (nat_of_ascii c) =? 10) then ("", r)
      else let '(l, rest) := upto_newline r in (String c l, rest)
  end.

Definition getline (s : string) : option (string * string) :=
  match s with
  | EmptyString => None
  | _ => Some (upto_newline s)
  end.

(** Digits accumulated by [num_get]: the value read (unbounded), whether at
    least one digit was seen, and the rest. *)
Fixpoint take_digits (s : string) (acc : Z) (any : bool) : Z * bool * string :=
  match s with
  | EmptyString => (acc, any, "")
  | String c r =>
      if isdigit c then take_digits r (acc * 10 + digit_value c) true
      else (acc, any, s)
  end.

(** Outcome of [is >> x] for an unsigned 64-bit [x]: the value stored, the
    success of the extraction and the rest of the stream.  White space is
    skipped, one sign is accepted, then decimal digits are read.  Without
    any digit the extraction fails and stores zero; a value that does not
    fit fails and stores the largest value; a minus sign negates modulo
    [2 ^ 64], as [strtoull] does. *)
Record extracted := { ex_value : Z; ex_ok : bool; ex_rest : string }.

Definition read_sign (s : string) : bool * string :=
  match s with
  | String "-" r => (true, r)
  | String "+" r => (false, r)
  | _ => (false, s)
  end.

Definition read_u64 (s : string) : extracted :=
  let '(negative, body) := read_sign (skip_ws s) in
  let '(result, any, rest) := take_digits body 0 false in
  if negb any then {| ex_value := 0; ex_ok := false; ex_rest := rest |}
  else if U64.max <? result then
    {| ex_value := U64.max; ex_ok := false; ex_rest := rest |}
  else {| ex_value := if negative then U64.wrap (- result) else result;
          ex_ok := true; ex_rest := rest |}.

End IStream.

(** ** IEEE-754 binary64 *)

Module Double.

Definition double := spec_float.

Definition prec : Z := 53.
Definition emax : Z := 1024.

(** [static_cast<double>(n)] for an unsigned integer: round to nearest, ties
    to even. *)
Definition of_u64 (n : Z) : double := binary_normalize prec emax n 0 false.

Definition mul : double -> double -> double := SFmul prec emax.
Definition div : double -> double -> double := SFdiv prec emax.
Definition sub : double -> double -> double := SFsub prec emax.
Definition leb : double -> double -> bool := SFleb.

(** The literals of the source. *)
Definition zero : double := S754_zero false.
Definition hundred : double := of_u64 100.
Definition kibi : double := of_u64 1024.
Definition max_double : double := SFmax_float prec emax.

Definition is_finite (d : double) : bool :=
  match d with
  | S754_zero _ | S754_finite _ _ _ => true
  | S754_infinity _ | S754_nan => false
  end.

(** The integer part of a finite double, rounded toward zero. *)
Definition truncate (d : double) : Z :=
  match d with
  | S754_finite s m e =>
      let a := match e with
               | Zneg p => Z.pos m / Z.pow_pos 2 p
               | _ => Z.pos m * 2 ^ e
               end in
      if s then - a else a
  | _ => 0
  end.

(** [static_cast<std::uint64_t>(d)] where the language defines it: the
    truncated value when it fits.  [None] stands for a conversion that the
    language leaves without a defined result; what the compiled program does
    there is [to_u64_x86_64] below. *)
Definition to_u64 (d : double) : option Z :=
  if is_finite d then
    let t := truncate d in
    if (0 <=? t) && (t <=? U64.max) then Some t else None
  else None.

(** The same conversion as GCC compiles it for x86-64, which gives a result
    to every double.  The instruction [cvttsd2si] truncates to a signed
    64-bit integer and answers [- 2 ^ 63] when the truncated value does not
    fit or the operand is not a number.  An operand below [2 ^ 63] goes
    through it as it is; one from [2 ^ 63] on goes through it less
    [2 ^ 63], and the top bit of the result is flipped. *)
Definition two63 : double := of_u64 (2 ^ 63).

Definition cvttsd2si (d : double) : Z :=
  if is_finite d && (- 2 ^ 63 <=? truncate d) && (truncate d <? 2 ^ 63)
  then truncate d
  else - 2 ^ 63.

Definition to_u64_x86_64 (d : double) : Z :=
  if leb two63 d
  then Z.lxor (U64.wrap (cvttsd2si (sub d two63))) (2 ^ 63)
  else U64.wrap (cvttsd2si d).

(** The double nearest to [digits * 10 ^ exponent] with the given sign, as
    [strtod] returns it for a decimal number ([0 <= digits]); it is an
    infinity when the number is too large. *)
Definition of_decimal (negative : bool) (digits exponent : Z) : double :=
  match digits with
  | Zpos m =>
      match exponent with
      | Zneg p =>
          SFdiv prec emax (S754_finite negative m 0)
                (S754_finite false (Pos.pow 10 p) 0)
      | _ =>
          binary_normalize prec emax
            (if negative then - (Zpos m * 10 ^ exponent)
             else Zpos m * 10 ^ exponent) 0 false
      end
  | _ => S754_zero negative
  end.

(** Nearest integer to [num / den], ties to the even one ([0 < den]). *)
Definition nearest_even (num den : Z) : Z :=
  let q := num / den in
  let r := num mod den in
  match 2 * r ?= den with
  | Lt => q
  | Gt => q + 1
  | Eq => if Z.even q then q else q + 1
  end.

(** The magnitude of a finite double in units of [10 ^ -precision], rounded
    to nearest. *)
Definition scaled_magnitude (precision : nat) (d : double) : Z :=
  match d with
  | S754_finite _ m e =>
      let num := Z.pos m * 10 ^ Z.of_nat precision in
      match e with
      | Zneg p => nearest_even num (Z.pow_pos 2 p)
      | _ => num * 2 ^ e
      end
  | _ => 0
  end.

Definition sign_bit (d : double) : bool :=
  match d with
  | S754_zero s | S754_infinity s | S754_finite s _ _ => s
  | S754_nan => false
  end.

(** [os << std::fixed << std::setprecision(precision) << d]: the decimal
    expansion rounded to [precision] fractional digits, as [printf] with
    [%.*f] does. *)
Definition fixed (precision : nat) (d : double) : string :=
  (if sign_bit d then "-" else "") ++
  match d with
  | S754_nan => "nan"
  | S754_infinity _ => "inf"
  | _ =>
      let t := scaled_magnitude precision d in
      let unit := 10 ^ Z.of_nat precision in
      dec (t / unit) ++
      match precision with
      | O => ""
      | _ => "." ++ setw_setfill precision "0" (dec (t mod unit))
      end
  end.

End Double.

Definition double : Set := Double.double.

(** ** The data model *)

Record CpuSnapshot := { idle_ticks : Z; total_ticks : Z }.

Module MemoryStatus.
Record t := { total_bytes : Z; available_bytes : Z; valid : bool }.
Definition init : t := {| total_bytes := 0; available_bytes := 0; valid := false |}.
End MemoryStatus.

Module TaskSummary.
Record t := { total : Z; valid : bool }.
Definition init : t := {| total := 0; valid := false |}.
End TaskSummary.

Module LoadAverages.
Record t := { one : double; five : double; fifteen : double; valid : bool }.
Definition init : t :=
  {| one := Double.zero; five := Double.zero; fifteen := Double.zero;
     valid := false |}.
End LoadAverages.

Definition CpuSnapshot_init : CpuSnapshot := {| idle_ticks := 0; total_ticks := 0 |}.

(** Writing one cell of a fixed-size array. *)
Fixpoint store {A} (i : nat) (v : A) (a : list A) : list A :=
  match a, i with
  | [], _ => []
  | _ :: r, O => v :: r
  | x :: r, S i' => x :: store i' v r
  end.

(** ** The derivation: CPU usage from two snapshots *)

Definition compute_cpu_usage (prev curr : CpuSnapshot) : double :=
  let idle_delta := U64.sub (idle_ticks curr) (idle_ticks prev) in
  let total_delta := U64.sub (total_ticks curr) (total_ticks prev) in
  if total_delta =? 0 then Double.zero
  else
    let active_delta := U64.sub total_delta idle_delta in
    Double.div (Double.mul (Double.of_u64 active_delta) Double.hundred)
               (Double.of_u64 total_delta).

(** ** The formatters *)

Definition format_uptime (seconds : Z) : string :=
  if seconds <? 60 then dec seconds ++ "s"
  else
    let days := seconds / 86400 in
    let seconds := seconds mod 86400 in
    let hours := seconds / 3600 in
    let seconds := seconds mod 3600 in
    let minutes := seconds / 60 in
    (if 0 <? days
     then dec days ++ " day" ++ (if 1 <? days then "s" else "") ++ ", "
     else "") ++
    setw_setfill 2 "0" (dec hours) ++ ":" ++ setw_setfill 2 "0" (dec minutes).

Definition format_memory_mib (bytes : Z) : string :=
  let mib := Double.div (Double.of_u64 bytes) (Double.mul Double.kibi Double.kibi) in
  Double.fixed 1 mib.

(** ** The samplers of the Linux-style build *)

Module Linux.

(** A directory iterator over [/proc]: entries come one at a time, querying
    an entry's type may throw ([None]), and so may opening the directory or
    advancing the iterator ([dir_error]). *)
Inductive dir_stream :=
| dir_end
| dir_entry (name : string) (is_directory : option bool) (next : dir_stream)
| dir_error.

(** What [is >> x] finds for a [double] [x]: no number at all (failure, zero
    is stored), a number too large in magnitude (failure, the largest finite
    double of that sign is stored), or a number, converted. *)
Inductive double_field :=
| no_conversion
| out_of_range (negative : bool)
| converted (d : double).

(** What the samplers read from the host.  A file that cannot be opened is
    [None]; [getloadavg] is the samples the system call can provide, or
    [None] when it returns [-1]. *)
Record host := {
  proc_stat : option string;
  proc_meminfo : option string;
  proc : dir_stream;
  loadavg : option (list double);
  proc_uptime : option string
}.

(** The loop [for (i = 0; i < 10 && iss; ++i) iss >> values[i]]. *)
Fixpoint read_values (n i : nat) (iss : string) (good : bool)
    (values : list Z) : list Z :=
  match n with
  | O => values
  | S n' =>
      if good then
        let r := IStream.read_u64 iss in
        read_values n' (S i) (IStream.ex_rest r) (IStream.ex_ok r)
                    (store i (IStream.ex_value r) values)
      else values
  end.

Definition sum_values (values : list Z) : Z := fold_left U64.add values 0.

(** [sample_cpu]: [None] is the result [false], which leaves the snapshot
    of the caller untouched. *)
Definition sample_cpu (h : host) : option CpuSnapshot :=
  match proc_stat h with
  | None => None
  | Some stat =>
      match IStream.getline stat with
      | None => None
      | Some (line, _) =>
          let '(cpu_label, iss, good) :=
            match IStream.read_word line with
            | Some (w, rest) => (w, rest, true)
            | None => ("", "", false)
            end in
          if negb (cpu_label =? "cpu")%string then None
          else
            let values := read_values 10 0 iss good (repeat 0 10) in
            let total := sum_values values in
            let idle := U64.add (nth 3 values 0) (nth 4 values 0) in
            Some {| idle_ticks := idle; total_ticks := total |}
      end
  end.

(** One round of [meminfo >> key >> value >> unit]. *)
Definition read_triplet (s : string) : option (string * Z * string * string) :=
  match IStream.read_word s with
  | None => None
  | Some (key, s1) =>
      let r := IStream.read_u64 s1 in
      if IStream.ex_ok r then
        match IStream.read_word (IStream.ex_rest r) with
        | None => None
        | Some (unit, s2) => Some (key, IStream.ex_value r, unit, s2)
        end
      else None
  end.

(** The body of the scanning loop: the two assignments. *)
Definition update_meminfo (key : string) (value : Z) (st : Z * Z) : Z * Z :=
  let '(mem_total, mem_available) := st in
  if (key =? "MemTotal:")%string then (U64.mul value 1024, mem_available)
  else if (key =? "MemAvailable:")%string then (mem_total, U64.mul value 1024)
  else (mem_total, mem_available).

Definition both_found (st : Z * Z) : bool :=
  negb (fst st =? 0) && negb (snd st =? 0).

(** The scanning loop.  [fuel] bounds the number of rounds; [None] means the
    bound was reached before the loop ended. *)
Fixpoint scan_meminfo (fuel : nat) (s : string) (st : Z * Z) : option (Z * Z) :=
  match fuel with
  | O => None
  | S fuel' =>
      match read_triplet s with
      | None => Some st
      | Some (key, value, _, rest) =>
          let st' := update_meminfo key value st in
          if both_found st' then Some st' else scan_meminfo fuel' rest st'
      end
  end.

Definition status_of (st : Z * Z) : MemoryStatus.t :=
  let '(mem_total, mem_available) := st in
  if negb (mem_total =? 0) then
    {| MemoryStatus.total_bytes := mem_total;
       MemoryStatus.available_bytes := mem_available;
       MemoryStatus.valid := true |}
  else MemoryStatus.init.

(** [sample_memory]: every round of the loop consumes text, so one round
    per character and one more is a sufficient bound; the result is [None]
    only if that bound were reached. *)
Definition sample_memory (h : host) : option MemoryStatus.t :=
  match proc_meminfo h with
  | None => Some MemoryStatus.init
  | Some meminfo =>
      match scan_meminfo (S (String.length meminfo)) meminfo (0, 0) with
      | Some st => Some (status_of st)
      | None => None
      end
  end.

Definition numeric_name (name : string) : bool :=
  negb (name =? "")%string && string_forall isdigit name.

(** The body of the [try] block: [None] is a thrown exception. *)
Fixpoint count_tasks (d : dir_stream) (count : Z) : option Z :=
  match d with
  | dir_end => Some count
  | dir_error => None
  | dir_entry name is_directory next =>
      match is_directory with
      | None => None
      | Some false => count_tasks next count
      | Some true =>
          if numeric_name name then count_tasks next (U64.add count 1)
          else count_tasks next count
      end
  end.

Definition sample_tasks (h : host) : TaskSummary.t :=
  match count_tasks (proc h) 0 with
  | Some count => {| TaskSummary.total := count; TaskSummary.valid := true |}
  | None => TaskSummary.init
  end.

(** [getloadavg(loads, nelem)]: the number of samples written, or [-1]. *)
Definition getloadavg (h : host) (loads : list double) (nelem : nat)
    : Z * list double :=
  match loadavg h with
  | None => (-1, loads)
  | Some samples =>
      let got := firstn nelem samples in
      (Z.of_nat (List.length got), (got ++ skipn (List.length got) loads)%list)
  end.

Definition sample_load_averages (h : host) : LoadAverages.t :=
  let '(n, loads) := getloadavg h (repeat Double.zero 3) 3 in
  if n =? 3 then
    {| LoadAverages.one := nth 0 loads Double.zero;
       LoadAverages.five := nth 1 loads Double.zero;
       LoadAverages.fifteen := nth 2 loads Double.zero;
       LoadAverages.valid := true |}
  else LoadAverages.init.

(** Digits after the decimal point: the digits gathered so far, the number
    of those after the point, whether one was seen, and the rest. *)
Fixpoint take_fraction (s : string) (acc count : Z) (any : bool)
    : Z * Z * bool * string :=
  match s with
  | EmptyString => (acc, count, any, "")
  | String c r =>
      if isdigit c
      then take_fraction r (acc * 10 + digit_value c) (count + 1) true
      else (acc, count, any, s)
  end.

(** [is >> x] for a [double] [x], as [num_get] and [strtod] do it.  White
    space is skipped; a sign, digits, a point and digits are gathered; once
    a digit has been gathered, [e] or [E] opens an exponent made of a sign
    and digits.  Without any digit before the exponent, or without any in
    an exponent that was opened, nothing is converted.  The number is
    rounded to the nearest double; one that rounds to an infinity is out of
    range. *)
Definition read_double (s : string) : double_field :=
  let '(negative, body) := IStream.read_sign (IStream.skip_ws s) in
  let '(int_part, any_int, r1) := IStream.take_digits body 0 false in
  let '(digits, scale, any_frac, r2) :=
    match r1 with
    | String "." r => take_fraction r int_part 0 false
    | _ => (int_part, 0, false, r1)
    end in
  if negb (any_int || any_frac) then no_conversion
  else
    let '(exponent, complete) :=
      match r2 with
      | String c r =>
          if (Ascii.eqb c "e" || Ascii.eqb c "E")%bool then
            let '(minus, r3) := IStream.read_sign r in
            let '(e, any_exp, _) := IStream.take_digits r3 0 false in
            (if minus then - e else e, any_exp)
          else (0, true)
      | EmptyString => (0, true)
      end in
    if negb complete then no_conversion
    else
      match Double.of_decimal negative digits (exponent - scale) with
      | S754_infinity s => out_of_range s
      | d => converted d
      end.

(** The value of [uptime] after [uptime_file >> uptime]. *)
Definition extract_double (f : double_field) : double :=
  match f with
  | no_conversion => Double.zero
  | out_of_range negative =>
      if negative then SFopp Double.max_double else Double.max_double
  | converted d => d
  end.

(** [uptime_seconds]: [None] is a conversion without a defined result. *)
Definition uptime_seconds (h : host) : option Z :=
  match proc_uptime h with
  | None => Some 0
  | Some text => Double.to_u64 (extract_double (read_double text))
  end.

(** [uptime_seconds] as compiled for x86-64, where every conversion has a
    result. *)
Definition uptime_seconds_x86_64 (h : host) : Z :=
  match proc_uptime h with
  | None => 0
  | Some text => Double.to_u64_x86_64 (extract_double (read_double text))
  end.

End Linux.

(** ** The samplers of the Windows-style build *)

Module Windows.

Record FILETIME := { dwLowDateTime : Z; dwHighDateTime : Z }.

(** What the samplers obtain from the system: [GetSystemTimes] (idle,
    kernel, user), [GlobalMemoryStatusEx] (total and available physical
    memory), [EnumProcesses] as the bytes returned for a buffer of [cb]
    bytes, and [GetTickCount64].  A failing call is [None]. *)
Record host := {
  GetSystemTimes : option (FILETIME * FILETIME * FILETIME);
  GlobalMemoryStatusEx : option (Z * Z);
  EnumProcesses : Z -> option Z;
  GetTickCount64 : Z
}.

Definition file_time_to_uint64 (ft : FILETIME) : Z :=
  Z.lor (Z.shiftl (dwHighDateTime ft) 32) (dwLowDateTime ft).

Definition sample_cpu (h : host) : option CpuSnapshot :=
  match GetSystemTimes h with
  | None => None
  | Some (idle, kernel, user) =>
      let idle_ticks := file_time_to_uint64 idle in
      let kernel_ticks := file_time_to_uint64 kernel in
      let user_ticks := file_time_to_uint64 user in
      Some {| idle_ticks := idle_ticks;
              total_ticks := U64.add kernel_ticks user_ticks |}
  end.

Definition sample_memory (h : host) : MemoryStatus.t :=
  match GlobalMemoryStatusEx h with
  | Some (ullTotalPhys, ullAvailPhys) =>
      {| MemoryStatus.total_bytes := ullTotalPhys;
         MemoryStatus.available_bytes := ullAvailPhys;
         MemoryStatus.valid := true |}
  | None => MemoryStatus.init
  end.

Definition sizeof_DWORD : Z := 4.

(** The loop of [sample_tasks] on a buffer of [size] identifiers, doubled
    until the call leaves room; [None] means [fuel] rounds were not
    enough. *)
Fixpoint enum_loop (fuel : nat) (h : host) (size : Z) : option TaskSummary.t :=
  match fuel with
  | O => None
  | S fuel' =>
      match EnumProcesses h ((size * sizeof_DWORD) mod 2 ^ 32) with
      | None => Some TaskSummary.init
      | Some bytes_returned =>
          let count := bytes_returned / sizeof_DWORD in
          if count <? size then
            Some {| TaskSummary.total := count; TaskSummary.valid := true |}
          else enum_loop fuel' h (size * 2)
      end
  end.

Definition sample_tasks (fuel : nat) (h : host) : option TaskSummary.t :=
  enum_loop fuel h 1024.

Definition sample_load_averages (h : host) : LoadAverages.t :=
  {| LoadAverages.one := Double.zero; LoadAverages.five := Double.zero;
     LoadAverages.fifteen := Double.zero; LoadAverages.valid := false |}.

Definition uptime_seconds (h : host) : Z := GetTickCount64 h / 1000.

End Windows.

(** ** The terminal and the clock *)

Definition LF : ascii := ascii_of_nat 10.
Definition ESC : ascii := ascii_of_nat 27.

(** [clear_screen]: the text written. *)
Definition clear_screen : string := String ESC "[2J" ++ String ESC "[H".

(** The fields of [std::tm] that the format ["%H:%M:%S"] reads. *)
Record tm := { tm_hour : Z; tm_min : Z; tm_sec : Z }.

(** [current_time_string], from the broken-down local time that the clock
    and [localtime_r] give (hours below 24, minutes below 60, seconds up to
    60): [put_time] writes each field on two digits. *)
Definition current_time_string (local_tm : tm) : string :=
  setw_setfill 2 "0" (dec (tm_hour local_tm)) ++ ":" ++
  setw_setfill 2 "0" (dec (tm_min local_tm)) ++ ":" ++
  setw_setfill 2 "0" (dec (tm_sec local_tm)).

(** ** The console of the Windows-style build *)

Module Console.

(** [GetStdHandle] gives a handle or [INVALID_HANDLE_VALUE];
    [GetConsoleMode] gives the mode or fails; [SetConsoleMode] installs the
    requested mode or fails. *)
Record t := {
  handle_valid : bool;
  mode : option Z;
  accepts_mode : bool
}.

Definition ENABLE_VIRTUAL_TERMINAL_PROCESSING : Z := 4.

(** [enable_virtual_terminal_processing]: the result and the console it
    leaves. *)
Definition enable_virtual_terminal_processing (c : t) : bool * t :=
  if negb (handle_valid c) then (false, c)
  else
    match mode c with
    | None => (false, c)
    | Some m =>
        if negb (Z.land m ENABLE_VIRTUAL_TERMINAL_PROCESSING =? 0) then (true, c)
        else if accepts_mode c then
          (true, {| handle_valid := handle_valid c;
                    mode := Some (Z.lor m ENABLE_VIRTUAL_TERMINAL_PROCESSING);
                    accepts_mode := accepts_mode c |})
        else (false, c)
    end.

End Console.

(** ** The program *)

Module Program.

(** The memory shown as used. *)
Definition used_bytes (memory : MemoryStatus.t) : Z :=
  if MemoryStatus.available_bytes memory <? MemoryStatus.total_bytes memory
  then U64.sub (MemoryStatus.total_bytes memory)
               (MemoryStatus.available_bytes memory)
  else 0.

(** The text one round of the loop writes after clearing the screen. *)
Definition render (now : string) (uptime : Z) (loads : LoadAverages.t)
    (tasks : TaskSummary.t) (cpu_usage : double) (memory : MemoryStatus.t)
    : string :=
  "top - " ++ now ++ " up " ++ format_uptime uptime ++ ",  load average: " ++
  (if LoadAverages.valid loads then
     Double.fixed 2 (LoadAverages.one loads) ++ ", " ++
     Double.fixed 2 (LoadAverages.five loads) ++ ", " ++
     Double.fixed 2 (LoadAverages.fifteen loads)
   else "N/A, N/A, N/A") ++
  String LF "" ++
  (if TaskSummary.valid tasks then
     "Tasks: " ++ dec (TaskSummary.total tasks) ++ " total" ++
     ", 1 running, 0 sleeping, 0 stopped, 0 zombie" ++ String LF ""
   else "Tasks: N/A" ++ String LF "") ++
  "%Cpu(s): " ++ Double.fixed 1 cpu_usage ++
  " us, " ++ Double.fixed 1 (Double.sub Double.hundred cpu_usage) ++
  " id" ++ String LF "" ++
  (if MemoryStatus.valid memory then
     "MiB Mem : " ++ format_memory_mib (MemoryStatus.total_bytes memory) ++
     " total, " ++ format_memory_mib (used_bytes memory) ++
     " used, " ++ format_memory_mib (MemoryStatus.available_bytes memory) ++
     " free" ++ String LF ""
   else "MiB Mem : N/A" ++ String LF "").

Definition failure_message : string :=
  "Failed to read CPU statistics. Exiting." ++ String LF "".

(** Where [main] stands after a finite run of rounds: it has returned, with
    its status and what it wrote on the two streams; or it is still in the
    loop, with what it wrote and the snapshot it keeps; or a sampler had no
    defined result. *)
Inductive outcome :=
| exited (status : Z) (out err : string)
| running (out : string) (previous_snapshot : CpuSnapshot)
| undefined.

Section Build.

(** The samplers of a build, on what one round observes of the host.  A
    sampler without a defined result is [None]. *)
Variable host : Type.
Variable sample_cpu : host -> option CpuSnapshot.
Variable sample_memory : host -> option MemoryStatus.t.
Variable sample_tasks : host -> option TaskSummary.t.
Variable sample_load_averages : host -> LoadAverages.t.
Variable uptime_seconds : host -> option Z.

(** The loop of [main] over the rounds it goes through: each round wakes up
    to a state of the host and a local time. *)
Fixpoint main_loop (previous_snapshot : CpuSnapshot) (rounds : list (host * tm))
    (out : string) : outcome :=
  match rounds with
  | [] => running out previous_snapshot
  | (h, local_tm) :: rest =>
      match sample_cpu h with
      | None => exited 1 out failure_message
      | Some current_snapshot =>
          let cpu_usage := compute_cpu_usage previous_snapshot current_snapshot in
          match sample_memory h, sample_tasks h, uptime_seconds h with
          | Some memory, Some tasks, Some uptime =>
              let loads := sample_load_averages h in
              main_loop current_snapshot rest
                (out ++ clear_screen ++
                 render (current_time_string local_tm) uptime loads tasks
                        cpu_usage memory)
          | _, _, _ => undefined
          end
      end
  end.

Definition main (first : host) (rounds : list (host * tm)) : outcome :=
  match sample_cpu first with
  | None => exited 1 "" failure_message
  | Some previous_snapshot => main_loop previous_snapshot rounds ""
  end.

End Build.

(** [main] of the Linux-style build. *)
Definition linux_main : Linux.host -> list (Linux.host * tm) -> outcome :=
  main Linux.host Linux.sample_cpu Linux.sample_memory
       (fun h => Some (Linux.sample_tasks h))
       Linux.sample_load_averages Linux.uptime_seconds.

(** [main] of the Windows-style build, which first tries to switch the
    console to virtual terminal sequences; the task loop gets the
    twenty-one rounds it can take. *)
Definition windows_main (console : Console.t)
    : Windows.host -> list (Windows.host * tm) -> Console.t * outcome :=
  fun first rounds =>
    (snd (Console.enable_virtual_terminal_processing console),
     main Windows.host Windows.sample_cpu
          (fun h => Some (Windows.sample_memory h))
          (Windows.sample_tasks 21)
          Windows.sample_load_averages
          (fun h => Some (Windows.uptime_seconds h)) first rounds).

End Program.

(** * Vocabulary of the properties *)

(** Two decimal digits, the first one possibly zero. *)
Definition two_digits (n : Z) : string :=
  String (digit_char (n / 10)) (String (digit_char (n mod 10)) "").

(** The day count of a duration as the text shows it. *)
Definition day_prefix (days : Z) : string :=
  if days =? 0 then ""
  else dec days ++ (if days =? 1 then " day" else " days") ++ ", ".

Module TaskSpec.
Import Linux.

(** A traversal of [/proc] that meets no error, from its entries (name and
    whether the entry is a directory). *)
Fixpoint listing (entries : list (string * bool)) : dir_stream :=
  match entries with
  | [] => dir_end
  | (name, d) :: rest => dir_entry name (Some d) (listing rest)
  end.

(** A traversal that throws at some point. *)
Fixpoint failing (d : dir_stream) : bool :=
  match d with
  | dir_end => false
  | dir_error => true
  | dir_entry _ None _ => true
  | dir_entry _ (Some _) next => failing next
  end.

Definition is_task (entry : string * bool) : bool :=
  snd entry && numeric_name (fst entry).

Definition task_count (entries : list (string * bool)) : Z :=
  Z.of_nat (List.length (filter is_task entries)).

End TaskSpec.

(** Sample inputs, and hosts that provide one source only. *)
Definition sample_proc : Linux.dir_stream :=
  TaskSpec.listing
    [("1", true); ("self", true); ("net", true); ("217", true);
     ("uptime", false); ("33", false)].

Definition host_with_proc (d : Linux.dir_stream) : Linux.host :=
  {| Linux.proc_stat := None; Linux.proc_meminfo := None; Linux.proc := d;
     Linux.loadavg := None; Linux.proc_uptime := None |}.

Definition host_with_loadavg (l : option (list double)) : Linux.host :=
  {| Linux.proc_stat := None; Linux.proc_meminfo := None;
     Linux.proc := Linux.dir_error; Linux.loadavg := l;
     Linux.proc_uptime := None |}.

Module MemSpec.
Import Linux.

(** The triplets the loop reads when it is not left early. *)
Fixpoint triplets (fuel : nat) (s : string) : list (string * Z * string) :=
  match fuel with
  | O => []
  | S fuel' =>
      match read_triplet s with
      | None => []
      | Some (key, value, unit, rest) => (key, value, unit) :: triplets fuel' rest
      end
  end.

Definition triplets_of (s : string) : list (string * Z * string) :=
  triplets (S (String.length s)) s.

(** The loop over the triplets. *)
Fixpoint scan_list (ts : list (string * Z * string)) (st : Z * Z) : Z * Z :=
  match ts with
  | [] => st
  | (key, value, _) :: rest =>
      let st' := update_meminfo key value st in
      if both_found st' then st' else scan_list rest st'
  end.

(** The kilobyte value of the first triplet with a key. *)
Fixpoint find_key (key : string) (ts : list (string * Z * string)) : option Z :=
  match ts with
  | [] => None
  | (k, v, _) :: rest => if (k =? key)%string then Some v else find_key key rest
  end.

Fixpoint count_key (key : string) (ts : list (string * Z * string)) : nat :=
  match ts with
  | [] => O
  | (k, _, _) :: rest =>
      ((if (k =? key)%string then 1 else 0) + count_key key rest)%nat
  end.

Definition bytes_of (key : string) (ts : list (string * Z * string)) (d : Z) : Z :=
  match find_key key ts with
  | Some kb => U64.mul kb 1024
  | None => d
  end.

End MemSpec.

Definition newline : string := String (ascii_of_nat 10) "".

Definition host_with_meminfo (meminfo : option string) : Linux.host :=
  {| Linux.proc_stat := None; Linux.proc_meminfo := meminfo;
     Linux.proc := Linux.dir_error; Linux.loadavg := None;
     Linux.proc_uptime := None |}.

Definition meminfo_zero_total : string :=
  "MemTotal:              0 kB" ++ newline ++
  "MemFree:          176400 kB" ++ newline ++
  "MemAvailable:     262144 kB" ++ newline.

Definition meminfo_no_available : string :=
  "MemTotal:       16384000 kB" ++ newline ++
  "MemFree:          176400 kB" ++ newline ++
  "MemAvailable:          0 kB" ++ newline ++
  "Buffers:           90000 kB" ++ newline.

Module WindowsSpec.
Import Windows.

(** The contract of [EnumProcesses]: it returns no more bytes than the
    buffer holds. *)
Definition within_buffer (h : host) : Prop :=
  forall cb bytes_returned,
    EnumProcesses h cb = Some bytes_returned -> 0 <= bytes_returned <= cb.

End WindowsSpec.

Module NumeralSpec.
Import IStream.

Definition is_digit_value (d : Z) : Prop := 0 <= d < 10.

(** The value of digits given most significant first, from [acc]. *)
Definition digits_value (ds : list Z) (acc : Z) : Z :=
  fold_left (fun a d => a * 10 + d) ds acc.

Definition no_leading_digit (s : string) : Prop :=
  match s with
  | EmptyString => True
  | String c _ => isdigit c = false
  end.

End NumeralSpec.

Module CpuSpec.
Import Linux.

(** The text after the label on a well-formed line: each field is some
    white space followed by a decimal number; [tail] is what follows the
    last field. *)
Fixpoint fields_text (fields : list (string * Z)) (tail : string) : string :=
  match fields with
  | [] => tail
  | (sep, n) :: rest => sep ++ dec n ++ fields_text rest tail
  end.

Definition good_field (f : string * Z) : Prop :=
  fst f <> "" /\ string_forall isspace (fst f) = true /\ 0 <= snd f <= U64.max.

(** The token the label extraction reads; empty when there is none. *)
Definition leading_token (line : string) : string :=
  match IStream.read_word line with
  | Some (w, _) => w
  | None => ""
  end.

Fixpoint store_list (i : nat) (l : list Z) (values : list Z) : list Z :=
  match l with
  | [] => values
  | x :: r => store_list (S i) r (store i x values)
  end.

Definition list_sum (l : list Z) : Z := fold_right Z.add 0 l.

End CpuSpec.

Definition host_with_stat (stat : option string) : Linux.host :=
  {| Linux.proc_stat := stat; Linux.proc_meminfo := None;
     Linux.proc := Linux.dir_error; Linux.loadavg := None;
     Linux.proc_uptime := None |}.

Definition stat_sample : string :=
  "cpu  3357 0 4313 1362393 12 0 7 0 0 0" ++ newline ++
  "cpu0 1678 0 2156 681196 6 0 3 0 0 0" ++ newline.

Definition stat_sample_fields : list (string * Z) :=
  [("  ", 3357); (" ", 0); (" ", 4313); (" ", 1362393); (" ", 12); (" ", 0);
   (" ", 7); (" ", 0); (" ", 0); (" ", 0)].

Module DoubleSpec.
Import Double.

(** The round and sticky bits of a location, as two more low-order bits. *)
Definition loc_bits (l : location) : Z :=
  match l with
  | loc_Exact => 0
  | loc_Inexact Lt => 1
  | loc_Inexact Eq => 2
  | loc_Inexact Gt => 3
  end.

Definition extended (m : Z) (l : location) : Z := 4 * m + loc_bits l.

Definition record_at (M : Z) (n : Z) : shr_record :=
  {| shr_m := M / 2 ^ (n + 2);
     shr_r := Z.testbit M (n + 1);
     shr_s := negb (M mod 2 ^ (n + 1) =? 0) |}.

Local Open Scope R_scope.

Definition bpow (e : Z) : R := powerRZ 2 e.

Definition SF2R (d : double) : R :=
  match d with
  | S754_finite s m e =>
      (if s then - IZR (Z.pos m) else IZR (Z.pos m)) * bpow e
  | _ => 0
  end.

(** Faithful rounding: [d] is a positive normal double next to the
    positive real [x].  With [m1 * 2 ^ e1] the 53-digit truncation of [x],
    [d] is that number or the next one up, and the next one up only when
    [x] lies strictly above. *)
Definition faithful (x : R) (d : double) : Prop :=
  exists m e m1 e1,
    d = S754_finite false m e /\
    (2 ^ 52 <= Z.pos m < 2 ^ 53)%Z /\
    (2 ^ 52 <= m1 < 2 ^ 53)%Z /\
    (e1 <= e <= e1 + 1)%Z /\
    IZR m1 * bpow e1 <= x < IZR (m1 + 1) * bpow e1 /\
    (SF2R d = IZR m1 * bpow e1 \/
     (SF2R d = IZR (m1 + 1) * bpow e1 /\ IZR m1 * bpow e1 < x)).

End DoubleSpec.

Definition snapshot_zero : CpuSnapshot :=
  {| idle_ticks := 0; total_ticks := 0 |}.

Definition snapshot_idle_over_total : CpuSnapshot :=
  {| idle_ticks := 10; total_ticks := 5 |}.

Definition snapshot_long_busy : CpuSnapshot :=
  {| idle_ticks := 0; total_ticks := 360287970189643 |}.

Definition host_with_uptime (text : option string) : Linux.host :=
  {| Linux.proc_stat := None; Linux.proc_meminfo := None;
     Linux.proc := Linux.dir_error; Linux.loadavg := None;
     Linux.proc_uptime := text |}.

Module FieldSpec.
Import IStream.

(** The text after a field: nothing, or white space. *)
Definition field_end (rest : string) : Prop :=
  match rest with
  | EmptyString => True
  | String c _ => isspace c = true
  end.

(** A text in which no number can be read: after the white space and one
    sign, there is no digit, nor a point followed by a digit. *)
Definition no_number (text : string) : Prop :=
  match snd (read_sign (skip_ws text)) with
  | EmptyString => True
  | String c r =>
      isdigit c = false /\ (c = "."%char -> NumeralSpec.no_leading_digit r)
  end.

(** The uptime file as the kernel writes it: seconds since boot and idle
    seconds, with two decimals each. *)
Definition uptime_sample : string := "90049.37 351735.47" ++ newline.

End FieldSpec.

(** ** Vocabulary of the further properties *)

Module WinApiSpec.
Import Windows.

(** The two halves of a [FILETIME] are 32-bit [DWORD]s. *)
Definition dwords (ft : FILETIME) : Prop :=
  0 <= dwLowDateTime ft < 2 ^ 32 /\ 0 <= dwHighDateTime ft < 2 ^ 32.

(** [EnumProcesses] on a system of [n] processes: it fills the buffer with
    as many whole identifiers as fit, and reports their size in bytes. *)
Definition enumerates (h : host) (n : Z) : Prop :=
  forall cb, EnumProcesses h cb = Some (sizeof_DWORD * Z.min (cb / sizeof_DWORD) n).

Definition host_with_processes (n : Z) : host :=
  {| GetSystemTimes := None; GlobalMemoryStatusEx := None;
     EnumProcesses := fun cb => Some (sizeof_DWORD * Z.min (cb / sizeof_DWORD) n);
     GetTickCount64 := 0 |}.

Definition host_with_times (idle kernel user : FILETIME) : host :=
  {| GetSystemTimes := Some (idle, kernel, user); GlobalMemoryStatusEx := None;
     EnumProcesses := fun _ => None; GetTickCount64 := 0 |}.

End WinApiSpec.

(** Reading a rendered duration back, with the extraction operator of the
    program for the numbers. *)
Module UptimeSpec.
Import IStream.

Fixpoint strip_prefix (p s : string) : option string :=
  match p, s with
  | EmptyString, _ => Some s
  | String a p', String b s' => if Ascii.eqb a b then strip_prefix p' s' else None
  | String _ _, EmptyString => None
  end.

(** [HH:MM], in seconds. *)
Definition read_clock (s : string) : option Z :=
  let h := read_u64 s in
  match strip_prefix ":" (ex_rest h) with
  | Some t =>
      let m := read_u64 t in
      if ex_ok h && ex_ok m && (ex_rest m =? "")%string
      then Some (ex_value h * 3600 + ex_value m * 60)
      else None
  | None => None
  end.

(** The duration a text stands for: seconds for the short form, whole
    minutes otherwise. *)
Definition decode (text : string) : option Z :=
  let n := read_u64 text in
  if (ex_rest n =? "s")%string then
    if ex_ok n then Some (ex_value n) else None
  else
    match strip_prefix " days, " (ex_rest n), strip_prefix " day, " (ex_rest n) with
    | Some t, _ | None, Some t =>
        match read_clock t with
        | Some c => if ex_ok n then Some (ex_value n * 86400 + c) else None
        | None => None
        end
    | None, None => read_clock text
    end.

(** What the rendering keeps of a duration. *)
Definition shown (seconds : Z) : Z :=
  if seconds <? 60 then seconds else seconds - seconds mod 60.

End UptimeSpec.

(** The text of a memory file made of lines [key pad value kB]. *)
Module MeminfoSpec.
Import Linux.

Record line := { key : string; pad : string; kilobytes : Z }.

(** A key is a non-empty token, the padding is some white space, the value
    fits in 64 bits. *)
Definition good_line (l : line) : Prop :=
  key l <> "" /\ string_forall (fun c => negb (isspace c)) (key l) = true /\
  pad l <> "" /\ string_forall isspace (pad l) = true /\
  0 <= kilobytes l <= U64.max.

Definition line_text (l : line) : string :=
  key l ++ pad l ++ dec (kilobytes l) ++ " kB" ++ newline.

(** A line whose unit is missing, as the kernel writes for plain counts. *)
Definition unitless_text (l : line) : string :=
  key l ++ pad l ++ dec (kilobytes l) ++ newline.

Fixpoint text (ls : list line) : string :=
  match ls with
  | [] => ""
  | l :: rest => line_text l ++ text rest
  end.

Definition entries (ls : list line) : list (string * Z * string) :=
  map (fun l => (key l, kilobytes l, "kB")) ls.

Definition meminfo_lines : list line :=
  [ {| key := "MemTotal:"; pad := "       "; kilobytes := 16384000 |};
    {| key := "MemFree:"; pad := "          "; kilobytes := 176400 |};
    {| key := "MemAvailable:"; pad := "   "; kilobytes := 8000000 |};
    {| key := "Buffers:"; pad := "           "; kilobytes := 90000 |} ].

Definition hugepages_line : line :=
  {| key := "HugePages_Total:"; pad := "       "; kilobytes := 0 |}.

(** The text starts a new token or is exhausted. *)
Definition word_end (s : string) : Prop :=
  match s with
  | EmptyString => True
  | String c _ => isspace c = true
  end.

(** The result in terms of the first value of each key. *)
Definition status_of_keys (ts : list (string * Z * string)) : MemoryStatus.t :=
  match MemSpec.find_key "MemTotal:" ts with
  | Some kb =>
      if U64.mul kb 1024 =? 0 then MemoryStatus.init
      else
        {| MemoryStatus.total_bytes := U64.mul kb 1024;
           MemoryStatus.available_bytes :=
             match MemSpec.find_key "MemAvailable:" ts with
             | Some avail => U64.mul avail 1024
             | None => 0
             end;
           MemoryStatus.valid := true |}
  | None => MemoryStatus.init
  end.

End MeminfoSpec.

Module SeriesSpec.

(** Two readings of the accounting file, the second one later. *)
Definition stat_later_fields : list (string * Z) :=
  [("  ", 3400); (" ", 0); (" ", 4350); (" ", 1362468); (" ", 12); (" ", 0);
   (" ", 7); (" ", 0); (" ", 0); (" ", 0)].

Definition proc_reordered : Linux.dir_stream :=
  TaskSpec.listing
    [("self", true); ("217", true); ("1", true); ("net", true);
     ("33", false); ("uptime", false)].

Definition idle_time_1 : Windows.FILETIME :=
  {| Windows.dwLowDateTime := 4000000000; Windows.dwHighDateTime := 7 |}.
Definition kernel_time_1 : Windows.FILETIME :=
  {| Windows.dwLowDateTime := 100000000; Windows.dwHighDateTime := 8 |}.
Definition user_time_1 : Windows.FILETIME :=
  {| Windows.dwLowDateTime := 500000000; Windows.dwHighDateTime := 0 |}.
Definition idle_time_2 : Windows.FILETIME :=
  {| Windows.dwLowDateTime := 5032704; Windows.dwHighDateTime := 8 |}.
Definition kernel_time_2 : Windows.FILETIME :=
  {| Windows.dwLowDateTime := 420000000; Windows.dwHighDateTime := 8 |}.
Definition user_time_2 : Windows.FILETIME :=
  {| Windows.dwLowDateTime := 580000000; Windows.dwHighDateTime := 0 |}.

Definition host_with_buffer_limit (n : Z) : Windows.host :=
  {| Windows.GetSystemTimes := None; Windows.GlobalMemoryStatusEx := None;
     Windows.EnumProcesses :=
       fun cb => if cb <? 0 then None else Some (Z.min cb (4 * n));
     Windows.GetTickCount64 := 0 |}.

End SeriesSpec.

Module ConsoleSpec.

Definition console_with_mode (m : Z) : Console.t :=
  {| Console.handle_valid := true; Console.mode := Some m;
     Console.accepts_mode := true |}.

End ConsoleSpec.

Module ProgramSpec.

(** Occurrences of a character in a text. *)
Fixpoint count_char (c : ascii) (s : string) : nat :=
  match s with
  | EmptyString => O
  | String x r => ((if Ascii.eqb x c then 1 else 0) + count_char c r)%nat
  end.

Definition host_with_stat_uptime (stat : string) (uptime : string) : Linux.host :=
  {| Linux.proc_stat := Some stat; Linux.proc_meminfo := None;
     Linux.proc := Linux.dir_error; Linux.loadavg := None;
     Linux.proc_uptime := Some uptime |}.

Definition stat_later : string :=
  "cpu  3400 0 4350 1362468 12 0 7 0 0 0" ++ newline.

Definition noon : tm := {| tm_hour := 12; tm_min := 0; tm_sec := 7 |}.

Definition memory_status (total available : Z) : MemoryStatus.t :=
  {| MemoryStatus.total_bytes := total; MemoryStatus.available_bytes := available;
     MemoryStatus.valid := true |}.

(** A host of the Windows-style build whose calls all succeed. *)
Definition windows_host (idle kernel user : Windows.FILETIME) (ticks : Z)
    : Windows.host :=
  {| Windows.GetSystemTimes := Some (idle, kernel, user);
     Windows.GlobalMemoryStatusEx := Some (17179869184, 8589934592);
     Windows.EnumProcesses :=
       fun cb => if cb <? 0 then None else Some (Z.min cb 1200);
     Windows.GetTickCount64 := ticks |}.

End ProgramSpec.

Module CellSpec.

(** A cell of [values]. *)
Definition cell (v : Z) : Prop := 0 <= v <= U64.max.

(** The array [values] of [sample_cpu] after its reading loop, for a file
    whose first line could be read. *)
Definition cells (h : Linux.host) : list Z :=
  match Linux.proc_stat h with
  | Some stat =>
      match IStream.getline stat with
      | Some (line, _) =>
          match IStream.read_word line with
          | Some (_, iss) => Linux.read_values 10 0 iss true (repeat 0 10)
          | None => Linux.read_values 10 0 "" false (repeat 0 10)
          end
      | None => repeat 0 10
      end
  | None => repeat 0 10
  end.

End CellSpec.

Module CpuLineSpec.

(** The doubles of the whole numbers up to one hundred, their difference
    to one hundred and their text with one fractional digit. *)
Definition whole_ok (k : nat) : bool :=
  let p := Z.of_nat k in
  (Double.fixed 1 (Double.of_u64 p) =? dec p ++ ".0")%string &&
  (Double.fixed 1 (Double.sub Double.hundred (Double.of_u64 p))
   =? dec (100 - p) ++ ".0")%string.

End CpuLineSpec.

(** * Properties *)

(** ** Unsigned 64-bit arithmetic *)

Module U64Props.
Import U64.

Lemma wrap_range z : in_range (wrap z).
Proof. unfold in_range, wrap, modulus. apply Z.mod_pos_bound. lia. Qed.

Lemma wrap_small z : in_range z -> wrap z = z.
Proof. unfold in_range, wrap. intros H. apply Z.mod_small. exact H. Qed.

Lemma wrap_add_l a b : wrap (wrap a + b) = wrap (a + b).
Proof. unfold wrap, modulus. apply Z.add_mod_idemp_l. lia. Qed.

Lemma wrap_add_r a b : wrap (a + wrap b) = wrap (a + b).
Proof. unfold wrap, modulus. apply Z.add_mod_idemp_r. lia. Qed.

Lemma wrap_wrap a : wrap (wrap a) = wrap a.
Proof. unfold wrap, modulus. apply Z.mod_mod. lia. Qed.

End U64Props.

(** ** Strings *)

Lemma append_assoc (a b c : string) : (a ++ b) ++ c = a ++ (b ++ c).
Proof. induction a as [|x a IH]; simpl; [reflexivity | now rewrite IH]. Qed.

Lemma append_nil_r (a : string) : a ++ "" = a.
Proof. induction a as [|x a IH]; simpl; [reflexivity | now rewrite IH]. Qed.

Lemma length_append (a b : string) :
  String.length (a ++ b) = (String.length a + String.length b)%nat.
Proof. induction a as [|x a IH]; simpl; [reflexivity | now rewrite IH]. Qed.

(** ** Decimal output *)

Lemma dec_one_digit n : 0 <= n < 10 -> dec n = String (digit_char n) "".
Proof.
  intros H. unfold dec. cbn [dec_digits].
  rewrite (Z.div_small n 10), (Z.mod_small n 10) by lia. reflexivity.
Qed.

Lemma dec_two_digits n :
  10 <= n < 100 ->
  dec n = String (digit_char (n / 10)) (String (digit_char (n mod 10)) "").
Proof.
  intros H. unfold dec.
  assert (L : 3 <= Z.log2 n) by (change 3 with (Z.log2 10); apply Z.log2_le_mono; lia).
  destruct (Z.to_nat (Z.log2 n)) as [|k] eqn:E; [lia|].
  cbn [dec_digits].
  assert (Q : 1 <= n / 10 < 10).
  { split; [apply Z.div_le_lower_bound | apply Z.div_lt_upper_bound]; lia. }
  destruct (n / 10 =? 0) eqn:E0; [apply Z.eqb_eq in E0; lia|].
  rewrite (Z.div_small (n / 10) 10), (Z.mod_small (n / 10) 10) by lia.
  reflexivity.
Qed.

Lemma setw2_fill0 n : 0 <= n < 100 -> setw_setfill 2 "0" (dec n) = two_digits n.
Proof.
  intros H. destruct (Z_lt_le_dec n 10) as [L|L].
  - rewrite dec_one_digit by lia. unfold two_digits.
    rewrite (Z.div_small n 10), (Z.mod_small n 10) by lia. reflexivity.
  - rewrite dec_two_digits by lia. reflexivity.
Qed.

(** ** [format_uptime] *)

(** [C5] A duration below one minute is its decimal number followed by [s].
    Any longer one splits, in one way only, into days, hours below 24,
    minutes below 60 and leftover seconds below 60; the text is the day
    count when it is not zero ([day] for one, [days] for more, then a comma
    and a space), then hours and minutes on two digits each with a colon in
    between, the leftover seconds being dropped.  The five sample values
    render as documented. *)
Theorem format_uptime_correct :
  (forall seconds, U64.in_range seconds ->
     (seconds < 60 -> format_uptime seconds = dec seconds ++ "s") /\
     (60 <= seconds ->
        exists days hours minutes leftover,
          seconds = days * 86400 + hours * 3600 + minutes * 60 + leftover /\
          0 <= days /\ 0 <= hours < 24 /\ 0 <= minutes < 60 /\
          0 <= leftover < 60 /\
          format_uptime seconds =
            day_prefix days ++ two_digits hours ++ ":" ++ two_digits minutes)) /\
  format_uptime 0 = "0s" /\
  format_uptime 59 = "59s" /\
  format_uptime 60 = "00:01" /\
  format_uptime 90000 = "1 day, 01:00" /\
  format_uptime 176400 = "2 days, 01:00".
Proof.
  split; [|repeat split; reflexivity].
  intros seconds [Hlo Hhi]. split.
  - intros L. unfold format_uptime.
    destruct (seconds <? 60) eqn:E; [reflexivity | apply Z.ltb_ge in E; lia].
  - intros L.
    exists (seconds / 86400), (seconds mod 86400 / 3600),
           (seconds mod 86400 mod 3600 / 60), (seconds mod 86400 mod 3600 mod 60).
    pose proof (Z.div_mod seconds 86400 ltac:(lia)) as D1.
    pose proof (Z.mod_pos_bound seconds 86400 ltac:(lia)) as B1.
    pose proof (Z.div_mod (seconds mod 86400) 3600 ltac:(lia)) as D2.
    pose proof (Z.mod_pos_bound (seconds mod 86400) 3600 ltac:(lia)) as B2.
    pose proof (Z.div_mod (seconds mod 86400 mod 3600) 60 ltac:(lia)) as D3.
    pose proof (Z.mod_pos_bound (seconds mod 86400 mod 3600) 60 ltac:(lia)) as B3.
    assert (Hd : 0 <= seconds / 86400) by (apply Z.div_pos; lia).
    assert (Hh : 0 <= seconds mod 86400 / 3600 < 24).
    { split; [apply Z.div_pos | apply Z.div_lt_upper_bound]; lia. }
    assert (Hm : 0 <= seconds mod 86400 mod 3600 / 60 < 60).
    { split; [apply Z.div_pos | apply Z.div_lt_upper_bound]; lia. }
    repeat split; try lia.
    unfold format_uptime.
    destruct (seconds <? 60) eqn:E; [apply Z.ltb_lt in E; lia|].
    cbv zeta. rewrite !setw2_fill0 by lia.
    f_equal. unfold day_prefix.
    destruct (Z.ltb_spec 0 (seconds / 86400)) as [E0|E0];
      destruct (Z.eqb_spec (seconds / 86400) 0) as [E1|E1]; try lia;
      [|reflexivity].
    destruct (Z.ltb_spec 1 (seconds / 86400)) as [E2|E2];
      destruct (Z.eqb_spec (seconds / 86400) 1) as [E3|E3]; try lia;
      rewrite ?append_assoc; reflexivity.
Qed.

Lemma format_uptime_correct_witness :
  U64.in_range 93784 /\
  exists days hours minutes leftover,
    93784 = days * 86400 + hours * 3600 + minutes * 60 + leftover /\
    0 <= days /\ 0 <= hours < 24 /\ 0 <= minutes < 60 /\ 0 <= leftover < 60 /\
    format_uptime 93784 =
      day_prefix days ++ two_digits hours ++ ":" ++ two_digits minutes.
Proof.
  assert (R : U64.in_range 93784) by (unfold U64.in_range, U64.modulus; lia).
  split; [exact R|].
  apply (proj2 (proj1 format_uptime_correct 93784 R)). lia.
Defined.

(** ** [sample_tasks] *)

Module TaskProps.
Import Linux.
Import TaskSpec.

Lemma failing_or_listing d :
  failing d = false -> exists entries, d = listing entries.
Proof.
  induction d as [|name [b|] next IH|]; simpl; intros H; try discriminate.
  - now exists [].
  - destruct (IH H) as [es ->]. now exists ((name, b) :: es).
Qed.

Lemma count_tasks_listing entries : forall count,
  count_tasks (listing entries) (U64.wrap count)
  = Some (U64.wrap (count + task_count entries)).
Proof.
  unfold task_count.
  induction entries as [|[name d] rest IH]; intros count.
  - simpl. now rewrite Z.add_0_r.
  - cbn [listing count_tasks filter]. unfold is_task at 1. cbn [fst snd].
    destruct d; cbn [andb].
    + destruct (numeric_name name).
      * unfold U64.add. rewrite U64Props.wrap_add_l, IH. f_equal. f_equal.
        cbn [List.length]. lia.
      * apply IH.
    + apply IH.
Qed.

Lemma count_tasks_failing d : forall count,
  failing d = true -> count_tasks d count = None.
Proof.
  induction d as [|name [b|] next IH|]; simpl; intros count H;
    try discriminate; try reflexivity.
  destruct b; [destruct (numeric_name name)|]; now apply IH.
Qed.

Lemma numeric_name_iff name :
  numeric_name name = true <->
  name <> "" /\ forall c, In c (list_ascii_of_string name) -> isdigit c = true.
Proof.
  unfold numeric_name. rewrite andb_true_iff, negb_true_iff, String.eqb_neq.
  apply and_iff_compat_l.
  induction name as [|x name IH]; simpl.
  - split; [intros _ c [] | reflexivity].
  - rewrite andb_true_iff, IH. split.
    + intros [Hx Hr] c [<-|Hc]; auto.
    + intros H. split; [apply H; now left | intros c Hc; apply H; now right].
Qed.

End TaskProps.

(** [C6] On the Linux-style build [sample_tasks] always returns a summary.
    When the traversal of the process directory meets no error, the summary
    is valid and its total is the number of entries that are directories
    and whose name is not empty and made of decimal digits only (counted in
    [size_t], so exactly that number for any listing of fewer than [2 ^ 64]
    entries); [self] and [net] are not such names.  When the traversal
    throws, at the opening or at any entry, the summary is invalid with a
    total of zero.  Every traversal is of one of these two kinds. *)
Theorem sample_tasks_counts_numeric_directories :
  (forall h entries,
     Linux.proc h = TaskSpec.listing entries ->
     Linux.sample_tasks h =
       {| TaskSummary.total := U64.wrap (TaskSpec.task_count entries);
          TaskSummary.valid := true |} /\
     (Z.of_nat (List.length entries) < U64.modulus ->
      TaskSummary.total (Linux.sample_tasks h) = TaskSpec.task_count entries)) /\
  (forall h,
     TaskSpec.failing (Linux.proc h) = true ->
     Linux.sample_tasks h = {| TaskSummary.total := 0; TaskSummary.valid := false |}) /\
  (forall h,
     TaskSpec.failing (Linux.proc h) = false ->
     exists entries, Linux.proc h = TaskSpec.listing entries) /\
  (forall name,
     Linux.numeric_name name = true <->
     name <> "" /\ forall c, In c (list_ascii_of_string name) -> isdigit c = true) /\
  (forall c, isdigit c = true <-> In c (list_ascii_of_string "0123456789")) /\
  TaskSpec.is_task ("self", true) = false /\
  TaskSpec.is_task ("net", true) = false /\
  TaskSpec.is_task ("4242", true) = true /\
  TaskSpec.is_task ("4242", false) = false.
Proof.
  split; [|split; [|split; [|split; [|split; [|repeat split; reflexivity]]]]].
  - intros h entries E.
    assert (S : Linux.sample_tasks h =
       {| TaskSummary.total := U64.wrap (TaskSpec.task_count entries);
          TaskSummary.valid := true |}).
    { unfold Linux.sample_tasks. rewrite E.
      change 0 with (U64.wrap 0) at 1.
      rewrite TaskProps.count_tasks_listing. reflexivity. }
    split; [exact S|].
    intros B. rewrite S. simpl. apply U64Props.wrap_small.
    unfold U64.in_range, TaskSpec.task_count.
    pose proof (filter_length_le TaskSpec.is_task entries). lia.
  - intros h F. unfold Linux.sample_tasks.
    now rewrite (TaskProps.count_tasks_failing _ 0 F).
  - intros h F. now apply TaskProps.failing_or_listing.
  - apply TaskProps.numeric_name_iff.
  - intros c. split.
    + destruct c as [[] [] [] [] [] [] [] []]; simpl; intros H;
        try discriminate; tauto.
    + simpl. intros H.
      repeat (destruct H as [<-|H]; [reflexivity|]). destruct H.
Qed.

Lemma sample_tasks_counts_numeric_directories_witness :
  Linux.sample_tasks (host_with_proc sample_proc)
  = {| TaskSummary.total := 2; TaskSummary.valid := true |}.
Proof.
  exact (proj1 (proj1 sample_tasks_counts_numeric_directories
                  (host_with_proc sample_proc) _ eq_refl)).
Defined.

(** ** [sample_load_averages] *)

Lemma getloadavg_three h :
  fst (Linux.getloadavg h (repeat Double.zero 3) 3) = 3 <->
  exists a b c more, Linux.loadavg h = Some (a :: b :: c :: more).
Proof.
  unfold Linux.getloadavg.
  destruct (Linux.loadavg h) as [[|a [|b [|c more]]]|]; simpl;
    (split; [intros H; try discriminate | intros (a' & b' & c' & m' & H);
                                          try discriminate]).
  - now exists a, b, c, more.
  - reflexivity.
Qed.

(** [C9] On the Linux-style build the load averages are valid exactly when
    [getloadavg], asked for three samples, returns 3; the three fields are
    then the three samples in order, and in every other case (an error or
    fewer samples) the result is invalid.  On the Windows-style build, which
    has no such call, the result is never valid. *)
Theorem sample_load_averages_valid_iff_three :
  (forall h,
     LoadAverages.valid (Linux.sample_load_averages h) = true <->
     fst (Linux.getloadavg h (repeat Double.zero 3) 3) = 3) /\
  (forall h a b c more,
     Linux.loadavg h = Some (a :: b :: c :: more) ->
     Linux.sample_load_averages h =
       {| LoadAverages.one := a; LoadAverages.five := b;
          LoadAverages.fifteen := c; LoadAverages.valid := true |}) /\
  (forall h,
     fst (Linux.getloadavg h (repeat Double.zero 3) 3) <> 3 ->
     Linux.sample_load_averages h = LoadAverages.init) /\
  (forall h, LoadAverages.valid (Windows.sample_load_averages h) = false).
Proof.
  split; [|split; [|split]].
  - intros h. unfold Linux.sample_load_averages.
    destruct (Linux.getloadavg h _ 3) as [n loads]. simpl.
    destruct (Z.eqb_spec n 3); simpl; split; congruence.
  - intros h a b c more E. unfold Linux.sample_load_averages, Linux.getloadavg.
    rewrite E. reflexivity.
  - intros h N. unfold Linux.sample_load_averages.
    destruct (Linux.getloadavg h _ 3) as [n loads]. simpl in N.
    destruct (Z.eqb_spec n 3); [contradiction | reflexivity].
  - reflexivity.
Qed.

Lemma sample_load_averages_valid_iff_three_witness :
  Linux.sample_load_averages
    (host_with_loadavg (Some [Double.of_u64 1; Double.of_u64 2; Double.of_u64 3]))
  = {| LoadAverages.one := Double.of_u64 1; LoadAverages.five := Double.of_u64 2;
       LoadAverages.fifteen := Double.of_u64 3; LoadAverages.valid := true |}.
Proof.
  exact (proj1 (proj2 sample_load_averages_valid_iff_three)
           (host_with_loadavg
              (Some [Double.of_u64 1; Double.of_u64 2; Double.of_u64 3]))
           _ _ _ [] eq_refl).
Defined.

(** ** Stream extraction consumes text *)

Module StreamProps.
Import IStream.

Lemma skip_ws_length s : (String.length (skip_ws s) <= String.length s)%nat.
Proof.
  induction s as [|c r IH]; simpl; [lia|].
  destruct (isspace c); simpl; lia.
Qed.

Lemma take_word_length s w rest :
  take_word s = (w, rest) ->
  String.length s = (String.length w + String.length rest)%nat.
Proof.
  revert w rest. induction s as [|c r IH]; simpl; intros w rest H.
  - now inversion H.
  - destruct (isspace c).
    + now inversion H.
    + destruct (take_word r) as [w' rest'] eqn:E. inversion H; subst.
      simpl. now rewrite (IH _ _ eq_refl).
Qed.

Lemma read_word_length s w rest :
  read_word s = Some (w, rest) -> (String.length rest < String.length s)%nat.
Proof.
  unfold read_word. destruct (take_word (skip_ws s)) as [w' rest'] eqn:E.
  pose proof (take_word_length _ _ _ E) as L.
  pose proof (skip_ws_length s) as K.
  destruct w' as [|c w']; [discriminate|].
  intros H; inversion H; subst. simpl in L. lia.
Qed.

Lemma take_digits_length s : forall acc any v any' rest,
  take_digits s acc any = (v, any', rest) ->
  (String.length rest <= String.length s)%nat.
Proof.
  induction s as [|c r IH]; simpl; intros acc any v any' rest H.
  - inversion H; subst. simpl. lia.
  - destruct (isdigit c).
    + apply IH in H. lia.
    + inversion H; subst. simpl. lia.
Qed.

Lemma read_sign_length s :
  (String.length (snd (read_sign s)) <= String.length s)%nat.
Proof.
  destruct s as [|c r]; simpl; [lia|].
  destruct c as [[] [] [] [] [] [] [] []]; simpl; lia.
Qed.

Lemma read_u64_length s :
  (String.length (ex_rest (read_u64 s)) <= String.length s)%nat.
Proof.
  unfold read_u64.
  pose proof (skip_ws_length s) as K.
  pose proof (read_sign_length (skip_ws s)) as G.
  destruct (read_sign (skip_ws s)) as [negative body]. simpl in G.
  destruct (take_digits body 0 false) as [[result any] rest] eqn:E.
  apply take_digits_length in E.
  destruct (negb any); simpl; [lia|].
  destruct (U64.max <? result); simpl; lia.
Qed.

End StreamProps.

(** ** [sample_memory] *)

Module MemProps.
Import Linux.
Import MemSpec.

Lemma read_triplet_length s key value unit rest :
  read_triplet s = Some (key, value, unit, rest) ->
  (String.length rest < String.length s)%nat.
Proof.
  unfold read_triplet.
  destruct (IStream.read_word s) as [[k s1]|] eqn:E1; [|discriminate].
  pose proof (StreamProps.read_u64_length s1) as L.
  destruct (IStream.ex_ok (IStream.read_u64 s1)); [|discriminate].
  destruct (IStream.read_word (IStream.ex_rest (IStream.read_u64 s1)))
    as [[u s2]|] eqn:E2; [|discriminate].
  intros H; inversion H; subst.
  apply StreamProps.read_word_length in E1.
  apply StreamProps.read_word_length in E2. lia.
Qed.

Lemma scan_meminfo_triplets fuel : forall s st,
  (String.length s < fuel)%nat ->
  scan_meminfo fuel s st = Some (scan_list (triplets fuel s) st).
Proof.
  induction fuel as [|fuel IH]; intros s st L; [lia|].
  simpl. destruct (read_triplet s) as [[[[key value] unit] rest]|] eqn:E;
    [|reflexivity].
  simpl. destruct (both_found (update_meminfo key value st)); [reflexivity|].
  apply IH. apply read_triplet_length in E. lia.
Qed.

Lemma sample_memory_scan h s :
  proc_meminfo h = Some s ->
  sample_memory h = Some (status_of (scan_list (triplets_of s) (0, 0))).
Proof.
  intros E. unfold sample_memory. rewrite E.
  rewrite scan_meminfo_triplets by lia. reflexivity.
Qed.

Lemma count_key_zero key ts : count_key key ts = O -> find_key key ts = None.
Proof.
  induction ts as [|[[k v] u] rest IH]; simpl; [reflexivity|].
  destruct (k =? key)%string; [discriminate | exact IH].
Qed.

Lemma find_key_none key ts :
  (forall k v u, In (k, v, u) ts -> k <> key) -> find_key key ts = None.
Proof.
  induction ts as [|[[k v] u] rest IH]; simpl; intros H; [reflexivity|].
  destruct (String.eqb_spec k key) as [->|N].
  - exfalso. apply (H key v u); auto.
  - apply IH. intros k' v' u' I. apply (H k' v' u'). now right.
Qed.

Lemma scan_list_unique ts : forall a b,
  (count_key "MemTotal:" ts <= 1)%nat ->
  (count_key "MemAvailable:" ts <= 1)%nat ->
  (a <> 0 -> count_key "MemTotal:" ts = O) ->
  (b <> 0 -> count_key "MemAvailable:" ts = O) ->
  scan_list ts (a, b) = (bytes_of "MemTotal:" ts a, bytes_of "MemAvailable:" ts b).
Proof.
  unfold bytes_of.
  induction ts as [|[[k v] u] rest IH]; intros a b CT CA HA HB; [reflexivity|].
  cbn [scan_list find_key]. cbn [count_key] in CT, CA, HA, HB.
  unfold update_meminfo.
  destruct (String.eqb_spec k "MemTotal:") as [->|NT].
  - change ("MemTotal:" =? "MemAvailable:")%string with false in *.
    cbn [Nat.add] in *.
    assert (ZT : count_key "MemTotal:" rest = O) by lia.
    destruct (both_found (U64.mul v 1024, b)) eqn:F.
    + unfold both_found in F. cbn [fst snd] in F.
      apply andb_true_iff in F. destruct F as [_ F].
      apply negb_true_iff, Z.eqb_neq in F.
      rewrite (count_key_zero _ _ (HB F)). reflexivity.
    + rewrite IH; try lia. now rewrite (count_key_zero _ _ ZT).
  - destruct (String.eqb_spec k "MemAvailable:") as [->|NA].
    + cbn [Nat.add] in *.
      assert (ZA : count_key "MemAvailable:" rest = O) by lia.
      destruct (both_found (a, U64.mul v 1024)) eqn:F.
      * unfold both_found in F. cbn [fst snd] in F.
        apply andb_true_iff in F. destruct F as [F _].
        apply negb_true_iff, Z.eqb_neq in F.
        rewrite (count_key_zero _ _ (HA F)). reflexivity.
      * rewrite IH; try lia. now rewrite (count_key_zero _ _ ZA).
    + cbn [Nat.add] in *.
      destruct (both_found (a, b)) eqn:F.
      * unfold both_found in F. cbn [fst snd] in F.
        apply andb_true_iff in F. destruct F as [F1 F2].
        apply negb_true_iff, Z.eqb_neq in F1, F2.
        rewrite (count_key_zero _ _ (HA F1)), (count_key_zero _ _ (HB F2)).
        reflexivity.
      * apply IH; assumption.
Qed.

(** Whatever the loop leaves in [mem_total] comes from a [MemTotal:]
    triplet, and likewise for [mem_available]. *)
Lemma scan_list_origin ts : forall a b,
  let r := scan_list ts (a, b) in
  (fst r = a \/ exists kb u, In ("MemTotal:", kb, u) ts /\ fst r = U64.mul kb 1024) /\
  (snd r = b \/ exists kb u, In ("MemAvailable:", kb, u) ts /\ snd r = U64.mul kb 1024).
Proof.
  induction ts as [|[[k v] u] rest IH]; intros a b; [simpl; auto|].
  cbn [scan_list]. unfold update_meminfo.
  destruct (String.eqb_spec k "MemTotal:") as [->|NT].
  - destruct (both_found _).
    + simpl. split; [right; exists v, u; auto | auto].
    + destruct (IH (U64.mul v 1024) b) as [[H1|(kb & u' & I & H1)] [H2|(kb2 & u2 & I2 & H2)]];
        cbv zeta; split;
        try (right; exists v, u; split; [now left | assumption]);
        try (right; eexists _, _; split; [right; eassumption | assumption]);
        try (now left).
  - destruct (String.eqb_spec k "MemAvailable:") as [->|NA].
    + destruct (both_found _).
      * simpl. split; [auto | right; exists v, u; auto].
      * destruct (IH a (U64.mul v 1024)) as [[H1|(kb & u' & I & H1)] [H2|(kb2 & u2 & I2 & H2)]];
          cbv zeta; split;
          try (right; exists v, u; split; [now left | assumption]);
          try (right; eexists _, _; split; [right; eassumption | assumption]);
          try (now left).
    + destruct (both_found _).
      * simpl. auto.
      * destruct (IH a b) as [[H1|(kb & u' & I & H1)] [H2|(kb2 & u2 & I2 & H2)]];
          cbv zeta; split;
          try (right; eexists _, _; split; [right; eassumption | assumption]);
          try (now left).
Qed.

End MemProps.

(** A [MemTotal] key that is found does not make the result valid when its
    value is zero: [mem_total] serves both as the value and as the mark that
    the key was seen. *)
Lemma sample_memory_zero_total_invalid :
  In ("MemTotal:", 0, "kB") (MemSpec.triplets_of meminfo_zero_total) /\
  Linux.sample_memory (host_with_meminfo (Some meminfo_zero_total))
  = Some {| MemoryStatus.total_bytes := 0; MemoryStatus.available_bytes := 0;
            MemoryStatus.valid := false |}.
Proof. split; [left|]; vm_compute; reflexivity. Qed.

(** [C4] (as amended) On the Linux-style build [sample_memory] always
    returns a status.  Without the file, or without a [MemTotal:] key among
    the triplets read, the status is invalid.  A valid status carries the
    kilobyte value of a [MemTotal:] triplet times 1024 (in 64 bits), which
    is not zero, and an available size that is zero or the value of a
    [MemAvailable:] triplet times 1024.  When each of the two keys occurs at
    most once, the status is valid exactly when [MemTotal:] occurs with a
    value whose product by 1024 is not zero; it then holds that product,
    and the product for [MemAvailable:], or zero when that key is
    missing. *)
Theorem sample_memory_valid_iff_nonzero_total :
  (forall h, exists st, Linux.sample_memory h = Some st) /\
  (forall h, Linux.proc_meminfo h = None ->
     Linux.sample_memory h = Some MemoryStatus.init) /\
  (forall h s,
     Linux.proc_meminfo h = Some s ->
     (forall k v u, In (k, v, u) (MemSpec.triplets_of s) -> k <> "MemTotal:") ->
     Linux.sample_memory h = Some MemoryStatus.init) /\
  (forall h s st,
     Linux.proc_meminfo h = Some s ->
     Linux.sample_memory h = Some st ->
     MemoryStatus.valid st = true ->
     (exists kb u, In ("MemTotal:", kb, u) (MemSpec.triplets_of s) /\
                   MemoryStatus.total_bytes st = U64.mul kb 1024 /\
                   MemoryStatus.total_bytes st <> 0) /\
     (MemoryStatus.available_bytes st = 0 \/
      exists kb u, In ("MemAvailable:", kb, u) (MemSpec.triplets_of s) /\
                   MemoryStatus.available_bytes st = U64.mul kb 1024)) /\
  (forall h s,
     Linux.proc_meminfo h = Some s ->
     (MemSpec.count_key "MemTotal:" (MemSpec.triplets_of s) <= 1)%nat ->
     (MemSpec.count_key "MemAvailable:" (MemSpec.triplets_of s) <= 1)%nat ->
     Linux.sample_memory h =
       Some match MemSpec.find_key "MemTotal:" (MemSpec.triplets_of s) with
            | Some kb =>
                if U64.mul kb 1024 =? 0 then MemoryStatus.init
                else
                  {| MemoryStatus.total_bytes := U64.mul kb 1024;
                     MemoryStatus.available_bytes :=
                       match MemSpec.find_key "MemAvailable:"
                               (MemSpec.triplets_of s) with
                       | Some avail => U64.mul avail 1024
                       | None => 0
                       end;
                     MemoryStatus.valid := true |}
            | None => MemoryStatus.init
            end).
Proof.
  split; [|split; [|split; [|split]]].
  - intros h. destruct (Linux.proc_meminfo h) as [s|] eqn:E.
    + rewrite (MemProps.sample_memory_scan h s E). eauto.
    + unfold Linux.sample_memory. rewrite E. eauto.
  - intros h E. unfold Linux.sample_memory. now rewrite E.
  - intros h s E N. rewrite (MemProps.sample_memory_scan h s E).
    destruct (MemProps.scan_list_origin (MemSpec.triplets_of s) 0 0)
      as [[H|(kb & u & I & _)] _].
    + destruct (MemSpec.scan_list _ _) as [a b]. simpl in H. subst a.
      reflexivity.
    + exfalso. exact (N _ _ _ I eq_refl).
  - intros h s st E S V. rewrite (MemProps.sample_memory_scan h s E) in S.
    destruct (MemProps.scan_list_origin (MemSpec.triplets_of s) 0 0)
      as [HT HA].
    destruct (MemSpec.scan_list _ _) as [a b]. cbn [fst snd] in HT, HA.
    unfold Linux.status_of in S.
    destruct (Z.eqb_spec a 0) as [->|NZ]; simpl in S;
      inversion S; subst st; simpl in V; [discriminate|]. simpl.
    split.
    + destruct HT as [H|(kb & u & I & H)]; [contradiction|].
      exists kb, u. auto.
    + destruct HA as [H|(kb & u & I & H)]; [now left|].
      right. exists kb, u. auto.
  - intros h s E CT CA. rewrite (MemProps.sample_memory_scan h s E).
    rewrite MemProps.scan_list_unique by (try assumption; congruence).
    unfold MemSpec.bytes_of, Linux.status_of.
    destruct (MemSpec.find_key "MemTotal:" _) as [kb|]; [|reflexivity].
    destruct (U64.mul kb 1024 =? 0); reflexivity.
Qed.

Lemma sample_memory_valid_iff_nonzero_total_witness :
  Linux.sample_memory (host_with_meminfo (Some meminfo_no_available))
  = Some {| MemoryStatus.total_bytes := 16777216000;
            MemoryStatus.available_bytes := 0;
            MemoryStatus.valid := true |}.
Proof.
  refine (proj2 (proj2 (proj2 (proj2 sample_memory_valid_iff_nonzero_total)))
            (host_with_meminfo (Some meminfo_no_available))
            meminfo_no_available eq_refl _ _);
    vm_compute; lia.
Defined.

(** ** Invalid results carry no numbers *)

Module WindowsProps.
Import Windows.
Import WindowsSpec.

(** The byte size passed to the call is a 32-bit [DWORD]; after twenty
    doublings of the 1024 identifiers it is zero, and the loop ends there at
    the latest. *)
Lemma enum_loop_returns h (C : within_buffer h) : forall d j fuel,
  (j + d = 20)%nat -> (d < fuel)%nat ->
  exists r, enum_loop fuel h (1024 * 2 ^ Z.of_nat j) = Some r.
Proof.
  induction d as [|d IH]; intros j fuel J F.
  - destruct fuel as [|fuel]; [lia|]. assert (j = 20%nat) by lia. subst j.
    cbn [enum_loop].
    change ((1024 * 2 ^ Z.of_nat 20 * sizeof_DWORD) mod 2 ^ 32) with 0.
    destruct (EnumProcesses h 0) as [b|] eqn:E; [|eauto].
    apply C in E. assert (b = 0) by lia. subst b.
    change (0 / sizeof_DWORD <? 1024 * 2 ^ Z.of_nat 20) with true.
    cbv iota. eauto.
  - destruct fuel as [|fuel]; [lia|]. cbn [enum_loop].
    destruct (EnumProcesses h _) as [b|]; [|eauto].
    destruct (b / sizeof_DWORD <? 1024 * 2 ^ Z.of_nat j); [eauto|].
    replace (1024 * 2 ^ Z.of_nat j * 2) with (1024 * 2 ^ Z.of_nat (S j)).
    + apply IH; lia.
    + rewrite Nat2Z.inj_succ, Z.pow_succ_r by lia. lia.
Qed.

Lemma sample_tasks_returns h :
  within_buffer h -> exists r, sample_tasks 21 h = Some r.
Proof.
  intros C. unfold sample_tasks.
  exact (enum_loop_returns h C 20 0 21 eq_refl ltac:(lia)).
Qed.

Lemma enum_loop_invalid_zero h : forall fuel size r,
  enum_loop fuel h size = Some r ->
  TaskSummary.valid r = false -> TaskSummary.total r = 0.
Proof.
  induction fuel as [|fuel IH]; intros size r; [discriminate|].
  cbn [enum_loop]. destruct (EnumProcesses h _) as [b|].
  - destruct (b / sizeof_DWORD <? size).
    + intros H; inversion H; subst. discriminate.
    + apply IH.
  - intros H; inversion H; subst. reflexivity.
Qed.

End WindowsProps.

(** [C7] A result that [sample_memory], [sample_tasks] or
    [sample_load_averages] flags as not valid has all its numeric fields
    equal to zero, on the Linux-style build (where [sample_memory] always
    returns a status) and on the Windows-style build. *)
Theorem invalid_results_are_zero :
  (forall h, exists st, Linux.sample_memory h = Some st) /\
  (forall h st,
     Linux.sample_memory h = Some st -> MemoryStatus.valid st = false ->
     MemoryStatus.total_bytes st = 0 /\ MemoryStatus.available_bytes st = 0) /\
  (forall h,
     TaskSummary.valid (Linux.sample_tasks h) = false ->
     TaskSummary.total (Linux.sample_tasks h) = 0) /\
  (forall h,
     LoadAverages.valid (Linux.sample_load_averages h) = false ->
     LoadAverages.one (Linux.sample_load_averages h) = Double.zero /\
     LoadAverages.five (Linux.sample_load_averages h) = Double.zero /\
     LoadAverages.fifteen (Linux.sample_load_averages h) = Double.zero) /\
  (forall h,
     MemoryStatus.valid (Windows.sample_memory h) = false ->
     MemoryStatus.total_bytes (Windows.sample_memory h) = 0 /\
     MemoryStatus.available_bytes (Windows.sample_memory h) = 0) /\
  (forall fuel h r,
     Windows.sample_tasks fuel h = Some r -> TaskSummary.valid r = false ->
     TaskSummary.total r = 0) /\
  (forall h,
     LoadAverages.valid (Windows.sample_load_averages h) = false ->
     LoadAverages.one (Windows.sample_load_averages h) = Double.zero /\
     LoadAverages.five (Windows.sample_load_averages h) = Double.zero /\
     LoadAverages.fifteen (Windows.sample_load_averages h) = Double.zero).
Proof.
  split; [|split; [|split; [|split; [|split; [|split]]]]].
  - intros h. destruct (Linux.proc_meminfo h) as [s|] eqn:E.
    + rewrite (MemProps.sample_memory_scan h s E). eauto.
    + unfold Linux.sample_memory. rewrite E. eauto.
  - intros h st. unfold Linux.sample_memory.
    destruct (Linux.proc_meminfo h) as [s|].
    + destruct (Linux.scan_meminfo _ _ _) as [[a b]|]; [|discriminate].
      unfold Linux.status_of. destruct (negb (a =? 0));
        intros H; inversion H; subst; simpl; [discriminate | auto].
    + intros H; inversion H; subst; auto.
  - intros h. unfold Linux.sample_tasks.
    destruct (Linux.count_tasks _ _); simpl; [discriminate | reflexivity].
  - intros h. unfold Linux.sample_load_averages.
    destruct (Linux.getloadavg _ _ _) as [n loads].
    destruct (n =? 3); simpl; [discriminate | auto].
  - intros h. unfold Windows.sample_memory.
    destruct (Windows.GlobalMemoryStatusEx h) as [[t a]|]; simpl;
      [discriminate | auto].
  - intros fuel h r. apply WindowsProps.enum_loop_invalid_zero.
  - intros h _. simpl. auto.
Qed.

Lemma invalid_results_are_zero_witness :
  exists st,
    Linux.sample_memory (host_with_meminfo (Some meminfo_zero_total)) = Some st /\
    MemoryStatus.valid st = false /\
    MemoryStatus.total_bytes st = 0 /\ MemoryStatus.available_bytes st = 0.
Proof.
  exists MemoryStatus.init.
  assert (E : Linux.sample_memory (host_with_meminfo (Some meminfo_zero_total))
              = Some MemoryStatus.init) by (vm_compute; reflexivity).
  split; [exact E|]. split; [reflexivity|].
  exact (proj1 (proj2 invalid_results_are_zero) _ _ E eq_refl).
Defined.

(** ** Reading back a decimal number *)

Module NumeralProps.
Import IStream.
Import NumeralSpec.

Lemma digit_char_isdigit d : is_digit_value d -> isdigit (digit_char d) = true.
Proof.
  unfold is_digit_value. intros H.
  assert (C : d = 0 \/ d = 1 \/ d = 2 \/ d = 3 \/ d = 4 \/ d = 5 \/ d = 6 \/
              d = 7 \/ d = 8 \/ d = 9) by lia.
  repeat (destruct C as [->|C]; [reflexivity|]). now subst.
Qed.

Lemma digit_value_char d : is_digit_value d -> digit_value (digit_char d) = d.
Proof.
  unfold is_digit_value. intros H.
  assert (C : d = 0 \/ d = 1 \/ d = 2 \/ d = 3 \/ d = 4 \/ d = 5 \/ d = 6 \/
              d = 7 \/ d = 8 \/ d = 9) by lia.
  repeat (destruct C as [->|C]; [reflexivity|]). now subst.
Qed.

Lemma isdigit_not_space c : isdigit c = true -> isspace c = false.
Proof. destruct c as [[] [] [] [] [] [] [] []]; vm_compute; congruence. Qed.

Lemma isdigit_not_sign c :
  isdigit c = true -> read_sign (String c "") = (false, String c "").
Proof. destruct c as [[] [] [] [] [] [] [] []]; vm_compute; congruence. Qed.

Lemma dec_digits_range fuel : forall n,
  0 <= n -> Forall is_digit_value (dec_digits fuel n).
Proof.
  induction fuel as [|fuel IH]; intros n Hn; simpl; [constructor|].
  constructor.
  - unfold is_digit_value. apply Z.mod_pos_bound. lia.
  - destruct (n / 10 =? 0); [constructor|]. apply IH. apply Z.div_pos; lia.
Qed.

Lemma dec_digits_value fuel : forall n,
  0 <= n < 10 ^ Z.of_nat fuel ->
  fold_right (fun d a => a * 10 + d) 0 (dec_digits fuel n) = n.
Proof.
  induction fuel as [|fuel IH]; intros n Hn.
  - simpl in Hn. assert (n = 0) by lia. now subst.
  - cbn [dec_digits fold_right].
    pose proof (Z.div_mod n 10 ltac:(lia)) as D.
    destruct (Z.eqb_spec (n / 10) 0) as [E|E].
    + simpl. lia.
    + rewrite IH; [lia|].
      rewrite Nat2Z.inj_succ, Z.pow_succ_r in Hn by lia.
      split; [apply Z.div_pos; lia | apply Z.div_lt_upper_bound; lia].
Qed.

Lemma dec_fuel_enough n : 0 <= n -> n < 10 ^ Z.of_nat (S (Z.to_nat (Z.log2 n))).
Proof.
  intros Hn. rewrite Nat2Z.inj_succ, Z2Nat.id by apply Z.log2_nonneg.
  destruct (Z.eq_dec n 0) as [->|N]; [simpl; lia|].
  pose proof (Z.log2_spec n ltac:(lia)) as [_ U].
  pose proof (Z.log2_nonneg n) as L.
  eapply Z.lt_le_trans; [exact U|].
  apply Z.pow_le_mono_l. lia.
Qed.

(** [dec n] is a non-empty run of decimal digits whose value is [n]. *)
Lemma dec_shape n :
  0 <= n ->
  exists d ds,
    Forall is_digit_value (d :: ds) /\
    dec n = string_of_digits (d :: ds) /\
    digits_value (d :: ds) 0 = n.
Proof.
  intros Hn. unfold dec.
  set (fuel := S (Z.to_nat (Z.log2 n))).
  pose proof (dec_digits_range fuel n Hn) as R.
  pose proof (dec_digits_value fuel n (conj Hn (dec_fuel_enough n Hn))) as V.
  destruct (rev (dec_digits fuel n)) as [|d ds] eqn:E.
  - exfalso. apply (f_equal (@List.length Z)) in E.
    rewrite length_rev in E. subst fuel. simpl in E. discriminate.
  - exists d, ds. rewrite <- E. split; [|split].
    + now apply Forall_rev.
    + reflexivity.
    + unfold digits_value. rewrite <- fold_left_rev_right, rev_involutive.
      exact V.
Qed.

Lemma take_digits_stop s acc any :
  no_leading_digit s -> take_digits s acc any = (acc, any, s).
Proof. destruct s as [|c r]; simpl; [reflexivity | now intros ->]. Qed.

Lemma take_digits_numeral ds : forall rest acc any,
  Forall is_digit_value ds ->
  take_digits (string_of_digits ds ++ rest) acc any
  = take_digits rest (digits_value ds acc)
                (match ds with [] => any | _ => true end).
Proof.
  induction ds as [|d ds IH]; intros rest acc any F; [reflexivity|].
  inversion F as [|? ? Hd Hds]; subst.
  unfold string_of_digits. cbn [map string_of_list_ascii append take_digits].
  rewrite (digit_char_isdigit d Hd), (digit_value_char d Hd).
  fold (string_of_digits ds). rewrite IH by assumption.
  destruct ds; reflexivity.
Qed.

Lemma skip_ws_blank sep s :
  string_forall isspace sep = true -> skip_ws (sep ++ s) = skip_ws s.
Proof.
  induction sep as [|c sep IH]; simpl; [reflexivity|].
  intros H. apply andb_true_iff in H. destruct H as [-> H]. now apply IH.
Qed.

Lemma skip_ws_all_blank s : string_forall isspace s = true -> skip_ws s = "".
Proof.
  intros H. rewrite <- (append_nil_r s). now rewrite skip_ws_blank.
Qed.

(** Extraction reads back a printed number, whatever white space comes
    first, up to the next character that is not a digit. *)
Lemma read_u64_dec sep n rest :
  string_forall isspace sep = true ->
  0 <= n <= U64.max ->
  no_leading_digit rest ->
  read_u64 (sep ++ dec n ++ rest)
  = {| ex_value := n; ex_ok := true; ex_rest := rest |}.
Proof.
  intros B Hn R.
  destruct (dec_shape n (proj1 Hn)) as (d & ds & F & E & V).
  unfold read_u64. rewrite skip_ws_blank by exact B. rewrite E.
  pose proof F as F'. inversion F' as [|? ? Hd Hds]; subst.
  pose proof (digit_char_isdigit d Hd) as Dd.
  assert (S1 : skip_ws (string_of_digits (d :: ds) ++ rest)
               = string_of_digits (d :: ds) ++ rest).
  { unfold string_of_digits. cbn [map string_of_list_ascii append skip_ws].
    now rewrite (isdigit_not_space _ Dd). }
  rewrite S1.
  assert (S2 : read_sign (string_of_digits (d :: ds) ++ rest)
               = (false, string_of_digits (d :: ds) ++ rest)).
  { unfold string_of_digits. cbn [map string_of_list_ascii append].
    pose proof (isdigit_not_sign _ Dd) as G.
    destruct (digit_char d) as [[] [] [] [] [] [] [] []]; simpl in *;
      congruence. }
  rewrite S2, take_digits_numeral by exact F.
  rewrite take_digits_stop by exact R.
  cbn [negb]. destruct (Z.ltb_spec U64.max (digits_value (d :: ds) 0)); [lia|].
  reflexivity.
Qed.

Lemma string_of_digits_all_digits ds :
  Forall is_digit_value ds -> string_forall isdigit (string_of_digits ds) = true.
Proof.
  induction 1 as [|d ds Hd _ IH]; [reflexivity|].
  unfold string_of_digits in *. cbn [map string_of_list_ascii string_forall].
  now rewrite (digit_char_isdigit d Hd), IH.
Qed.

(** A printed number is made of decimal digits only. *)
Lemma dec_all_digits n : 0 <= n -> string_forall isdigit (dec n) = true.
Proof.
  intros Hn. destruct (dec_shape n Hn) as (d & ds & F & -> & _).
  now apply string_of_digits_all_digits.
Qed.

End NumeralProps.

(** ** [sample_cpu] *)

Module CpuProps.
Import Linux.
Import CpuSpec.

Lemma blank_no_leading_digit s :
  string_forall isspace s = true -> NumeralSpec.no_leading_digit s.
Proof.
  destruct s as [|c r]; simpl; [trivial|].
  intros H. apply andb_true_iff in H. destruct H as [H _].
  destruct (isdigit c) eqn:E; [|reflexivity].
  apply NumeralProps.isdigit_not_space in E. congruence.
Qed.

Lemma fields_text_no_leading_digit fields tail :
  Forall good_field fields -> string_forall isspace tail = true ->
  NumeralSpec.no_leading_digit (fields_text fields tail).
Proof.
  intros F T. destruct fields as [|[sep n] rest]; simpl.
  - now apply blank_no_leading_digit.
  - inversion F as [|? ? [N [B _]] _]; subst. simpl in N, B.
    destruct sep as [|c sep]; [contradiction|]. simpl in *.
    apply andb_true_iff in B. destruct B as [B _].
    destruct (isdigit c) eqn:E; [|reflexivity].
    apply NumeralProps.isdigit_not_space in E. congruence.
Qed.

Lemma read_values_fields fields : forall n i values tail,
  Forall good_field fields -> string_forall isspace tail = true ->
  read_values n i (fields_text fields tail) true values
  = store_list i (firstn n (map snd fields ++ [0])%list) values.
Proof.
  induction fields as [|[sep x] rest IH]; intros n i values tail F T.
  - destruct n as [|n]; [reflexivity|].
    cbn [fields_text read_values map app firstn].
    unfold IStream.read_u64.
    rewrite (NumeralProps.skip_ws_all_blank tail T). cbn.
    destruct n; reflexivity.
  - destruct n as [|n]; [reflexivity|].
    inversion F as [|? ? [N [B R]] F']; subst. simpl in N, B, R.
    cbn [fields_text read_values map app firstn store_list snd].
    rewrite NumeralProps.read_u64_dec;
      [|exact B | exact R | now apply fields_text_no_leading_digit].
    cbn [IStream.ex_rest IStream.ex_ok IStream.ex_value].
    now apply IH.
Qed.

Lemma store_app {A} (pre : list A) x y t :
  store (List.length pre) x (pre ++ y :: t)%list = (pre ++ x :: t)%list.
Proof. induction pre as [|p pre IH]; simpl; [reflexivity | now rewrite IH]. Qed.

Lemma store_list_zeros l : forall pre k,
  (List.length l <= k)%nat ->
  store_list (List.length pre) l (pre ++ repeat 0 k)%list
  = (pre ++ l ++ repeat 0 (k - List.length l))%list.
Proof.
  induction l as [|x l IH]; intros pre k L.
  - simpl. now rewrite Nat.sub_0_r.
  - destruct k as [|k]; [simpl in L; lia|].
    cbn [store_list repeat]. rewrite store_app.
    replace (pre ++ x :: repeat 0 k)%list with ((pre ++ [x]) ++ repeat 0 k)%list
      by (now rewrite <- app_assoc).
    replace (S (List.length pre)) with (List.length (pre ++ [x])%list)
      by (rewrite length_app; simpl; lia).
    rewrite IH by (simpl in L; lia).
    rewrite <- app_assoc. reflexivity.
Qed.

Lemma sum_values_wrap l : forall a,
  fold_left U64.add l (U64.wrap a) = U64.wrap (a + list_sum l).
Proof.
  induction l as [|x l IH]; intros a; simpl.
  - now rewrite Z.add_0_r.
  - unfold U64.add at 2. rewrite U64Props.wrap_add_l, IH. f_equal. lia.
Qed.

Lemma sum_values_eq l : sum_values l = U64.wrap (list_sum l).
Proof. exact (sum_values_wrap l 0). Qed.

Lemma list_sum_app l m : list_sum (l ++ m) = list_sum l + list_sum m.
Proof. induction l as [|x l IH]; simpl; [reflexivity | rewrite IH; lia]. Qed.

Lemma list_sum_zeros k : list_sum (repeat 0 k) = 0.
Proof. induction k as [|k IH]; simpl; [reflexivity | exact IH]. Qed.

Lemma firstn_app_zero n (l : list Z) :
  list_sum (firstn n (l ++ [0])%list) = list_sum (firstn n l).
Proof.
  revert n. induction l as [|x l IH]; intros [|n]; simpl; try reflexivity.
  - now destruct n.
  - now rewrite IH.
Qed.

Lemma nth_firstn_app_zero j n (l : list Z) k :
  (j < n)%nat ->
  nth j (firstn n (l ++ [0]) ++ repeat 0 k)%list 0 = nth j l 0.
Proof.
  revert j n. induction l as [|x l IH]; intros j n L.
  - destruct n as [|n]; [lia|]. simpl. destruct j as [|j]; [reflexivity|].
    destruct n; simpl; rewrite nth_repeat; reflexivity.
  - destruct n as [|n]; [lia|]. simpl. destruct j as [|j]; [reflexivity|].
    apply IH. lia.
Qed.

Lemma take_word_cons c r :
  isspace c = false ->
  IStream.take_word (String c r)
  = (String c (fst (IStream.take_word r)), snd (IStream.take_word r)).
Proof. simpl. intros ->. now destruct (IStream.take_word r). Qed.

(** The snapshot taken from a well-formed line. *)
Lemma sample_cpu_fields h stat more fields tail :
  proc_stat h = Some stat ->
  IStream.getline stat = Some ("cpu" ++ fields_text fields tail, more) ->
  Forall good_field fields -> string_forall isspace tail = true ->
  sample_cpu h =
    Some {| idle_ticks :=
              U64.wrap (nth 3 (map snd fields) 0 + nth 4 (map snd fields) 0);
            total_ticks := U64.wrap (list_sum (firstn 10 (map snd fields))) |}.
Proof.
  intros E G F T. unfold sample_cpu. rewrite E, G.
  pose proof (fields_text_no_leading_digit fields tail F T) as ND.
  assert (RW : IStream.read_word ("cpu" ++ fields_text fields tail)
               = Some ("cpu", fields_text fields tail)).
  { assert (TW : IStream.take_word (fields_text fields tail)
                 = ("", fields_text fields tail)).
    { destruct fields as [|[sep n] rest].
      - simpl. destruct tail as [|c r]; [reflexivity|]. simpl in *.
        apply andb_true_iff in T. destruct T as [-> _]. reflexivity.
      - inversion F as [|? ? [N [B _]] _]; subst. simpl in N, B.
        destruct sep as [|c sep]; [contradiction|]. simpl in *.
        apply andb_true_iff in B. destruct B as [-> _]. reflexivity. }
    unfold IStream.read_word.
    change (IStream.skip_ws ("cpu" ++ fields_text fields tail))
      with ("cpu" ++ fields_text fields tail).
    change ("cpu" ++ fields_text fields tail)
      with (String "c" (String "p" (String "u" (fields_text fields tail)))).
    rewrite !take_word_cons by reflexivity. now rewrite TW. }
  rewrite RW. cbv iota beta.
  change (("cpu" =? "cpu")%string) with true. cbn [negb].
  rewrite read_values_fields by assumption.
  set (ns := map snd fields).
  assert (L : (List.length (firstn 10 (ns ++ [0%Z])%list) <= 10)%nat)
    by (rewrite length_firstn; lia).
  pose proof (store_list_zeros _ [] 10 L) as S. cbn [List.length app] in S.
  rewrite S. unfold U64.add. rewrite !nth_firstn_app_zero by lia.
  rewrite sum_values_eq, list_sum_app, list_sum_zeros, firstn_app_zero.
  rewrite Z.add_0_r. reflexivity.
Qed.

End CpuProps.

Lemma list_sum_firstn_nonneg l : forall j,
  Forall (fun x => 0 <= x) l -> 0 <= CpuSpec.list_sum (firstn j l).
Proof.
  induction l as [|x l IH]; intros [|j] P; simpl; try lia.
  inversion P; subst. specialize (IH j ltac:(assumption)). lia.
Qed.

Lemma idle_le_total l :
  Forall (fun x => 0 <= x) l ->
  0 <= nth 3 l 0 + nth 4 l 0 <= CpuSpec.list_sum (firstn 10 l).
Proof.
  intros P.
  destruct l as [|a [|b [|c [|d [|e r]]]]];
    repeat match goal with
           | H : Forall _ (_ :: _) |- _ => inversion H; subst; clear H
           end; try (simpl; lia).
  pose proof (list_sum_firstn_nonneg r 5 ltac:(assumption)) as T.
  change (firstn 10 (a :: b :: c :: d :: e :: r))
    with (a :: b :: c :: d :: e :: firstn 5 r).
  revert T. generalize (firstn 5 r). intros t T.
  unfold CpuSpec.list_sum in *. cbn [nth fold_right]. lia.
Qed.

Lemma store_length {A} (i : nat) (v : A) a : List.length (store i v a) = List.length a.
Proof.
  revert i. induction a as [|x a IH]; intros [|i]; simpl; auto.
Qed.

Lemma read_values_length n : forall i iss good values,
  List.length (Linux.read_values n i iss good values) = List.length values.
Proof.
  induction n as [|n IH]; intros i iss good values; simpl; [reflexivity|].
  destruct good; [|reflexivity]. now rewrite IH, store_length.
Qed.

(** [C3] On the Linux-style build [sample_cpu] fails exactly when the
    accounting file cannot be opened, when it has no first line (it is
    empty), or when the first token of the first line is not [cpu].  When it
    succeeds, the total is the sum of the ten cells of [values] and the idle
    count is the sum of the fourth and fifth cells, both in unsigned 64-bit
    arithmetic.  On a first line made of [cpu] and of decimal fields
    separated by white space, the cells are the first ten fields in order,
    with zero for each missing trailing field; when the sum of the fields
    fits in 64 bits the total is exactly that sum. *)
Theorem sample_cpu_correct :
  (forall h,
     Linux.sample_cpu h = None <->
     Linux.proc_stat h = None \/
     Linux.proc_stat h = Some "" \/
     exists stat line more,
       Linux.proc_stat h = Some stat /\
       IStream.getline stat = Some (line, more) /\
       CpuSpec.leading_token line <> "cpu") /\
  (forall stat, IStream.getline stat = None <-> stat = "") /\
  (forall h snapshot,
     Linux.sample_cpu h = Some snapshot ->
     exists values,
       List.length values = 10%nat /\
       total_ticks snapshot = U64.wrap (CpuSpec.list_sum values) /\
       idle_ticks snapshot = U64.wrap (nth 3 values 0 + nth 4 values 0)) /\
  (forall h stat more fields tail,
     Linux.proc_stat h = Some stat ->
     IStream.getline stat = Some ("cpu" ++ CpuSpec.fields_text fields tail, more) ->
     Forall CpuSpec.good_field fields ->
     string_forall isspace tail = true ->
     Linux.sample_cpu h =
       Some {| idle_ticks :=
                 U64.wrap (nth 3 (map snd fields) 0 + nth 4 (map snd fields) 0);
               total_ticks :=
                 U64.wrap (CpuSpec.list_sum (firstn 10 (map snd fields))) |} /\
     (CpuSpec.list_sum (firstn 10 (map snd fields)) <= U64.max ->
      Linux.sample_cpu h =
        Some {| idle_ticks := nth 3 (map snd fields) 0 + nth 4 (map snd fields) 0;
                total_ticks := CpuSpec.list_sum (firstn 10 (map snd fields)) |})).
Proof.
  split; [|split; [|split]].
  - intros h. unfold Linux.sample_cpu, CpuSpec.leading_token.
    destruct (Linux.proc_stat h) as [stat|]; [|tauto].
    destruct stat as [|c r].
    { simpl. split; auto. }
    cbn [IStream.getline].
    destruct (IStream.upto_newline (String c r)) as [line more] eqn:U.
    destruct (IStream.read_word line) as [[w rest]|] eqn:RW.
    + destruct (String.eqb_spec w "cpu") as [->|N]; cbn [negb].
      * split; [discriminate|].
        intros [H|[H|(stat & line' & more' & H1 & H2 & H3)]];
          try discriminate.
        inversion H1; subst stat. cbn [IStream.getline] in H2. rewrite U in H2.
        inversion H2; subst. rewrite RW in H3. contradiction.
      * split; [intros _ | reflexivity].
        right; right. exists (String c r), line, more.
        cbn [IStream.getline]. rewrite U, RW. auto.
    + change (negb ("" =? "cpu")%string) with true. cbv iota.
      split; [intros _ | reflexivity].
      right; right. exists (String c r), line, more.
      cbn [IStream.getline]. rewrite U, RW. repeat split; auto. discriminate.
  - intros stat. destruct stat; simpl; split; intros H; congruence.
  - intros h snapshot. unfold Linux.sample_cpu.
    destruct (Linux.proc_stat h) as [stat|]; [|discriminate].
    destruct (IStream.getline stat) as [[line more]|]; [|discriminate].
    destruct (IStream.read_word line) as [[w rest]|].
    + destruct (negb (w =? "cpu")%string); [discriminate|].
      intros H.
      apply (f_equal (fun o => match o with Some s => s | None => snapshot end)) in H.
      cbv beta iota in H. subst snapshot. cbn [idle_ticks total_ticks].
      exists (Linux.read_values 10 0 rest true (repeat 0 10)).
      split; [now rewrite read_values_length|].
      split; [apply CpuProps.sum_values_eq | unfold U64.add; reflexivity].
    + change (negb ("" =? "cpu")%string) with true. discriminate.
  - intros h stat more fields tail E G F T.
    pose proof (CpuProps.sample_cpu_fields h stat more fields tail E G F T) as S.
    split; [exact S|]. intros B. rewrite S.
    assert (P : Forall (fun x => 0 <= x) (map snd fields)).
    { apply Forall_map. eapply Forall_impl; [|exact F].
      intros [sep n] (_ & _ & R). cbn [snd] in *. lia. }
    pose proof (list_sum_firstn_nonneg _ 10 P) as A2.
    pose proof (idle_le_total _ P) as I.
    rewrite !U64Props.wrap_small; [reflexivity | |];
      unfold U64.in_range, U64.max in *; lia.
Qed.

Lemma sample_cpu_correct_witness :
  Linux.sample_cpu (host_with_stat (Some stat_sample))
  = Some {| idle_ticks := 1362405; total_ticks := 1370082 |}.
Proof.
  refine (proj2 (proj2 (proj2 (proj2 sample_cpu_correct))
            (host_with_stat (Some stat_sample)) stat_sample _
            stat_sample_fields "" eq_refl eq_refl _ eq_refl) _).
  - repeat constructor; simpl; try discriminate; unfold U64.max, U64.modulus; lia.
  - vm_compute. discriminate.
Defined.

(** ** Binary64 arithmetic: rounding *)

Module DoubleProps.
Import Double.
Import DoubleSpec.

(** *** Number of binary digits *)

Lemma digits2_pos_bounds p :
  2 ^ (Z.pos (digits2_pos p) - 1) <= Z.pos p < 2 ^ Z.pos (digits2_pos p).
Proof.
  induction p as [p IH|p IH|]; cbn [digits2_pos].
  - rewrite Pos2Z.inj_succ. replace (Z.succ (Z.pos (digits2_pos p)) - 1)
      with (Z.succ (Z.pos (digits2_pos p) - 1)) by lia.
    rewrite !Z.pow_succ_r by lia. lia.
  - rewrite Pos2Z.inj_succ. replace (Z.succ (Z.pos (digits2_pos p)) - 1)
      with (Z.succ (Z.pos (digits2_pos p) - 1)) by lia.
    rewrite !Z.pow_succ_r by lia. lia.
  - simpl. lia.
Qed.

Lemma Zdigits2_bounds m :
  0 < m -> 2 ^ (Zdigits2 m - 1) <= m < 2 ^ Zdigits2 m.
Proof.
  destruct m as [|p|p]; try lia. intros _. apply digits2_pos_bounds.
Qed.

Lemma Zdigits2_unique m d :
  0 < d -> 2 ^ (d - 1) <= m < 2 ^ d -> Zdigits2 m = d.
Proof.
  intros Hd [L U].
  assert (P : 0 < m) by (pose proof (Z.pow_pos_nonneg 2 (d - 1)); lia).
  pose proof (Zdigits2_bounds m P) as [L' U'].
  assert (D : 0 < Zdigits2 m) by (destruct m; simpl; lia).
  destruct (Z.lt_trichotomy (Zdigits2 m) d) as [C|[C|C]]; [|exact C|].
  - exfalso. assert (2 ^ Zdigits2 m <= 2 ^ (d - 1))
      by (apply Z.pow_le_mono_r; lia). lia.
  - exfalso. assert (2 ^ d <= 2 ^ (Zdigits2 m - 1))
      by (apply Z.pow_le_mono_r; lia). lia.
Qed.

(** *** Shifting a mantissa right *)

Lemma iter_pos_nat {A} (f : A -> A) p : forall x,
  SpecFloat.iter_pos f p x = Nat.iter (Pos.to_nat p) f x.
Proof.
  induction p as [p IH|p IH|]; intros x; cbn [SpecFloat.iter_pos].
  - rewrite !IH, Pos2Nat.inj_xI.
    replace (S (2 * Pos.to_nat p)) with (Pos.to_nat p + (Pos.to_nat p + 1))%nat by lia.
    rewrite !Nat.iter_add. reflexivity.
  - rewrite !IH, Pos2Nat.inj_xO.
    replace (2 * Pos.to_nat p)%nat with (Pos.to_nat p + Pos.to_nat p)%nat by lia.
    rewrite Nat.iter_add. reflexivity.
  - reflexivity.
Qed.

Lemma extended_low m c :
  0 <= c < 4 ->
  (4 * m + c) / 2 ^ 2 = m /\
  Z.testbit (4 * m + c) 1 = Z.odd (c / 2) /\
  (4 * m + c) mod 2 ^ 1 = c mod 2.
Proof.
  intros Hc. change (2 ^ 2) with 4. change (2 ^ 1) with 2.
  pose proof (Z.div_mod c 2 ltac:(lia)) as D.
  pose proof (Z.mod_pos_bound c 2 ltac:(lia)) as B.
  split; [|split].
  - symmetry. apply Z.div_unique with (r := c); lia.
  - rewrite Z.testbit_odd, Z.shiftr_div_pow2 by lia. change (2 ^ 1) with 2.
    replace ((4 * m + c) / 2) with (c / 2 + 2 * m).
    + apply Z.odd_add_mul_2.
    + apply Z.div_unique with (r := c mod 2); lia.
  - symmetry. apply Z.mod_unique with (q := 2 * m + c / 2); lia.
Qed.

Lemma record_at_0 m l : record_at (extended m l) 0 = shr_record_of_loc m l.
Proof.
  unfold record_at, extended. cbn [Z.add].
  assert (Hc : 0 <= loc_bits l < 4) by (destruct l as [|[]]; simpl; lia).
  destruct (extended_low m (loc_bits l) Hc) as [-> [-> ->]].
  destruct l as [|[]]; reflexivity.
Qed.

Lemma shr_1_record_at M n :
  0 <= M -> 0 <= n -> shr_1 (record_at M n) = record_at M (n + 1).
Proof.
  intros HM Hn. unfold record_at.
  set (q := M / 2 ^ (n + 2)).
  assert (Q0 : 0 <= q) by (apply Z.div_pos; [lia | apply Z.pow_pos_nonneg; lia]).
  assert (Q2 : M / 2 ^ (n + 1 + 2) = q / 2).
  { unfold q. replace (n + 1 + 2) with ((n + 2) + 1) by lia.
    rewrite Z.pow_add_r, Z.div_div by (try apply Z.pow_pos_nonneg; lia).
    reflexivity. }
  assert (B : Z.testbit M (n + 1 + 1) = Z.odd q).
  { unfold q. rewrite <- Z.bit0_odd, <- Z.shiftr_div_pow2, Z.shiftr_spec by lia.
    f_equal. lia. }
  assert (S : negb (M mod 2 ^ (n + 1 + 1) =? 0)
              = Z.testbit M (n + 1) || negb (M mod 2 ^ (n + 1) =? 0)).
  { pose proof (Z.testbit_spec' M (n + 1) ltac:(lia)) as T.
    pose proof (Z.div_mod M (2 ^ (n + 1)) ltac:(apply Z.pow_nonzero; lia)) as D1.
    pose proof (Z.mod_pos_bound M (2 ^ (n + 1)) ltac:(apply Z.pow_pos_nonneg; lia)) as B1.
    pose proof (Z.div_mod (M / 2 ^ (n + 1)) 2 ltac:(lia)) as D2.
    pose proof (Z.mod_pos_bound (M / 2 ^ (n + 1)) 2 ltac:(lia)) as B2.
    assert (P2 : 2 ^ (n + 1 + 1) = 2 ^ (n + 1) * 2)
      by (rewrite (Z.pow_add_r 2 (n + 1) 1) by lia; reflexivity).
    assert (E : M mod 2 ^ (n + 1 + 1)
                = 2 ^ (n + 1) * ((M / 2 ^ (n + 1)) mod 2) + M mod 2 ^ (n + 1)).
    { rewrite P2. symmetry.
      apply Z.mod_unique with (q := (M / 2 ^ (n + 1)) / 2); [left|];
        revert D1 B1 D2 B2;
        generalize (M / 2 ^ (n + 1) / 2) ((M / 2 ^ (n + 1)) mod 2)
                   (M mod 2 ^ (n + 1)) (M / 2 ^ (n + 1)) (2 ^ (n + 1));
        intros; nia. }
    rewrite E, <- T.
    destruct (Z.testbit M (n + 1)); cbn [Z.b2z orb].
    - destruct (Z.eqb_spec (2 ^ (n + 1) * 1 + M mod 2 ^ (n + 1)) 0); [nia | reflexivity].
    - rewrite Z.mul_0_r, Z.add_0_l. reflexivity. }
  rewrite Q2, B, S. cbn [shr_1].
  destruct q as [|p|p]; [reflexivity| |lia].
  destruct p as [p|p|]; cbn [Z.odd].
  - replace (Z.pos p~1 / 2) with (Z.pos p)
      by (apply Z.div_unique with (r := 1); lia).
    reflexivity.
  - replace (Z.pos p~0 / 2) with (Z.pos p)
      by (apply Z.div_unique with (r := 0); lia).
    reflexivity.
  - reflexivity.
Qed.

Lemma iter_shr_1 M k : forall n,
  0 <= M -> 0 <= n ->
  Nat.iter k shr_1 (record_at M n) = record_at M (n + Z.of_nat k).
Proof.
  induction k as [|k IH]; intros n HM Hn.
  - simpl. now rewrite Z.add_0_r.
  - change (Nat.iter (S k) shr_1 (record_at M n))
      with (shr_1 (Nat.iter k shr_1 (record_at M n))).
    rewrite IH, shr_1_record_at by lia.
    f_equal. lia.
Qed.

Lemma shr_record_at m l e n :
  0 <= m -> 0 <= n ->
  shr (shr_record_of_loc m l) e n = (record_at (extended m l) n, e + n).
Proof.
  intros Hm Hn. unfold shr. destruct n as [|p|p]; [| |lia].
  - now rewrite record_at_0, Z.add_0_r.
  - rewrite iter_pos_nat, <- record_at_0.
    rewrite iter_shr_1;
      [|unfold extended; destruct l as [|[]]; cbn [loc_bits]; lia | lia].
    rewrite positive_nat_Z. reflexivity.
Qed.

(** *** Rounding a located mantissa to the format *)

Lemma extended_div m l n :
  0 <= n -> extended m l / 2 ^ (n + 2) = m / 2 ^ n.
Proof.
  intros Hn. unfold extended.
  assert (Hc : 0 <= loc_bits l < 4) by (destruct l as [|[]]; cbn [loc_bits]; lia).
  rewrite (Z.add_comm n 2), Z.pow_add_r by lia.
  rewrite <- Z.div_div by (try apply Z.pow_pos_nonneg; lia).
  now destruct (extended_low m (loc_bits l) Hc) as [-> _].
Qed.

Lemma extended_round_bit m l n :
  0 <= n -> m mod 2 ^ n = 0 -> l = loc_Exact ->
  Z.testbit (extended m l) (n + 1) = false.
Proof.
  intros Hn Hm ->. unfold extended. cbn [loc_bits].
  pose proof (Z.div_mod m (2 ^ n) ltac:(apply Z.pow_nonzero; lia)) as D.
  rewrite Hm, Z.add_0_r in D.
  replace (4 * m + 0) with (m / 2 ^ n * 2 ^ (n + 2)).
  - apply Z.mul_pow2_bits_low. lia.
  - rewrite (Z.add_comm n 2), Z.pow_add_r by lia. change (2 ^ 2) with 4. lia.
Qed.

Lemma mantissa_bounds mx n :
  0 <= n -> 2 ^ (n + 52) <= mx < 2 ^ (n + 53) ->
  2 ^ 52 <= mx / 2 ^ n < 2 ^ 53.
Proof.
  intros Hn [L U].
  rewrite Z.pow_add_r in L, U by lia.
  pose proof (Z.pow_pos_nonneg 2 n ltac:(lia) Hn) as P.
  split; [apply Z.div_le_lower_bound | apply Z.div_lt_upper_bound]; lia.
Qed.

(** The result of [binary_round_aux] away from underflow and overflow: the
    mantissa cut to 53 digits, possibly one more, renormalised when the
    increment carries. *)
Lemma binary_round_aux_normal sx mx ex lx :
  0 < mx ->
  53 <= Zdigits2 mx ->
  -1074 <= Zdigits2 mx + ex - 53 ->
  Zdigits2 mx + ex <= 1023 ->
  let n := Zdigits2 mx - 53 in
  let m1 := mx / 2 ^ n in
  2 ^ 52 <= m1 < 2 ^ 53 /\
  exists m2,
    (m2 = m1 \/ (m2 = m1 + 1 /\ (mx mod 2 ^ n <> 0 \/ lx <> loc_Exact))) /\
    binary_round_aux prec emax sx mx ex lx
    = if m2 <? 2 ^ 53 then S754_finite sx (Z.to_pos m2) (ex + n)
      else S754_finite sx (Z.to_pos (2 ^ 52)) (ex + n + 1).
Proof.
  intros Hm Hd Hlo Hhi n m1.
  assert (Hn : 0 <= n) by (unfold n; lia).
  pose proof (Zdigits2_bounds mx Hm) as DB.
  assert (MB : 2 ^ 52 <= m1 < 2 ^ 53).
  { apply mantissa_bounds; [exact Hn|].
    replace (n + 52) with (Zdigits2 mx - 1) by (unfold n; lia).
    replace (n + 53) with (Zdigits2 mx) by (unfold n; lia). exact DB. }
  split; [exact MB|].
  unfold binary_round_aux, shr_fexp.
  assert (F1 : fexp prec emax (Zdigits2 mx + ex) - ex = n).
  { unfold fexp, emin, prec, emax, n. lia. }
  rewrite F1, shr_record_at by lia.
  set (R := record_at (extended mx lx) n).
  assert (RM : shr_m R = m1).
  { unfold R, record_at. cbn [shr_m]. now apply extended_div. }
  set (m2 := round_nearest_even (shr_m R) (loc_of_shr_record R)).
  assert (C : m2 = m1 \/ (m2 = m1 + 1 /\ shr_r R = true)).
  { unfold m2. rewrite RM. destruct R as [m r s]. cbn [loc_of_shr_record shr_r].
    destruct r, s; cbn [round_nearest_even]; auto.
    destruct (Z.even m1); auto. }
  exists m2. split.
  - destruct C as [C|[C T]]; [now left|]. right. split; [exact C|].
    destruct (Z.eq_dec (mx mod 2 ^ n) 0) as [Z0|N0]; [|now left].
    right. intros LE.
    unfold R, record_at in T. cbn [shr_r] in T.
    rewrite (extended_round_bit mx lx n Hn Z0 LE) in T. discriminate.
  - assert (M2 : 2 ^ 52 <= m2 <= 2 ^ 53) by lia.
    destruct (Z.ltb_spec m2 (2 ^ 53)) as [LT|GE].
    + assert (D2 : Zdigits2 m2 = 53)
        by (apply Zdigits2_unique; [lia | change (53 - 1) with 52; lia]).
      assert (F2 : fexp prec emax (Zdigits2 m2 + (ex + n)) - (ex + n) = 0).
      { rewrite D2. unfold fexp, emin, prec, emax. unfold n. lia. }
      rewrite F2. cbn [shr shr_record_of_loc shr_m].
      destruct m2 as [|p|p]; try lia.
      destruct (Z.leb_spec (ex + n) (emax - prec)) as [_|B];
        [reflexivity | unfold emax, prec, n in B; lia].
    + assert (E2 : m2 = 2 ^ 53) by lia. rewrite E2.
      change (Zdigits2 (2 ^ 53)) with 54.
      assert (F2 : fexp prec emax (54 + (ex + n)) - (ex + n) = 1).
      { unfold fexp, emin, prec, emax. unfold n. lia. }
      rewrite F2.
      change (shr (shr_record_of_loc (2 ^ 53) loc_Exact) (ex + n) 1)
        with ({| shr_m := 2 ^ 52; shr_r := false; shr_s := false |}, ex + n + 1).
      cbn [shr_m]. change (2 ^ 52) with (Z.pos (Z.to_pos (2 ^ 52))) at 1.
      cbv iota.
      destruct (Z.leb_spec (ex + n + 1) (emax - prec)) as [_|B];
        [reflexivity | unfold emax, prec, n in B; lia].
Qed.

(** *** The real value of a double *)

Local Open Scope R_scope.

Lemma bpow_pos e : 0 < bpow e.
Proof. apply powerRZ_lt. lra. Qed.

Lemma bpow_add a b : bpow (a + b) = bpow a * bpow b.
Proof. apply powerRZ_add. lra. Qed.

Lemma bpow_IZR e : (0 <= e)%Z -> bpow e = IZR (2 ^ e).
Proof.
  intros He. unfold bpow. destruct e as [|p|p]; [reflexivity| |lia].
  symmetry. apply (Zpower_pos_powerRZ 2 p).
Qed.

Lemma bpow_le a b : (a <= b)%Z -> bpow a <= bpow b.
Proof.
  intros H. replace b with (a + (b - a))%Z by lia.
  rewrite bpow_add, (bpow_IZR (b - a)) by lia.
  pose proof (bpow_pos a) as P.
  assert (1 <= IZR (2 ^ (b - a))).
  { apply IZR_le. pose proof (Z.pow_pos_nonneg 2 (b - a)). lia. }
  nra.
Qed.

Lemma bpow_lt a b : (a < b)%Z -> bpow a < bpow b.
Proof.
  intros H. replace b with (a + (b - a))%Z by lia.
  rewrite bpow_add, (bpow_IZR (b - a)) by lia.
  pose proof (bpow_pos a) as P.
  assert (2 <= IZR (2 ^ (b - a))).
  { apply IZR_le. replace (b - a)%Z with (Z.succ (b - a - 1)) by lia.
    rewrite Z.pow_succ_r by lia.
    pose proof (Z.pow_pos_nonneg 2 (b - a - 1)). lia. }
  nra.
Qed.

Lemma bpow_lt_inv a b : bpow a < bpow b -> (a < b)%Z.
Proof.
  intros H. destruct (Z_lt_le_dec a b) as [L|L]; [exact L|].
  apply bpow_le in L. lra.
Qed.

(** ** Faithful rounding

    [d] is a positive normal double next to the positive real [x]: with
    [m1 * 2 ^ e1] the 53-digit truncation of [x], [d] is that number or the
    next one up, and the next one up only when [x] lies strictly above. *)

Lemma binary_round_aux_faithful mx ex lx x :
  (0 < mx)%Z ->
  (53 <= Zdigits2 mx)%Z ->
  (-1074 <= Zdigits2 mx + ex - 53)%Z ->
  (Zdigits2 mx + ex <= 1023)%Z ->
  IZR mx * bpow ex <= x < IZR (mx + 1) * bpow ex ->
  (lx <> loc_Exact -> IZR mx * bpow ex < x) ->
  faithful x (binary_round_aux prec emax false mx ex lx).
Proof.
  intros Hm Hd Hlo Hhi [XL XU] XS.
  destruct (binary_round_aux_normal false mx ex lx Hm Hd Hlo Hhi)
    as [MB (m2 & C & E)].
  set (n := (Zdigits2 mx - 53)%Z) in *.
  set (m1 := (mx / 2 ^ n)%Z) in *.
  assert (Hn : (0 <= n)%Z) by (unfold n; lia).
  pose proof (Z.div_mod mx (2 ^ n) ltac:(apply Z.pow_nonzero; lia)) as D.
  pose proof (Z.mod_pos_bound mx (2 ^ n) ltac:(apply Z.pow_pos_nonneg; lia)) as B.
  fold m1 in D.
  pose proof (bpow_pos ex) as Pex.
  assert (BE : bpow (ex + n) = bpow ex * IZR (2 ^ n))
    by (now rewrite bpow_add, (bpow_IZR n)).
  assert (X1 : IZR m1 * bpow (ex + n) <= x).
  { rewrite BE. apply Rle_trans with (2 := XL).
    replace (IZR m1 * (bpow ex * IZR (2 ^ n))) with (IZR (m1 * 2 ^ n) * bpow ex)
      by (rewrite mult_IZR; ring).
    apply Rmult_le_compat_r; [lra|]. apply IZR_le. lia. }
  assert (X2 : x < IZR (m1 + 1) * bpow (ex + n)).
  { rewrite BE. apply Rlt_le_trans with (1 := XU).
    replace (IZR (m1 + 1) * (bpow ex * IZR (2 ^ n)))
      with (IZR ((m1 + 1) * 2 ^ n) * bpow ex) by (rewrite mult_IZR; ring).
    apply Rmult_le_compat_r; [lra|]. apply IZR_le. lia. }
  assert (X3 : (mx mod 2 ^ n <> 0)%Z \/ lx <> loc_Exact ->
               IZR m1 * bpow (ex + n) < x).
  { intros [N|N].
    - rewrite BE. apply Rlt_le_trans with (2 := XL).
      replace (IZR m1 * (bpow ex * IZR (2 ^ n))) with (IZR (m1 * 2 ^ n) * bpow ex)
        by (rewrite mult_IZR; ring).
      apply Rmult_lt_compat_r; [lra|]. apply IZR_lt. lia.
    - apply Rle_lt_trans with (2 := XS N).
      rewrite BE.
      replace (IZR m1 * (bpow ex * IZR (2 ^ n))) with (IZR (m1 * 2 ^ n) * bpow ex)
        by (rewrite mult_IZR; ring).
      apply Rmult_le_compat_r; [lra|]. apply IZR_le. lia. }
  destruct (Z.ltb_spec m2 (2 ^ 53)) as [LT|GE].
  - exists (Z.to_pos m2), (ex + n)%Z, m1, (ex + n)%Z.
    assert (P2 : Z.pos (Z.to_pos m2) = m2) by (apply Z2Pos.id; lia).
    rewrite E. cbn [SF2R]. rewrite P2.
    repeat split; try lia; try assumption.
    destruct C as [->|[-> N]]; [now left | right; auto].
  - assert (E2 : m2 = (m1 + 1)%Z /\ m1 = (2 ^ 53 - 1)%Z) by lia.
    destruct E2 as [E2 E1]. destruct C as [C|[_ N]]; [lia|].
    exists (Z.to_pos (2 ^ 52)), (ex + n + 1)%Z, m1, (ex + n)%Z.
    rewrite E. cbn [SF2R].
    repeat split; try lia; try assumption.
    right. split; [|auto].
    rewrite E1, bpow_add.
    replace (bpow 1) with 2 by (unfold bpow; simpl; lra).
    change (IZR (Z.pos (Z.to_pos (2 ^ 52)))) with (IZR (2 ^ 52)).
    replace (IZR (2 ^ 53 - 1 + 1)) with (IZR (2 ^ 52) * 2)
      by (rewrite <- mult_IZR; reflexivity).
    ring.
Qed.

Lemma faithful_finite x d : faithful x d -> is_finite d = true.
Proof. intros (m & e & m1 & e1 & -> & _). reflexivity. Qed.

Lemma faithful_value x d :
  faithful x d ->
  exists m1 e1,
    (2 ^ 52 <= m1 < 2 ^ 53)%Z /\
    IZR m1 * bpow e1 <= x < IZR (m1 + 1) * bpow e1 /\
    IZR m1 * bpow e1 <= SF2R d <= IZR (m1 + 1) * bpow e1 /\
    (SF2R d = IZR m1 * bpow e1 \/ IZR m1 * bpow e1 < x).
Proof.
  intros (m & e & m1 & e1 & -> & _ & M1 & _ & X & C).
  exists m1, e1. pose proof (bpow_pos e1) as P.
  assert (IZR m1 < IZR (m1 + 1)) by (apply IZR_lt; lia).
  repeat split; try lia; try apply X;
    destruct C as [C|[C L]]; rewrite ?C; try nra; auto.
Qed.

Lemma faithful_pos x d : faithful x d -> 0 < SF2R d /\ 0 < x.
Proof.
  intros F. destruct (faithful_value x d F) as (m1 & e1 & M1 & X & V & _).
  pose proof (bpow_pos e1) as P.
  assert (1 <= IZR m1).
  { apply IZR_le. pose proof (Z.pow_pos_nonneg 2 52). lia. }
  split; nra.
Qed.

(** A representable number [j * 2 ^ g] with [j] below [2 ^ 53] sits on the
    grid of every finer exponent. *)
Lemma on_grid j g e1 :
  (e1 <= g)%Z -> IZR j * bpow g = IZR (j * 2 ^ (g - e1)) * bpow e1.
Proof.
  intros H. replace g with (e1 + (g - e1))%Z at 1 by lia.
  rewrite bpow_add, (bpow_IZR (g - e1)), mult_IZR by lia. ring.
Qed.

Lemma off_grid j g m1 e1 :
  (0 < j < 2 ^ 53)%Z -> (2 ^ 52 <= m1)%Z -> (g < e1)%Z ->
  IZR j * bpow g < IZR m1 * bpow e1.
Proof.
  intros J M G.
  pose proof (bpow_pos g) as Pg. pose proof (bpow_pos e1) as Pe.
  assert (B : bpow (g + 1) <= bpow e1) by (apply bpow_le; lia).
  rewrite bpow_add in B.
  replace (bpow 1) with 2 in B by (unfold bpow; simpl; lra).
  assert (IZR j < IZR (2 ^ 53)) by (apply IZR_lt; lia).
  assert (IZR (2 ^ 52) <= IZR m1) by (apply IZR_le; lia).
  assert (IZR (2 ^ 53) = 2 * IZR (2 ^ 52)) by (rewrite <- mult_IZR; reflexivity).
  assert (0 < IZR (2 ^ 52)) by (apply IZR_lt; reflexivity).
  apply Rlt_le_trans with (IZR (2 ^ 53) * bpow g); [nra|].
  apply Rle_trans with (IZR (2 ^ 52) * bpow e1); nra.
Qed.

(** Rounding never crosses a representable number. *)
Lemma faithful_upper x d j g :
  faithful x d -> (0 < j < 2 ^ 53)%Z ->
  x <= IZR j * bpow g -> SF2R d <= IZR j * bpow g.
Proof.
  intros F J U. destruct (faithful_value x d F) as (m1 & e1 & M1 & X & V & C).
  pose proof (bpow_pos e1) as P.
  destruct (Z_le_gt_dec e1 g) as [G|G].
  - rewrite (on_grid j g e1 G) in *.
    destruct C as [C|C]; [lra|].
    assert (L : IZR m1 < IZR (j * 2 ^ (g - e1))) by nra.
    apply lt_IZR in L.
    assert (IZR (m1 + 1) <= IZR (j * 2 ^ (g - e1))) by (apply IZR_le; lia).
    nra.
  - pose proof (off_grid j g m1 e1 J (proj1 M1) ltac:(lia)). lra.
Qed.

Lemma faithful_lower x d j g :
  faithful x d -> (0 < j < 2 ^ 53)%Z ->
  IZR j * bpow g <= x -> IZR j * bpow g <= SF2R d.
Proof.
  intros F J L. destruct (faithful_value x d F) as (m1 & e1 & M1 & X & V & C).
  pose proof (bpow_pos e1) as P.
  destruct (Z_le_gt_dec e1 g) as [G|G].
  - rewrite (on_grid j g e1 G) in *.
    assert (K : IZR (j * 2 ^ (g - e1)) < IZR (m1 + 1)) by nra.
    apply lt_IZR in K.
    assert (IZR (j * 2 ^ (g - e1)) <= IZR m1) by (apply IZR_le; lia).
    nra.
  - pose proof (off_grid j g m1 e1 J (proj1 M1) ltac:(lia)). lra.
Qed.

Lemma faithful_exact x d j g :
  faithful x d -> (0 < j < 2 ^ 53)%Z -> x = IZR j * bpow g -> SF2R d = x.
Proof.
  intros F J E. apply Rle_antisym.
  - rewrite E. apply (faithful_upper x d j g F J). lra.
  - rewrite E. apply (faithful_lower x d j g F J). lra.
Qed.

(** The exponent of the result follows the magnitude of [x]. *)
Lemma faithful_exponent x m e a b :
  faithful x (S754_finite false m e) ->
  bpow a <= x < bpow b ->
  (2 ^ 52 <= Z.pos m < 2 ^ 53)%Z /\ (a - 52 <= e <= b - 52)%Z.
Proof.
  intros (m' & e' & m1 & e1 & E & M & M1 & EE & X & _) [A B].
  inversion E; subst m' e'; clear E. split; [exact M|].
  pose proof (bpow_pos e1) as P.
  assert (U : x < bpow (e1 + 53)).
  { rewrite bpow_add, (bpow_IZR 53) by lia.
    assert (IZR (m1 + 1) <= IZR (2 ^ 53)) by (apply IZR_le; lia). nra. }
  assert (L : bpow (e1 + 52) <= x).
  { rewrite bpow_add, (bpow_IZR 52) by lia.
    assert (IZR (2 ^ 52) <= IZR m1) by (apply IZR_le; lia). nra. }
  assert (a < e1 + 53)%Z by (apply bpow_lt_inv; lra).
  assert (e1 + 52 < b)%Z by (apply bpow_lt_inv; lra).
  lia.
Qed.

Lemma faithful_shape x d :
  faithful x d ->
  exists m e, d = S754_finite false m e /\ (2 ^ 52 <= Z.pos m < 2 ^ 53)%Z.
Proof.
  intros (m & e & m1 & e1 & E & M & _). exists m, e. split; assumption.
Qed.

(** *** The three operations of the source *)

Lemma Zdigits2_range mx a b :
  (0 <= a)%Z -> (2 ^ a <= mx < 2 ^ b)%Z -> (a + 1 <= Zdigits2 mx <= b)%Z.
Proof.
  intros Ha [L U].
  assert (P : (0 < mx)%Z) by (pose proof (Z.pow_pos_nonneg 2 a); lia).
  pose proof (Zdigits2_bounds mx P) as [L' U'].
  assert (D : (0 < Zdigits2 mx)%Z) by (destruct mx; simpl; lia).
  split.
  - destruct (Z_lt_le_dec a (Zdigits2 mx)) as [C|C]; [lia|].
    assert (2 ^ Zdigits2 mx <= 2 ^ a)%Z by (apply Z.pow_le_mono_r; lia). lia.
  - destruct (Z_le_gt_dec (Zdigits2 mx) b) as [C|C]; [lia|].
    assert (0 <= b)%Z.
    { destruct (Z_lt_le_dec b 0) as [N|N]; [|exact N].
      rewrite (Z.pow_neg_r 2 b N) in U. lia. }
    assert (2 ^ b <= 2 ^ (Zdigits2 mx - 1))%Z by (apply Z.pow_le_mono_r; lia).
    lia.
Qed.

Lemma shift_pos_value p q : Z.pos (Pos.iter xO p q) = (Z.pos p * 2 ^ Z.pos q)%Z.
Proof.
  change (Pos.iter xO p q) with (shift_pos q p).
  rewrite shift_pos_correct. change (Zpower_pos 2 q) with (2 ^ Z.pos q)%Z. lia.
Qed.

(** [static_cast<double>(n)] rounds [n] faithfully. *)
Lemma of_u64_faithful n :
  (0 < n < 2 ^ 64)%Z -> faithful (IZR n) (of_u64 n).
Proof.
  intros [Hn Hu]. destruct n as [|p|p]; try lia.
  unfold of_u64, binary_normalize, binary_round, shl_align.
  pose proof (digits2_pos_bounds p) as DB.
  set (d := Z.pos (digits2_pos p)) in *.
  assert (D64 : (1 <= d <= 64)%Z).
  { split; [unfold d; lia|].
    destruct (Z_le_gt_dec d 64) as [C|C]; [exact C|].
    assert (2 ^ 64 <= 2 ^ (d - 1))%Z by (apply Z.pow_le_mono_r; lia). lia. }
  assert (FE : fexp prec emax (d + 0) = (d - 53)%Z)
    by (unfold fexp, emin, prec, emax; lia).
  rewrite FE.
  destruct (d - 53 - 0)%Z as [|q|q] eqn:EQ.
  - apply binary_round_aux_faithful; cbn [Zdigits2]; fold d; try lia.
    + change (bpow 0) with 1. rewrite !Rmult_1_r.
      split; [lra|]. apply IZR_lt. lia.
    + intros N. now contradiction N.
  - apply binary_round_aux_faithful; cbn [Zdigits2]; fold d; try lia.
    + change (bpow 0) with 1. rewrite !Rmult_1_r.
      split; [lra|]. apply IZR_lt. lia.
    + intros N. now contradiction N.
  - assert (Q : Z.pos q = (53 - d)%Z) by lia.
    assert (V : Z.pos (Pos.iter xO p q) = (Z.pos p * 2 ^ Z.pos q)%Z)
      by apply shift_pos_value.
    assert (P2 : (2 ^ (d - 1) * 2 ^ Z.pos q = 2 ^ 52)%Z)
      by (rewrite <- Z.pow_add_r by lia; f_equal; lia).
    assert (P3 : (2 ^ d * 2 ^ Z.pos q = 2 ^ 53)%Z)
      by (rewrite <- Z.pow_add_r by lia; f_equal; lia).
    pose proof (Z.pow_pos_nonneg 2 (Z.pos q) ltac:(lia) ltac:(lia)) as PQ.
    assert (DG : Zdigits2 (Z.pos (Pos.iter xO p q)) = 53%Z).
    { apply Zdigits2_unique; [lia|]. change (53 - 1)%Z with 52%Z.
      rewrite V. nia. }
    assert (XV : IZR (Z.pos (Pos.iter xO p q)) * bpow (d - 53) = IZR (Z.pos p)).
    { rewrite V, mult_IZR, <- (bpow_IZR (Z.pos q)) by lia.
      rewrite Rmult_assoc, <- bpow_add.
      replace (Z.pos q + (d - 53))%Z with 0%Z by lia.
      unfold bpow. simpl. ring. }
    apply binary_round_aux_faithful; rewrite ?DG; try lia.
    + rewrite plus_IZR, Rmult_plus_distr_r, XV.
      pose proof (bpow_pos (d - 53)). lra.
    + intros N. now contradiction N.
Qed.

Lemma mul_faithful m1 e1 m2 e2 :
  (2 ^ 52 <= Z.pos m1 < 2 ^ 53)%Z -> (2 ^ 52 <= Z.pos m2 < 2 ^ 53)%Z ->
  (-1126 <= e1 + e2 <= 917)%Z ->
  faithful (SF2R (S754_finite false m1 e1) * SF2R (S754_finite false m2 e2))
           (mul (S754_finite false m1 e1) (S754_finite false m2 e2)).
Proof.
  intros M1 M2 E.
  change (mul (S754_finite false m1 e1) (S754_finite false m2 e2))
    with (binary_round_aux prec emax false (Z.pos (m1 * m2)) (e1 + e2) loc_Exact).
  assert (B : (2 ^ 104 <= Z.pos (m1 * m2) < 2 ^ 106)%Z).
  { rewrite Pos2Z.inj_mul.
    change (2 ^ 104)%Z with (2 ^ 52 * 2 ^ 52)%Z.
    change (2 ^ 106)%Z with (2 ^ 53 * 2 ^ 53)%Z. nia. }
  pose proof (Zdigits2_range _ 104 106 ltac:(lia) B) as DG.
  assert (XV : SF2R (S754_finite false m1 e1) * SF2R (S754_finite false m2 e2)
               = IZR (Z.pos (m1 * m2)) * bpow (e1 + e2)).
  { cbn [SF2R]. rewrite Pos2Z.inj_mul, mult_IZR, bpow_add. ring. }
  apply binary_round_aux_faithful; try lia.
  - rewrite XV, plus_IZR, Rmult_plus_distr_r.
    pose proof (bpow_pos (e1 + e2)). lra.
  - intros N. now contradiction N.
Qed.

Lemma new_location_exact m r : new_location m r <> loc_Exact -> r <> 0%Z.
Proof.
  unfold new_location, new_location_even, new_location_odd.
  intros N ->. destruct (Z.even m); now apply N.
Qed.

Lemma div_faithful m1 e1 m2 e2 :
  (2 ^ 52 <= Z.pos m1 < 2 ^ 53)%Z -> (2 ^ 52 <= Z.pos m2 < 2 ^ 53)%Z ->
  (-1021 <= e1 - e2 <= 1022)%Z ->
  faithful (SF2R (S754_finite false m1 e1) / SF2R (S754_finite false m2 e2))
           (div (S754_finite false m1 e1) (S754_finite false m2 e2)).
Proof.
  intros M1 M2 E.
  unfold div, SFdiv, SFdiv_core_binary.
  assert (D1 : Zdigits2 (Z.pos m1) = 53%Z)
    by (apply Zdigits2_unique; [lia | change (53 - 1)%Z with 52%Z; lia]).
  assert (D2 : Zdigits2 (Z.pos m2) = 53%Z)
    by (apply Zdigits2_unique; [lia | change (53 - 1)%Z with 52%Z; lia]).
  rewrite D1, D2.
  assert (E' : Z.min (fexp prec emax (53 + e1 - (53 + e2))) (e1 - e2)
               = (e1 - e2 - 53)%Z)
    by (unfold fexp, emin, prec, emax; lia).
  rewrite E'.
  replace (e1 - e2 - (e1 - e2 - 53))%Z with 53%Z by lia.
  cbv iota. rewrite Z.shiftl_mul_pow2 by lia.
  pose proof (Z_div_mod (Z.pos m1 * 2 ^ 53) (Z.pos m2) ltac:(lia)) as DM.
  destruct (Z.div_eucl (Z.pos m1 * 2 ^ 53) (Z.pos m2)) as [q r].
  destruct DM as [DM RB]. cbn [xorb].
  assert (QB : (2 ^ 52 <= q < 2 ^ 54)%Z).
  { change (2 ^ 54)%Z with (2 * 2 ^ 53)%Z. change (2 ^ 53)%Z with (2 * 2 ^ 52)%Z in *.
    revert DM RB M1 M2. generalize (2 ^ 52)%Z. intros; nia. }
  pose proof (Zdigits2_range q 52 54 ltac:(lia) QB) as DG.
  pose proof (bpow_pos e1) as P1. pose proof (bpow_pos e2) as P2.
  pose proof (bpow_pos (e1 - e2 - 53)) as P3.
  assert (I2 : 0 < IZR (Z.pos m2)) by (apply IZR_lt; lia).
  assert (BE : bpow e1 = bpow (e1 - e2 - 53) * IZR (2 ^ 53) * bpow e2).
  { rewrite <- (bpow_IZR 53), <- !bpow_add by lia. f_equal. lia. }
  assert (XV : SF2R (S754_finite false m1 e1) / SF2R (S754_finite false m2 e2)
               = (IZR q + IZR r / IZR (Z.pos m2)) * bpow (e1 - e2 - 53)).
  { cbn [SF2R]. rewrite BE.
    replace (IZR (Z.pos m1) * (bpow (e1 - e2 - 53) * IZR (2 ^ 53) * bpow e2))
      with (IZR (Z.pos m1 * 2 ^ 53) * bpow (e1 - e2 - 53) * bpow e2)
      by (rewrite mult_IZR; ring).
    rewrite DM, plus_IZR, mult_IZR. field. lra. }
  assert (R0 : 0 <= IZR r / IZR (Z.pos m2) < 1).
  { assert (0 <= IZR r) by (apply IZR_le; lia).
    assert (IZR r < IZR (Z.pos m2)) by (apply IZR_lt; lia).
    split.
    - apply Rmult_le_pos; [lra|]. apply Rlt_le, Rinv_0_lt_compat; lra.
    - apply (Rmult_lt_reg_r (IZR (Z.pos m2))); [lra|].
      unfold Rdiv. rewrite Rmult_assoc, Rinv_l by lra. lra. }
  apply binary_round_aux_faithful; try lia.
  - rewrite XV, plus_IZR. nra.
  - intros N. apply new_location_exact in N. rewrite XV.
    assert (0 < IZR r) by (apply IZR_lt; lia).
    assert (0 < IZR r / IZR (Z.pos m2))
      by (apply Rmult_lt_0_compat; [lra | apply Rinv_0_lt_compat; lra]).
    nra.
Qed.

(** *** Comparison of normal doubles *)

Lemma leb_of_Rle m1 e1 m2 e2 :
  (2 ^ 52 <= Z.pos m1 < 2 ^ 53)%Z -> (2 ^ 52 <= Z.pos m2 < 2 ^ 53)%Z ->
  SF2R (S754_finite false m1 e1) <= SF2R (S754_finite false m2 e2) ->
  leb (S754_finite false m1 e1) (S754_finite false m2 e2) = true.
Proof.
  intros M1 M2 V. cbn [SF2R] in V.
  unfold leb, SFleb, SFcompare.
  destruct (Z.compare_spec e1 e2) as [E|E|E].
  - subst e2. rewrite Pos.compare_cont_spec. cbn [Pos.switch_Eq].
    destruct (Pos.compare_spec m1 m2) as [C|C|C]; try reflexivity.
    exfalso. pose proof (bpow_pos e1) as P.
    assert (IZR (Z.pos m2) < IZR (Z.pos m1)) by (apply IZR_lt; lia). nra.
  - reflexivity.
  - exfalso.
    pose proof (off_grid (Z.pos m2) e2 (Z.pos m1) e1 ltac:(lia) ltac:(lia) E).
    lra.
Qed.

(** *** The constants *)

Lemma hundred_eq : hundred = S754_finite false 7036874417766400 (-46).
Proof. vm_compute. reflexivity. Qed.

Lemma hundred_value : SF2R hundred = 100.
Proof.
  rewrite hundred_eq. cbn [SF2R].
  change 7036874417766400%Z with (25 * 2 ^ 48)%Z.
  rewrite mult_IZR, <- (bpow_IZR 48), Rmult_assoc, <- bpow_add by lia.
  change (48 + -46)%Z with 2%Z. rewrite (bpow_IZR 2) by lia.
  change (2 ^ 2)%Z with 4%Z. lra.
Qed.

Lemma mebi_eq : mul kibi kibi = S754_finite false 4503599627370496 (-32).
Proof. vm_compute. reflexivity. Qed.

Lemma mebi_value : SF2R (mul kibi kibi) = 1048576.
Proof.
  rewrite mebi_eq. cbn [SF2R].
  change 4503599627370496%Z with (2 ^ 52)%Z.
  rewrite <- (bpow_IZR 52), <- bpow_add by lia.
  change (52 + -32)%Z with 20%Z. rewrite (bpow_IZR 20) by lia.
  change (2 ^ 20)%Z with 1048576%Z. reflexivity.
Qed.

(** *** Conversion of a count *)

Lemma of_u64_shape n :
  (0 < n < 2 ^ 64)%Z ->
  exists m e,
    of_u64 n = S754_finite false m e /\
    (2 ^ 52 <= Z.pos m < 2 ^ 53)%Z /\ (-52 <= e <= 12)%Z /\
    1 <= SF2R (of_u64 n) <= IZR (2 ^ 64) /\
    ((n < 2 ^ 53)%Z -> SF2R (of_u64 n) = IZR n).
Proof.
  intros Hn. pose proof (of_u64_faithful n Hn) as F.
  destruct (faithful_shape _ _ F) as (m & e & E & M).
  exists m, e. split; [exact E|]. split; [exact M|]. rewrite E in F.
  assert (X : bpow 0 <= IZR n < bpow 64).
  { rewrite (bpow_IZR 64) by lia. change (bpow 0) with 1.
    split; [apply IZR_le | apply IZR_lt]; lia. }
  split; [apply (faithful_exponent _ _ _ 0 64 F X)|].
  rewrite E. split; [split|].
  - replace 1 with (IZR 1 * bpow 0) by (change (bpow 0) with 1; lra).
    apply (faithful_lower _ _ 1 0 F); [lia|].
    change (bpow 0) with 1. rewrite Rmult_1_r. apply IZR_le. lia.
  - replace (IZR (2 ^ 64)) with (IZR 1 * bpow 64)
      by (rewrite (bpow_IZR 64) by lia; lra).
    apply (faithful_upper _ _ 1 64 F); [lia|].
    rewrite (bpow_IZR 64) by lia. rewrite Rmult_1_l. apply IZR_le. lia.
  - intros S. apply (faithful_exact _ _ n 0 F); [lia|].
    change (bpow 0) with 1. ring.
Qed.

(** *** The quotient of [compute_cpu_usage] *)

Lemma usage_quotient a t :
  (0 < a < 2 ^ 64)%Z -> (0 < t < 2 ^ 64)%Z ->
  faithful (SF2R (of_u64 a) * 100) (mul (of_u64 a) hundred) /\
  faithful (SF2R (mul (of_u64 a) hundred) / SF2R (of_u64 t))
           (div (mul (of_u64 a) hundred) (of_u64 t)).
Proof.
  intros Ha Ht.
  destruct (of_u64_shape a Ha) as (ma & ea & EA & MA & XA & VA & _).
  destruct (of_u64_shape t Ht) as (mt & et & ET & MT & XT & VT & _).
  assert (FP : faithful (SF2R (of_u64 a) * 100) (mul (of_u64 a) hundred)).
  { rewrite <- hundred_value. rewrite EA, hundred_eq.
    apply mul_faithful; lia. }
  split; [exact FP|].
  destruct (faithful_shape _ _ FP) as (mp & ep & EP & MP).
  rewrite EP in FP.
  assert (XP : bpow 6 <= SF2R (of_u64 a) * 100 < bpow 71).
  { rewrite (bpow_IZR 6), (bpow_IZR 71) by lia.
    change (2 ^ 6)%Z with 64%Z.
    change (2 ^ 71)%Z with (128 * 2 ^ 64)%Z. rewrite mult_IZR.
    assert (0 < IZR (2 ^ 64)) by (apply IZR_lt; reflexivity).
    split; lra. }
  pose proof (faithful_exponent _ _ _ 6 71 FP XP) as [_ XE].
  rewrite EP, ET. apply div_faithful; lia.
Qed.

End DoubleProps.

(** ** [compute_cpu_usage] *)

Lemma usage_zero_active t :
  (0 < t < 2 ^ 64)%Z ->
  Double.div (Double.mul (Double.of_u64 0) Double.hundred) (Double.of_u64 t)
  = Double.zero.
Proof.
  intros Ht.
  destruct (DoubleProps.of_u64_shape t Ht) as (m & e & -> & _).
  rewrite DoubleProps.hundred_eq. reflexivity.
Qed.

Lemma sub_self x : U64.sub x x = 0.
Proof. unfold U64.sub. rewrite Z.sub_diag. reflexivity. Qed.

(** [C2] A zero total delta gives exactly [+0.0], in particular for a
    snapshot compared with itself.  For all snapshots the result is a
    finite double, neither NaN nor infinite, and the division, when it is
    reached, has a divisor that is finite and at least one. *)
Theorem compute_cpu_usage_total :
  (forall prev curr,
     U64.sub (total_ticks curr) (total_ticks prev) = 0 ->
     compute_cpu_usage prev curr = Double.zero) /\
  (forall s, compute_cpu_usage s s = Double.zero) /\
  (forall prev curr, Double.is_finite (compute_cpu_usage prev curr) = true) /\
  (forall prev curr,
     U64.sub (total_ticks curr) (total_ticks prev) <> 0 ->
     Double.is_finite
       (Double.of_u64 (U64.sub (total_ticks curr) (total_ticks prev))) = true /\
     (1 <= DoubleSpec.SF2R
             (Double.of_u64 (U64.sub (total_ticks curr) (total_ticks prev))))%R).
Proof.
  split; [|split; [|split]].
  - intros prev curr E. unfold compute_cpu_usage. now rewrite E.
  - intros s. unfold compute_cpu_usage. now rewrite sub_self.
  - intros prev curr. unfold compute_cpu_usage.
    set (t := U64.sub (total_ticks curr) (total_ticks prev)).
    set (a := U64.sub t (U64.sub (idle_ticks curr) (idle_ticks prev))).
    destruct (Z.eqb_spec t 0) as [E|N]; [reflexivity|].
    assert (Ht : 0 < t < 2 ^ 64)
      by (pose proof (U64Props.wrap_range (total_ticks curr - total_ticks prev));
          unfold U64.in_range, U64.modulus in *; fold t in H; unfold t, U64.sub in *; lia).
    assert (Ha : 0 <= a < 2 ^ 64)
      by (apply (U64Props.wrap_range (t - U64.sub (idle_ticks curr) (idle_ticks prev)))).
    destruct (Z.eq_dec a 0) as [->|Na].
    + now rewrite usage_zero_active.
    + destruct (DoubleProps.usage_quotient a t ltac:(lia) Ht) as [_ F].
      exact (DoubleProps.faithful_finite _ _ F).
  - intros prev curr N.
    set (t := U64.sub (total_ticks curr) (total_ticks prev)) in *.
    assert (Ht : 0 < t < 2 ^ 64)
      by (pose proof (U64Props.wrap_range (total_ticks curr - total_ticks prev));
          unfold U64.in_range, U64.modulus in *; unfold t, U64.sub in *; lia).
    destruct (DoubleProps.of_u64_shape t Ht) as (m & e & E & _ & _ & V & _).
    rewrite E at 1. split; [reflexivity | apply V].
Qed.

Lemma compute_cpu_usage_total_witness :
  compute_cpu_usage {| idle_ticks := 7; total_ticks := 90000 |}
                    {| idle_ticks := 12; total_ticks := 90000 |}
  = Double.zero.
Proof.
  exact (proj1 compute_cpu_usage_total
           {| idle_ticks := 7; total_ticks := 90000 |}
           {| idle_ticks := 12; total_ticks := 90000 |} eq_refl).
Defined.

(** The range fails in two ways.  More idle ticks than total ticks make the
    active delta wrap around.  And with ordered counters and no idle time,
    at the fourth total delta past [2 ^ 53 / 25], the product by one hundred
    is rounded up and the quotient lands one unit in the last place above
    one hundred. *)
Lemma compute_cpu_usage_above_hundred :
  (total_ticks snapshot_zero <= total_ticks snapshot_idle_over_total /\
   idle_ticks snapshot_zero <= idle_ticks snapshot_idle_over_total /\
   Double.leb (compute_cpu_usage snapshot_zero snapshot_idle_over_total)
              Double.hundred = false) /\
  (total_ticks snapshot_zero <= total_ticks snapshot_long_busy /\
   idle_ticks snapshot_zero <= idle_ticks snapshot_long_busy /\
   compute_cpu_usage snapshot_zero snapshot_long_busy
   = S754_finite false 7036874417766401 (-46) /\
   Double.hundred = S754_finite false 7036874417766400 (-46) /\
   Double.leb (compute_cpu_usage snapshot_zero snapshot_long_busy)
              Double.hundred = false).
Proof.
  repeat split; try (vm_compute; reflexivity); vm_compute; discriminate.
Qed.

(** [C1] (as amended) For snapshots with ordered counters whose idle delta
    does not exceed the total delta, and whose total delta is small enough
    for its product by one hundred to be exact in a double
    ([25 * total_delta < 2 ^ 53]), the usage lies between 0 and 100. *)
Theorem compute_cpu_usage_range prev curr :
  total_ticks prev <= total_ticks curr ->
  idle_ticks prev <= idle_ticks curr ->
  idle_ticks curr - idle_ticks prev <= total_ticks curr - total_ticks prev ->
  25 * (total_ticks curr - total_ticks prev) < 2 ^ 53 ->
  Double.leb Double.zero (compute_cpu_usage prev curr) = true /\
  Double.leb (compute_cpu_usage prev curr) Double.hundred = true /\
  (0 <= DoubleSpec.SF2R (compute_cpu_usage prev curr) <= 100)%R.
Proof.
  intros HT HI HD HS. unfold compute_cpu_usage.
  set (td := total_ticks curr - total_ticks prev) in *.
  set (id := idle_ticks curr - idle_ticks prev) in *.
  assert (ET : U64.sub (total_ticks curr) (total_ticks prev) = td)
    by (apply U64Props.wrap_small; unfold U64.in_range, U64.modulus; lia).
  assert (EI : U64.sub (idle_ticks curr) (idle_ticks prev) = id)
    by (apply U64Props.wrap_small; unfold U64.in_range, U64.modulus; lia).
  rewrite ET, EI.
  assert (EA : U64.sub td id = td - id)
    by (apply U64Props.wrap_small; unfold U64.in_range, U64.modulus; lia).
  rewrite EA.
  destruct (Z.eqb_spec td 0) as [E|N].
  { repeat split; try reflexivity; simpl; lra. }
  destruct (Z.eq_dec (td - id) 0) as [Z0|NZ].
  { rewrite Z0, usage_zero_active by lia.
    repeat split; try reflexivity; simpl; lra. }
  set (a := td - id) in *.
  assert (Ha : 0 < a < 2 ^ 64) by lia.
  assert (Ht : 0 < td < 2 ^ 64) by lia.
  destruct (DoubleProps.usage_quotient a td Ha Ht) as [FP FQ].
  destruct (DoubleProps.of_u64_shape a Ha) as (ma & ea & _ & _ & _ & _ & VA).
  destruct (DoubleProps.of_u64_shape td Ht) as (mt & et & _ & _ & _ & _ & VT).
  rewrite VA in FP by lia.
  assert (VP : DoubleSpec.SF2R (Double.mul (Double.of_u64 a) Double.hundred)
               = (IZR a * 100)%R).
  { apply (DoubleProps.faithful_exact _ _ (25 * a) 2 FP); [lia|].
    rewrite (DoubleProps.bpow_IZR 2), mult_IZR by lia.
    change (2 ^ 2) with 4. lra. }
  rewrite VP, VT in FQ by lia.
  assert (Pt : (0 < IZR td)%R) by (apply IZR_lt; lia).
  assert (Lat : (IZR a <= IZR td)%R) by (apply IZR_le; lia).
  assert (H100 : (IZR 25 * DoubleSpec.bpow 2 = 100)%R).
  { rewrite (DoubleProps.bpow_IZR 2) by lia. change (2 ^ 2) with 4. lra. }
  assert (UB : (IZR a * 100 / IZR td <= IZR 25 * DoubleSpec.bpow 2)%R).
  { rewrite H100. apply (Rmult_le_reg_r (IZR td)); [lra|].
    unfold Rdiv. rewrite Rmult_assoc, Rinv_l by lra. nra. }
  pose proof (DoubleProps.faithful_upper _ _ 25 2 FQ ltac:(lia) UB) as U.
  pose proof (DoubleProps.faithful_pos _ _ FQ) as [P _].
  destruct (DoubleProps.faithful_shape _ _ FQ) as (mq & eq & EQ & MQ).
  rewrite EQ in *. split; [reflexivity|]. split.
  - rewrite DoubleProps.hundred_eq. apply DoubleProps.leb_of_Rle; [lia | lia |].
    rewrite <- DoubleProps.hundred_eq, DoubleProps.hundred_value. lra.
  - lra.
Qed.

Lemma compute_cpu_usage_range_witness :
  Double.leb Double.zero
    (compute_cpu_usage {| idle_ticks := 1362405; total_ticks := 1370082 |}
                       {| idle_ticks := 1362480; total_ticks := 1370182 |}) = true /\
  Double.leb
    (compute_cpu_usage {| idle_ticks := 1362405; total_ticks := 1370082 |}
                       {| idle_ticks := 1362480; total_ticks := 1370182 |})
    Double.hundred = true.
Proof.
  pose proof (compute_cpu_usage_range
                {| idle_ticks := 1362405; total_ticks := 1370082 |}
                {| idle_ticks := 1362480; total_ticks := 1370182 |}) as H.
  cbn [idle_ticks total_ticks] in H.
  destruct (H ltac:(lia) ltac:(lia) ltac:(lia) ltac:(lia)) as (A & B & _).
  split; assumption.
Defined.

(** ** Truncation and decimal rendering of a double *)

Module RenderProps.
Import Double DoubleSpec DoubleProps.
Local Open Scope R_scope.

Lemma bpow_neg p : bpow (Z.neg p) * IZR (Z.pow_pos 2 p) = 1.
Proof.
  change (Z.pow_pos 2 p) with (2 ^ Z.pos p)%Z.
  rewrite <- (bpow_IZR (Z.pos p)), <- bpow_add by lia.
  replace (Z.neg p + Z.pos p)%Z with 0%Z by lia. reflexivity.
Qed.

Lemma pow_pos_positive p : (0 < Z.pow_pos 2 p)%Z.
Proof.
  change (Z.pow_pos 2 p) with (2 ^ Z.pos p)%Z. apply Z.pow_pos_nonneg; lia.
Qed.

(** Truncation of a positive double is the floor of its value. *)
Lemma truncate_floor m e :
  (0 <= truncate (S754_finite false m e))%Z /\
  IZR (truncate (S754_finite false m e)) <= SF2R (S754_finite false m e)
    < IZR (truncate (S754_finite false m e)) + 1.
Proof.
  cbn [truncate SF2R]. destruct e as [|p|p].
  - change (2 ^ 0)%Z with 1%Z. change (bpow 0) with 1.
    rewrite Z.mul_1_r, Rmult_1_r. split; [lia | lra].
  - rewrite mult_IZR, <- (bpow_IZR (Z.pos p)) by lia.
    pose proof (Z.pow_pos_nonneg 2 (Z.pos p) ltac:(lia) ltac:(lia)).
    split; [lia | lra].
  - pose proof (pow_pos_positive p) as PP.
    pose proof (Z.div_mod (Z.pos m) (Z.pow_pos 2 p) ltac:(lia)) as D.
    pose proof (Z.mod_pos_bound (Z.pos m) (Z.pow_pos 2 p) PP) as B.
    pose proof (bpow_neg p) as BN. pose proof (bpow_pos (Z.neg p)) as BP.
    assert (I : 0 < IZR (Z.pow_pos 2 p)) by (apply IZR_lt; exact PP).
    set (q := (Z.pos m / Z.pow_pos 2 p)%Z) in *.
    set (r := (Z.pos m mod Z.pow_pos 2 p)%Z) in *.
    assert (Q0 : (0 <= q)%Z) by (apply Z.div_pos; lia).
    assert (E : IZR (Z.pos m) * bpow (Z.neg p)
                = IZR q + IZR r * bpow (Z.neg p)).
    { rewrite D, plus_IZR, mult_IZR.
      replace ((IZR (Z.pow_pos 2 p) * IZR q + IZR r) * bpow (Z.neg p))
        with (IZR q * (bpow (Z.neg p) * IZR (Z.pow_pos 2 p))
              + IZR r * bpow (Z.neg p)) by ring.
      rewrite BN. ring. }
    assert (R0 : 0 <= IZR r) by (apply IZR_le; lia).
    assert (R1 : IZR r < IZR (Z.pow_pos 2 p)) by (apply IZR_lt; lia).
    split; [exact Q0|]. rewrite E. nra.
Qed.

Lemma nearest_even_close num den :
  (0 <= num)%Z -> (0 < den)%Z ->
  (0 <= nearest_even num den)%Z /\
  Rabs (IZR (nearest_even num den) - IZR num / IZR den) <= 1 / 2.
Proof.
  intros Hn Hd. unfold nearest_even.
  pose proof (Z.div_mod num den ltac:(lia)) as D.
  pose proof (Z.mod_pos_bound num den Hd) as B.
  set (q := (num / den)%Z) in *. set (r := (num mod den)%Z) in *.
  assert (Q0 : (0 <= q)%Z) by (apply Z.div_pos; lia).
  assert (I : 0 < IZR den) by (apply IZR_lt; lia).
  assert (R0 : 0 <= IZR r) by (apply IZR_le; lia).
  assert (E : IZR num / IZR den = IZR q + IZR r / IZR den).
  { rewrite D, plus_IZR, mult_IZR. field. lra. }
  assert (F : forall k : R, IZR r / IZR den = k -> k * IZR den = IZR r).
  { intros k <-. field. lra. }
  pose proof (F _ eq_refl) as G. set (f := IZR r / IZR den) in *.
  rewrite E.
  assert (T : forall t : Z,
             (t = q /\ 2 * r <= den)%Z \/ (t = q + 1 /\ den <= 2 * r)%Z ->
             (0 <= t)%Z /\ Rabs (IZR t - (IZR q + f)) <= 1 / 2).
  { intros t [[-> L]|[-> L]]; (split; [lia|]).
    - apply IZR_le in L. rewrite mult_IZR in L.
      replace (IZR q - (IZR q + f)) with (- f) by ring.
      rewrite Rabs_Ropp, Rabs_pos_eq; nra.
    - apply IZR_le in L. rewrite mult_IZR in L.
      assert (IZR r < IZR den) by (apply IZR_lt; lia).
      rewrite plus_IZR.
      replace (IZR q + 1 - (IZR q + f)) with (1 - f) by ring.
      rewrite Rabs_pos_eq; nra. }
  apply T.
  destruct (Z.compare_spec (2 * r) den) as [C|C|C].
  - destruct (Z.even q); [left | right]; lia.
  - left; lia.
  - right; lia.
Qed.

(** The number printed with one fractional digit, in tenths, is within one
    half of ten times the value. *)
Lemma scaled_magnitude_close m e :
  (0 <= scaled_magnitude 1 (S754_finite false m e))%Z /\
  Rabs (IZR (scaled_magnitude 1 (S754_finite false m e))
        - 10 * SF2R (S754_finite false m e)) <= 1 / 2.
Proof.
  cbn [scaled_magnitude SF2R]. change (10 ^ Z.of_nat 1)%Z with 10%Z.
  destruct e as [|p|p].
  - change (2 ^ 0)%Z with 1%Z. change (bpow 0) with 1.
    rewrite Z.mul_1_r, Rmult_1_r, mult_IZR. split; [lia|].
    replace (IZR (Z.pos m) * 10 - 10 * IZR (Z.pos m)) with 0 by ring.
    rewrite Rabs_R0. lra.
  - rewrite !mult_IZR, <- (bpow_IZR (Z.pos p)) by lia.
    pose proof (Z.pow_pos_nonneg 2 (Z.pos p) ltac:(lia) ltac:(lia)).
    split; [lia|].
    replace (IZR (Z.pos m) * 10 * bpow (Z.pos p)
             - 10 * (IZR (Z.pos m) * bpow (Z.pos p))) with 0 by ring.
    rewrite Rabs_R0. lra.
  - pose proof (pow_pos_positive p) as PP.
    destruct (nearest_even_close (Z.pos m * 10) (Z.pow_pos 2 p)
                ltac:(lia) PP) as [N C].
    split; [exact N|].
    replace (10 * (IZR (Z.pos m) * bpow (Z.neg p)))
      with (IZR (Z.pos m * 10) / IZR (Z.pow_pos 2 p)); [exact C|].
    pose proof (bpow_neg p) as BN.
    assert (I : 0 < IZR (Z.pow_pos 2 p)) by (apply IZR_lt; exact PP).
    rewrite mult_IZR.
    apply (Rmult_eq_reg_r (IZR (Z.pow_pos 2 p))); [|lra].
    unfold Rdiv. rewrite Rmult_assoc, Rinv_l by lra.
    replace (10 * (IZR (Z.pos m) * bpow (Z.neg p)) * IZR (Z.pow_pos 2 p))
      with (10 * IZR (Z.pos m) * (bpow (Z.neg p) * IZR (Z.pow_pos 2 p))) by ring.
    rewrite BN. ring.
Qed.

Lemma fixed_one_digit m e :
  fixed 1 (S754_finite false m e)
  = dec (scaled_magnitude 1 (S754_finite false m e) / 10) ++ "." ++
    String (digit_char (scaled_magnitude 1 (S754_finite false m e) mod 10)) "".
Proof.
  unfold fixed. cbn [sign_bit]. change (10 ^ Z.of_nat 1)%Z with 10%Z.
  set (t := scaled_magnitude 1 (S754_finite false m e)).
  rewrite (dec_one_digit (t mod 10)) by (apply Z.mod_pos_bound; lia).
  reflexivity.
Qed.

(** The quotient by [1024.0 * 1024.0] is exact. *)
Lemma mib_exact n :
  (0 < n < 2 ^ 64)%Z ->
  exists m e,
    div (of_u64 n) (mul kibi kibi) = S754_finite false m e /\
    SF2R (S754_finite false m e) = SF2R (of_u64 n) / 1048576.
Proof.
  intros Hn.
  destruct (of_u64_shape n Hn) as (ma & ea & EA & MA & XA & _).
  assert (F : faithful (SF2R (of_u64 n) / SF2R (mul kibi kibi))
                       (div (of_u64 n) (mul kibi kibi))).
  { rewrite EA, mebi_eq. apply div_faithful; lia. }
  rewrite mebi_value in F.
  destruct (faithful_shape _ _ F) as (m & e & E & _).
  exists m, e. split; [exact E|]. rewrite <- E.
  apply (faithful_exact _ _ (Z.pos ma) (ea - 20) F); [lia|].
  rewrite EA. cbn [SF2R].
  replace (ea - 20)%Z with (ea + -20)%Z by lia. rewrite bpow_add.
  assert (B : bpow (-20) * 1048576 = 1).
  { change 1048576 with (IZR (2 ^ 20)).
    rewrite <- (bpow_IZR 20), <- bpow_add by lia. reflexivity. }
  apply (Rmult_eq_reg_r 1048576); [|lra].
  unfold Rdiv. rewrite !Rmult_assoc, Rinv_l, B by lra. ring.
Qed.

End RenderProps.

(** ** [format_memory_mib] *)

(** [C10] For every byte count the text is a decimal integer part (digits
    only), a point and exactly one fractional digit; the number it shows is
    the tenth nearest to the count converted to [double] and divided by
    1,048,576 (the division is exact, and so is the conversion below
    [2 ^ 53]).  One mebibyte renders as [1.0], one and a half as [1.5]. *)
Theorem format_memory_mib_one_fraction_digit :
  (forall bytes, U64.in_range bytes ->
     exists tenths,
       0 <= tenths /\
       format_memory_mib bytes
       = dec (tenths / 10) ++ "." ++ String (digit_char (tenths mod 10)) "" /\
       string_forall isdigit (dec (tenths / 10)) = true /\
       isdigit (digit_char (tenths mod 10)) = true /\
       (Rabs (IZR tenths / 10
              - DoubleSpec.SF2R (Double.of_u64 bytes) / 1048576) <= 1 / 20)%R /\
       (bytes < 2 ^ 53 -> DoubleSpec.SF2R (Double.of_u64 bytes) = IZR bytes)) /\
  format_memory_mib 1048576 = "1.0" /\
  format_memory_mib 1572864 = "1.5".
Proof.
  split; [|split; vm_compute; reflexivity].
  intros bytes [L U]. unfold U64.modulus in U.
  destruct (Z.eq_dec bytes 0) as [->|N].
  - exists 0. split; [lia|]. split; [vm_compute; reflexivity|].
    split; [reflexivity|]. split; [reflexivity|]. split.
    + change (DoubleSpec.SF2R (Double.of_u64 0)) with 0%R.
      replace (IZR 0 / 10 - 0 / 1048576)%R with 0%R by (unfold Rdiv; ring).
      rewrite Rabs_R0. lra.
    + intros _. reflexivity.
  - assert (Hn : 0 < bytes < 2 ^ 64) by lia.
    destruct (RenderProps.mib_exact bytes Hn) as (m & e & E & V).
    destruct (RenderProps.scaled_magnitude_close m e) as [T0 TC].
    destruct (DoubleProps.of_u64_shape bytes Hn) as (_ & _ & _ & _ & _ & _ & X).
    exists (Double.scaled_magnitude 1 (S754_finite false m e)).
    assert (D : forall t, 0 <= t ->
                string_forall isdigit (dec (t / 10)) = true /\
                isdigit (digit_char (t mod 10)) = true).
    { intros t Ht. split.
      - apply NumeralProps.dec_all_digits. apply Z.div_pos; lia.
      - apply NumeralProps.digit_char_isdigit. apply Z.mod_pos_bound. lia. }
    destruct (D _ T0) as [D1 D2].
    split; [exact T0|]. split; [|split; [exact D1|split; [exact D2|split; [|exact X]]]].
    + unfold format_memory_mib. rewrite E. apply RenderProps.fixed_one_digit.
    + rewrite <- V.
      set (t := IZR (Double.scaled_magnitude 1 (S754_finite false m e))) in *.
      set (v := DoubleSpec.SF2R (S754_finite false m e)) in *.
      replace (t / 10 - v)%R with ((t - 10 * v) / 10)%R by field.
      unfold Rdiv. rewrite Rabs_mult, (Rabs_pos_eq (/ 10)) by lra. lra.
Qed.

Lemma format_memory_mib_one_fraction_digit_witness :
  exists tenths,
    0 <= tenths /\
    format_memory_mib 17179869184
    = dec (tenths / 10) ++ "." ++ String (digit_char (tenths mod 10)) "" /\
    string_forall isdigit (dec (tenths / 10)) = true /\
    isdigit (digit_char (tenths mod 10)) = true /\
    (Rabs (IZR tenths / 10
           - DoubleSpec.SF2R (Double.of_u64 17179869184) / 1048576) <= 1 / 20)%R /\
    (17179869184 < 2 ^ 53 ->
     DoubleSpec.SF2R (Double.of_u64 17179869184) = IZR 17179869184).
Proof.
  apply (proj1 format_memory_mib_one_fraction_digit 17179869184).
  unfold U64.in_range, U64.modulus. lia.
Defined.

(** ** [uptime_seconds] *)

Module FieldProps.
Import IStream NumeralSpec FieldSpec.

Lemma field_end_no_digit rest : field_end rest -> no_leading_digit rest.
Proof.
  destruct rest as [|c r]; simpl; [trivial|]. intros S.
  destruct (isdigit c) eqn:D; [|reflexivity].
  apply NumeralProps.isdigit_not_space in D. congruence.
Qed.

Lemma take_fraction_stop s acc count any :
  no_leading_digit s -> Linux.take_fraction s acc count any = (acc, count, any, s).
Proof. destruct s as [|c r]; simpl; [reflexivity | now intros ->]. Qed.

Lemma take_fraction_two_digits f rest acc :
  0 <= f < 100 -> no_leading_digit rest ->
  Linux.take_fraction (two_digits f ++ rest) acc 0 false
  = (acc * 100 + f, 2, true, rest).
Proof.
  intros F R.
  pose proof (Z.div_mod f 10 ltac:(lia)) as D.
  pose proof (Z.mod_pos_bound f 10 ltac:(lia)) as B.
  assert (Q : 0 <= f / 10 < 10)
    by (split; [apply Z.div_pos | apply Z.div_lt_upper_bound]; lia).
  unfold two_digits. cbn [append Linux.take_fraction].
  rewrite !NumeralProps.digit_char_isdigit, !NumeralProps.digit_value_char
    by (unfold is_digit_value; lia).
  rewrite take_fraction_stop by exact R.
  f_equal. f_equal. f_equal. lia.
Qed.

(** No exponent follows a field that ends. *)
Lemma field_end_no_exponent rest :
  field_end rest ->
  match rest with
  | String c r =>
      if (Ascii.eqb c "e" || Ascii.eqb c "E")%bool then
        let '(minus, r3) := read_sign r in
        let '(e, any_exp, _) := take_digits r3 0 false in
        (if minus then - e else e, any_exp)
      else (0, true)
  | EmptyString => (0, true)
  end = (0, true).
Proof.
  destruct rest as [|c r]; [reflexivity|]. simpl. intros S.
  destruct (Ascii.eqb_spec c "e") as [->|_]; [discriminate|].
  destruct (Ascii.eqb_spec c "E") as [->|_]; [discriminate|].
  reflexivity.
Qed.

(** The start of a text that begins with a printed number. *)
Lemma numeral_start n rest :
  0 <= n -> no_leading_digit rest ->
  read_sign (skip_ws (dec n ++ rest)) = (false, dec n ++ rest) /\
  take_digits (dec n ++ rest) 0 false = (n, true, rest).
Proof.
  intros Hn R.
  destruct (NumeralProps.dec_shape n Hn) as (d & ds & F & E & V).
  rewrite E.
  pose proof F as F'. inversion F' as [|? ? Hd Hds]; subst.
  pose proof (NumeralProps.digit_char_isdigit d Hd) as Dd.
  assert (S1 : skip_ws (string_of_digits (d :: ds) ++ rest)
               = string_of_digits (d :: ds) ++ rest).
  { unfold string_of_digits. cbn [map string_of_list_ascii append skip_ws].
    now rewrite (NumeralProps.isdigit_not_space _ Dd). }
  assert (S2 : read_sign (string_of_digits (d :: ds) ++ rest)
               = (false, string_of_digits (d :: ds) ++ rest)).
  { unfold string_of_digits. cbn [map string_of_list_ascii append].
    pose proof (NumeralProps.isdigit_not_sign _ Dd) as G.
    destruct (digit_char d) as [[] [] [] [] [] [] [] []]; simpl in *;
      congruence. }
  rewrite S1, S2. split; [reflexivity|].
  rewrite NumeralProps.take_digits_numeral by exact F.
  now rewrite NumeralProps.take_digits_stop by exact R.
Qed.

(** The extraction on a field with two decimals. *)
Lemma read_double_decimals sep n f rest :
  string_forall isspace sep = true -> 0 <= n -> 0 <= f < 100 ->
  field_end rest ->
  Linux.read_double (sep ++ dec n ++ "." ++ two_digits f ++ rest)
  = match Double.of_decimal false (n * 100 + f) (0 - 2) with
    | S754_infinity s => Linux.out_of_range s
    | d => Linux.converted d
    end.
Proof.
  intros B Hn Hf E. unfold Linux.read_double.
  rewrite NumeralProps.skip_ws_blank by exact B.
  destruct (numeral_start n ("." ++ two_digits f ++ rest) Hn eq_refl) as [S T].
  rewrite S, T.
  change ("." ++ two_digits f ++ rest) with (String "." (two_digits f ++ rest)).
  cbv iota beta.
  rewrite take_fraction_two_digits by (try exact Hf; now apply field_end_no_digit).
  cbn [orb negb]. rewrite (field_end_no_exponent rest E). reflexivity.
Qed.

(** The extraction on a field without decimals. *)
Lemma read_double_integer sep n rest :
  string_forall isspace sep = true -> 0 <= n -> field_end rest ->
  Linux.read_double (sep ++ dec n ++ rest)
  = match Double.of_decimal false n (0 - 0) with
    | S754_infinity s => Linux.out_of_range s
    | d => Linux.converted d
    end.
Proof.
  intros B Hn E. unfold Linux.read_double.
  rewrite NumeralProps.skip_ws_blank by exact B.
  destruct (numeral_start n rest Hn (field_end_no_digit rest E)) as [S T].
  rewrite S, T.
  assert (P : match rest with
              | String "." r => Linux.take_fraction r n 0 false
              | _ => (n, 0, false, rest)
              end = (n, 0, false, rest)).
  { destruct rest as [|c r]; [reflexivity|]. simpl in E.
    destruct c as [[] [] [] [] [] [] [] []]; try reflexivity; discriminate. }
  rewrite P. cbn [orb negb]. rewrite (field_end_no_exponent rest E). reflexivity.
Qed.

Lemma read_double_no_number text :
  no_number text -> Linux.read_double text = Linux.no_conversion.
Proof.
  unfold no_number, Linux.read_double.
  destruct (read_sign (skip_ws text)) as [negative body]. cbn [snd].
  destruct body as [|c r]; [reflexivity|]. intros [D P].
  cbn [take_digits]. rewrite D.
  destruct (Ascii.eqb_spec c ".") as [->|N].
  - specialize (P eq_refl). cbv iota beta.
    now rewrite (take_fraction_stop r 0 0 false P).
  - assert (M : match String c r with
                | String "." r0 => Linux.take_fraction r0 0 0 false
                | _ => (0, 0, false, String c r)
                end = (0, 0, false, String c r)).
    { destruct c as [[] [] [] [] [] [] [] []]; try reflexivity.
      now contradiction N. }
    rewrite M. reflexivity.
Qed.

End FieldProps.

Module CastProps.
Import Double DoubleSpec DoubleProps.
Local Open Scope R_scope.

(** Division of two integers below [2 ^ 53] rounds faithfully. *)
Lemma div_small_faithful a b :
  (Z.pos a < 2 ^ 53)%Z -> (Z.pos b < 2 ^ 53)%Z ->
  faithful (IZR (Z.pos a) / IZR (Z.pos b))
           (SFdiv prec emax (S754_finite false a 0) (S754_finite false b 0)).
Proof.
  intros A B. unfold SFdiv, SFdiv_core_binary.
  pose proof (Zdigits2_bounds (Z.pos a) ltac:(lia)) as BA.
  pose proof (Zdigits2_bounds (Z.pos b) ltac:(lia)) as BB.
  set (d1 := Zdigits2 (Z.pos a)) in *. set (d2 := Zdigits2 (Z.pos b)) in *.
  assert (P1 : (1 <= d1 <= 53)%Z).
  { split; [unfold d1; simpl; lia|].
    destruct (Z_le_gt_dec d1 53) as [C|C]; [exact C|].
    assert (2 ^ 53 <= 2 ^ (d1 - 1))%Z by (apply Z.pow_le_mono_r; lia). lia. }
  assert (P2 : (1 <= d2 <= 53)%Z).
  { split; [unfold d2; simpl; lia|].
    destruct (Z_le_gt_dec d2 53) as [C|C]; [exact C|].
    assert (2 ^ 53 <= 2 ^ (d2 - 1))%Z by (apply Z.pow_le_mono_r; lia). lia. }
  assert (E' : Z.min (fexp prec emax (d1 + 0 - (d2 + 0))) (0 - 0)
               = (d1 - d2 - 53)%Z)
    by (unfold fexp, emin, prec, emax; lia).
  rewrite E'.
  set (s := (53 - d1 + d2)%Z).
  replace (0 - 0 - (d1 - d2 - 53))%Z with s by (unfold s; lia).
  assert (S0 : (0 < s)%Z) by (unfold s; lia).
  assert (M : match s with
              | 0%Z => Z.pos a
              | Z.pos _ => Z.shiftl (Z.pos a) s
              | Z.neg _ => 0%Z
              end = (Z.pos a * 2 ^ s)%Z).
  { destruct s; try lia. now rewrite Z.shiftl_mul_pow2 by lia. }
  rewrite M.
  pose proof (Z_div_mod (Z.pos a * 2 ^ s) (Z.pos b) ltac:(lia)) as DM.
  destruct (Z.div_eucl (Z.pos a * 2 ^ s) (Z.pos b)) as [q r].
  destruct DM as [DM RB]. cbn [xorb].
  assert (W1 : (2 ^ (d1 - 1) * 2 ^ s = 2 ^ 52 * (2 * 2 ^ (d2 - 1)))%Z).
  { replace (2 * 2 ^ (d2 - 1))%Z with (2 ^ d2)%Z
      by (replace d2 with (d2 - 1 + 1)%Z at 1 by lia;
          rewrite Z.pow_add_r by lia; lia).
    rewrite <- !Z.pow_add_r by lia. f_equal. unfold s. lia. }
  assert (W2 : (2 ^ d1 * 2 ^ s = 2 ^ 54 * 2 ^ (d2 - 1))%Z).
  { rewrite <- !Z.pow_add_r by lia. f_equal. unfold s. lia. }
  assert (W3 : (2 ^ d2 = 2 * 2 ^ (d2 - 1))%Z).
  { replace d2 with (d2 - 1 + 1)%Z at 1 by lia.
    rewrite Z.pow_add_r by lia. lia. }
  assert (PS : (0 < 2 ^ s)%Z) by (apply Z.pow_pos_nonneg; lia).
  assert (PD : (0 < 2 ^ (d2 - 1))%Z) by (apply Z.pow_pos_nonneg; lia).
  assert (QB : (2 ^ 52 <= q < 2 ^ 54)%Z).
  { rewrite W3 in BB.
    assert (L : (2 ^ 52 * (2 * 2 ^ (d2 - 1)) <= Z.pos a * 2 ^ s)%Z)
      by (rewrite <- W1; nia).
    assert (U : (Z.pos a * 2 ^ s < 2 ^ 54 * 2 ^ (d2 - 1))%Z)
      by (rewrite <- W2; nia).
    assert (K52 : (0 < 2 ^ 52)%Z) by reflexivity.
    assert (K54 : (0 < 2 ^ 54)%Z) by reflexivity.
    revert L U DM RB BB PD K52 K54.
    generalize (2 ^ (d2 - 1))%Z (Z.pos a * 2 ^ s)%Z (2 ^ 52)%Z (2 ^ 54)%Z
               (Z.pos b).
    intros w x k52 k54 b' L U DM RB BB PD K52 K54. split.
    - destruct (Z_le_gt_dec k52 q) as [C|C]; [exact C | exfalso].
      assert (b' * (q + 1) <= b' * k52)%Z by (apply Z.mul_le_mono_nonneg_l; lia).
      assert (b' * k52 < 2 * w * k52)%Z by (apply Z.mul_lt_mono_pos_r; lia).
      lia.
    - destruct (Z_lt_ge_dec q k54) as [C|C]; [exact C | exfalso].
      assert (b' * k54 <= b' * q)%Z by (apply Z.mul_le_mono_nonneg_l; lia).
      assert (w * k54 <= b' * k54)%Z by (apply Z.mul_le_mono_nonneg_r; lia).
      lia. }
  pose proof (Zdigits2_range q 52 54 ltac:(lia) QB) as DG.
  pose proof (bpow_pos (d1 - d2 - 53)) as P3.
  assert (I2 : 0 < IZR (Z.pos b)) by (apply IZR_lt; lia).
  assert (BE : bpow (d1 - d2 - 53) * IZR (2 ^ s) = 1).
  { rewrite <- (bpow_IZR s), <- bpow_add by lia.
    replace (d1 - d2 - 53 + s)%Z with 0%Z by (unfold s; lia). reflexivity. }
  assert (XV : IZR (Z.pos a) / IZR (Z.pos b)
               = (IZR q + IZR r / IZR (Z.pos b)) * bpow (d1 - d2 - 53)).
  { replace (IZR (Z.pos a))
      with (IZR (Z.pos a * 2 ^ s) * bpow (d1 - d2 - 53))
      by (rewrite mult_IZR, Rmult_assoc, (Rmult_comm (IZR (2 ^ s))), BE; ring).
    rewrite DM, plus_IZR, mult_IZR. field. lra. }
  assert (R0 : 0 <= IZR r / IZR (Z.pos b) < 1).
  { assert (0 <= IZR r) by (apply IZR_le; lia).
    assert (IZR r < IZR (Z.pos b)) by (apply IZR_lt; lia).
    split.
    - apply Rmult_le_pos; [lra|]. apply Rlt_le, Rinv_0_lt_compat; lra.
    - apply (Rmult_lt_reg_r (IZR (Z.pos b))); [lra|].
      unfold Rdiv. rewrite Rmult_assoc, Rinv_l by lra. lra. }
  apply binary_round_aux_faithful; try lia.
  - rewrite XV, plus_IZR. nra.
  - intros N. apply new_location_exact in N. rewrite XV.
    assert (0 < IZR r) by (apply IZR_lt; lia).
    assert (0 < IZR r / IZR (Z.pos b))
      by (apply Rmult_lt_0_compat; [lra | apply Rinv_0_lt_compat; lra]).
    nra.
Qed.

Lemma two63_eq : two63 = S754_finite false 4503599627370496 11.
Proof. vm_compute. reflexivity. Qed.

Lemma two63_value : SF2R two63 = IZR (2 ^ 63).
Proof.
  rewrite two63_eq. cbn [SF2R].
  change 4503599627370496%Z with (2 ^ 52)%Z.
  rewrite <- (bpow_IZR 52), <- bpow_add by lia.
  change (52 + 11)%Z with 63%Z. now rewrite (bpow_IZR 63) by lia.
Qed.

Lemma leb_false_of_Rlt m1 e1 m2 e2 :
  (2 ^ 52 <= Z.pos m1 < 2 ^ 53)%Z -> (2 ^ 52 <= Z.pos m2 < 2 ^ 53)%Z ->
  SF2R (S754_finite false m2 e2) < SF2R (S754_finite false m1 e1) ->
  leb (S754_finite false m1 e1) (S754_finite false m2 e2) = false.
Proof.
  intros M1 M2 V. cbn [SF2R] in V.
  unfold leb, SFleb, SFcompare.
  destruct (Z.compare_spec e1 e2) as [E|E|E].
  - subst e2. rewrite Pos.compare_cont_spec. cbn [Pos.switch_Eq].
    destruct (Pos.compare_spec m1 m2) as [C|C|C]; try reflexivity;
      exfalso; pose proof (bpow_pos e1) as P.
    + subst. lra.
    + assert (IZR (Z.pos m1) < IZR (Z.pos m2)) by (apply IZR_lt; lia). nra.
  - exfalso.
    pose proof (off_grid (Z.pos m1) e1 (Z.pos m2) e2 ltac:(lia) ltac:(lia) E).
    lra.
  - reflexivity.
Qed.

(** A positive normal double between [n] and [n + 1] converts to [n], by
    the language and as compiled. *)
Lemma seconds_of_double m e n :
  (2 ^ 52 <= Z.pos m < 2 ^ 53)%Z ->
  IZR n <= SF2R (S754_finite false m e) < IZR n + 1 ->
  (0 <= n < 2 ^ 63)%Z ->
  to_u64 (S754_finite false m e) = Some n /\
  to_u64_x86_64 (S754_finite false m e) = n.
Proof.
  intros M [L U] N.
  destruct (RenderProps.truncate_floor m e) as [T0 [TL TU]].
  set (t := truncate (S754_finite false m e)) in *.
  assert (E : t = n).
  { assert (IZR t < IZR (n + 1)) by (rewrite plus_IZR; lra).
    assert (IZR n < IZR (t + 1)) by (rewrite plus_IZR; lra).
    apply lt_IZR in H, H0. lia. }
  split.
  - unfold to_u64. cbn [is_finite]. fold t. rewrite E.
    destruct (Z.leb_spec 0 n); [|lia].
    destruct (Z.leb_spec n U64.max); [reflexivity|].
    unfold U64.max, U64.modulus in *. lia.
  - unfold to_u64_x86_64.
    assert (F : leb two63 (S754_finite false m e) = false).
    { rewrite two63_eq. apply leb_false_of_Rlt; [lia | exact M |].
      rewrite <- two63_eq, two63_value.
      assert (IZR (n + 1) <= IZR (2 ^ 63)) by (apply IZR_le; lia).
      rewrite plus_IZR in *. lra. }
    rewrite F. unfold cvttsd2si. cbn [is_finite]. fold t. rewrite E.
    destruct (Z.leb_spec (- 2 ^ 63) n); [|lia].
    destruct (Z.ltb_spec n (2 ^ 63)); [|lia]. cbn [andb].
    apply U64Props.wrap_small. unfold U64.in_range, U64.modulus. lia.
Qed.

(** The seconds of a field with two decimals. *)
Lemma seconds_of_decimals n f :
  (0 <= n < 2 ^ 45)%Z -> (0 <= f < 100)%Z ->
  exists d,
    of_decimal false (n * 100 + f) (0 - 2) = d /\
    is_finite d = true /\ to_u64 d = Some n /\ to_u64_x86_64 d = n.
Proof.
  intros Hn Hf. eexists. split; [reflexivity|].
  destruct (n * 100 + f)%Z as [|p|p] eqn:EP; try lia.
  { assert (n = 0%Z) by lia. subst n. repeat split; vm_compute; reflexivity. }
  change (0 - 2)%Z with (Z.neg 2). cbn [of_decimal].
  change (Pos.pow 10 2) with 100%positive.
  assert (PB : (Z.pos p < 2 ^ 53)%Z)
    by (change (2 ^ 53)%Z with (2 ^ 45 * 256)%Z; lia).
  pose proof (div_small_faithful p 100 PB ltac:(lia)) as F.
  destruct (faithful_shape _ _ F) as (m & e & E & M).
  pose proof (faithful_pos _ _ F) as [DP _].
  assert (X : IZR (Z.pos p) / IZR 100 = IZR n + IZR f / 100).
  { rewrite <- EP, plus_IZR, mult_IZR. field. }
  assert (F0 : 0 <= IZR f) by (apply IZR_le; lia).
  assert (F1 : IZR f <= 99) by (apply IZR_le; lia).
  assert (UB : SF2R (SFdiv prec emax (S754_finite false p 0)
                           (S754_finite false 100 0))
               <= IZR (128 * (n + 1) - 1) * bpow (-7)).
  { apply (faithful_upper _ _ (128 * (n + 1) - 1) (-7) F).
    - change (2 ^ 53)%Z with (2 ^ 45 * 256)%Z. lia.
    - rewrite X, minus_IZR, mult_IZR, plus_IZR.
      replace (bpow (-7)) with (/ 128)
        by (unfold bpow; simpl; field).
      lra. }
  assert (LB : IZR n <= SF2R (SFdiv prec emax (S754_finite false p 0)
                                    (S754_finite false 100 0))).
  { destruct (Z.eq_dec n 0) as [->|NZ]; [lra|].
    replace (IZR n) with (IZR n * bpow 0) by (change (bpow 0) with 1; ring).
    apply (faithful_lower _ _ n 0 F).
    - change (2 ^ 53)%Z with (2 ^ 45 * 256)%Z. lia.
    - change (bpow 0) with 1. rewrite X. lra. }
  rewrite minus_IZR, mult_IZR, plus_IZR in UB.
  replace (bpow (-7)) with (/ 128) in UB by (unfold bpow; simpl; field).
  rewrite E in *. split; [reflexivity|].
  apply seconds_of_double; [exact M | lra |].
  change (2 ^ 63)%Z with (2 ^ 45 * 2 ^ 18)%Z. lia.
Qed.

(** The seconds of a field without decimals. *)
Lemma seconds_of_integer n :
  (0 <= n < 2 ^ 53)%Z ->
  exists d,
    of_decimal false n (0 - 0) = d /\
    is_finite d = true /\ to_u64 d = Some n /\ to_u64_x86_64 d = n.
Proof.
  intros Hn. eexists. split; [reflexivity|].
  destruct n as [|p|p] eqn:EP; try lia.
  { repeat split; vm_compute; reflexivity. }
  change (0 - 0)%Z with 0%Z. cbn [of_decimal].
  change (10 ^ 0)%Z with 1%Z. rewrite Z.mul_1_r.
  change (binary_normalize prec emax (Z.pos p) 0 false) with (of_u64 (Z.pos p)).
  destruct (of_u64_shape (Z.pos p) ltac:(lia)) as (m & e & E & M & _ & _ & V).
  specialize (V ltac:(lia)). rewrite E in *. split; [reflexivity|].
  apply seconds_of_double; [exact M | lra | lia].
Qed.

End CastProps.

(** A negative field too large for a [double] is a read error, and yet the
    result is not zero: the extraction stores the lowest finite double,
    whose conversion, undefined by the language, gives [2 ^ 63] in the
    compiled program.  A negative field that is read without error is not
    truncated to its whole seconds either. *)
Lemma uptime_seconds_out_of_range :
  (Linux.read_double "-1e999" = Linux.out_of_range true /\
   Linux.uptime_seconds_x86_64 (host_with_uptime (Some "-1e999"))
   = 9223372036854775808 /\
   Linux.uptime_seconds_x86_64 (host_with_uptime (Some "-1e999")) <> 0) /\
  (Linux.read_double "-5.5"
   = Linux.converted (S754_finite true 6192449487634432 (-50)) /\
   Linux.uptime_seconds_x86_64 (host_with_uptime (Some "-5.5"))
   = 18446744073709551611).
Proof.
  repeat split; try (vm_compute; reflexivity). vm_compute. discriminate.
Qed.

(** [C8] (as amended) [uptime_seconds] returns 0 when the uptime file cannot
    be opened and when no number can be read from it.  For a first field
    written as the kernel writes it, a decimal integer part below [2 ^ 45],
    a point and two decimals, or for a plain integer below [2 ^ 53], it
    returns the integer part; the conversion is then defined by the
    language and the compiled program agrees with it.  More generally, when
    the field is read as a double that is not negative and whose integer
    part fits in 64 bits, the result is that double rounded down.  A field
    too large
    for a [double] is a read error after which the compiled program returns
    0 when the field is positive and [2 ^ 63] when it is negative.  On the
    Windows-style build the result is the whole number of thousands in the
    tick count. *)
Theorem uptime_seconds_truncates :
  (forall h, Linux.proc_uptime h = None ->
     Linux.uptime_seconds h = Some 0 /\ Linux.uptime_seconds_x86_64 h = 0) /\
  (forall h text,
     Linux.proc_uptime h = Some text -> FieldSpec.no_number text ->
     Linux.uptime_seconds h = Some 0 /\ Linux.uptime_seconds_x86_64 h = 0) /\
  (forall h sep n f rest,
     Linux.proc_uptime h = Some (sep ++ dec n ++ "." ++ two_digits f ++ rest) ->
     string_forall isspace sep = true ->
     0 <= n < 2 ^ 45 -> 0 <= f < 100 -> FieldSpec.field_end rest ->
     Linux.uptime_seconds h = Some n /\ Linux.uptime_seconds_x86_64 h = n) /\
  (forall h sep n rest,
     Linux.proc_uptime h = Some (sep ++ dec n ++ rest) ->
     string_forall isspace sep = true ->
     0 <= n < 2 ^ 53 -> FieldSpec.field_end rest ->
     Linux.uptime_seconds h = Some n /\ Linux.uptime_seconds_x86_64 h = n) /\
  (forall h text m e,
     Linux.proc_uptime h = Some text ->
     Linux.read_double text = Linux.converted (S754_finite false m e) ->
     Double.truncate (S754_finite false m e) <= U64.max ->
     Linux.uptime_seconds h = Some (Double.truncate (S754_finite false m e)) /\
     0 <= Double.truncate (S754_finite false m e) /\
     (IZR (Double.truncate (S754_finite false m e))
      <= DoubleSpec.SF2R (S754_finite false m e)
      < IZR (Double.truncate (S754_finite false m e)) + 1)%R) /\
  (forall h text negative,
     Linux.proc_uptime h = Some text ->
     Linux.read_double text = Linux.out_of_range negative ->
     Linux.uptime_seconds_x86_64 h = if negative then 2 ^ 63 else 0) /\
  (forall h, 0 <= Windows.GetTickCount64 h ->
     0 <= Windows.uptime_seconds h /\
     1000 * Windows.uptime_seconds h <= Windows.GetTickCount64 h
       < 1000 * (Windows.uptime_seconds h + 1)).
Proof.
  split; [|split; [|split; [|split; [|split; [|split]]]]].
  - intros h E. unfold Linux.uptime_seconds, Linux.uptime_seconds_x86_64.
    rewrite E. split; reflexivity.
  - intros h text E N.
    unfold Linux.uptime_seconds, Linux.uptime_seconds_x86_64.
    rewrite E, (FieldProps.read_double_no_number text N).
    split; reflexivity.
  - intros h sep n f rest E B Hn Hf R.
    unfold Linux.uptime_seconds, Linux.uptime_seconds_x86_64.
    rewrite E, (FieldProps.read_double_decimals sep n f rest B (proj1 Hn) Hf R).
    destruct (CastProps.seconds_of_decimals n f Hn Hf) as (d & -> & F & L & C).
    destruct d; try discriminate; cbn [Linux.extract_double]; split; assumption.
  - intros h sep n rest E B Hn R.
    unfold Linux.uptime_seconds, Linux.uptime_seconds_x86_64.
    rewrite E, (FieldProps.read_double_integer sep n rest B (proj1 Hn) R).
    destruct (CastProps.seconds_of_integer n Hn) as (d & -> & F & L & C).
    destruct d; try discriminate; cbn [Linux.extract_double]; split; assumption.
  - intros h text m e E R B. unfold Linux.uptime_seconds. rewrite E, R.
    destruct (RenderProps.truncate_floor m e) as [T0 TF].
    split; [|split; assumption].
    cbn [Linux.extract_double]. unfold Double.to_u64. cbn [Double.is_finite].
    destruct (Z.leb_spec 0 (Double.truncate (S754_finite false m e))); [|lia].
    destruct (Z.leb_spec (Double.truncate (S754_finite false m e)) U64.max);
      [reflexivity | lia].
  - intros h text negative E O. unfold Linux.uptime_seconds_x86_64.
    rewrite E, O. destruct negative; vm_compute; reflexivity.
  - intros h T. unfold Windows.uptime_seconds.
    pose proof (Z.div_mod (Windows.GetTickCount64 h) 1000 ltac:(lia)).
    pose proof (Z.mod_pos_bound (Windows.GetTickCount64 h) 1000 ltac:(lia)).
    split; [apply Z.div_pos; lia | lia].
Qed.

Lemma uptime_seconds_truncates_witness :
  Linux.uptime_seconds (host_with_uptime (Some FieldSpec.uptime_sample))
  = Some 90049 /\
  Linux.uptime_seconds_x86_64 (host_with_uptime (Some FieldSpec.uptime_sample))
  = 90049.
Proof.
  refine (proj1 (proj2 (proj2 uptime_seconds_truncates))
            (host_with_uptime (Some FieldSpec.uptime_sample))
            "" 90049 37 (" 351735.47" ++ newline) eq_refl eq_refl _ _ eq_refl).
  - lia.
  - lia.
Defined.
(** * Further properties *)

(** ** [compute_cpu_usage]: deltas, wrap-around and exact percentages *)

Module UsageProps.

Lemma sub_shift a b c : U64.sub (U64.add a c) (U64.add b c) = U64.sub a b.
Proof.
  unfold U64.sub, U64.add, U64.wrap.
  rewrite <- Zminus_mod. f_equal. lia.
Qed.

(** The quotient of the source on an active delta [a] and a total delta
    [t] whose product by one hundred is exact. *)
Lemma quotient_faithful a t :
  0 < a <= t -> 25 * t < 2 ^ 53 ->
  DoubleSpec.faithful (IZR a * 100 / IZR t)
    (Double.div (Double.mul (Double.of_u64 a) Double.hundred) (Double.of_u64 t)).
Proof.
  intros Ha Hs.
  assert (A : 0 < a < 2 ^ 64) by lia.
  assert (T : 0 < t < 2 ^ 64) by lia.
  destruct (DoubleProps.usage_quotient a t A T) as [FP FQ].
  destruct (DoubleProps.of_u64_shape a A) as (ma & ea & _ & _ & _ & _ & VA).
  destruct (DoubleProps.of_u64_shape t T) as (mt & et & _ & _ & _ & _ & VT).
  rewrite VA in FP by lia.
  assert (VP : DoubleSpec.SF2R (Double.mul (Double.of_u64 a) Double.hundred)
               = (IZR a * 100)%R).
  { apply (DoubleProps.faithful_exact _ _ (25 * a) 2 FP); [lia|].
    rewrite (DoubleProps.bpow_IZR 2), mult_IZR by lia.
    change (2 ^ 2) with 4. lra. }
  rewrite VP, VT in FQ by lia. exact FQ.
Qed.

Lemma quotient_range a t :
  0 <= a <= t -> 0 < t -> 25 * t < 2 ^ 53 ->
  let q := Double.div (Double.mul (Double.of_u64 a) Double.hundred)
                      (Double.of_u64 t) in
  Double.leb Double.zero q = true /\ Double.leb q Double.hundred = true /\
  (0 <= DoubleSpec.SF2R q <= 100)%R.
Proof.
  intros Ha Ht Hs q. subst q.
  destruct (Z.eq_dec a 0) as [->|NZ].
  { rewrite usage_zero_active by lia.
    repeat split; try reflexivity; simpl; lra. }
  pose proof (quotient_faithful a t ltac:(lia) Hs) as FQ.
  assert (Pt : (0 < IZR t)%R) by (apply IZR_lt; lia).
  assert (Lat : (IZR a <= IZR t)%R) by (apply IZR_le; lia).
  assert (H100 : (IZR 25 * DoubleSpec.bpow 2 = 100)%R).
  { rewrite (DoubleProps.bpow_IZR 2) by lia. change (2 ^ 2) with 4. lra. }
  assert (UB : (IZR a * 100 / IZR t <= IZR 25 * DoubleSpec.bpow 2)%R).
  { rewrite H100. apply (Rmult_le_reg_r (IZR t)); [lra|].
    unfold Rdiv. rewrite Rmult_assoc, Rinv_l by lra. nra. }
  pose proof (DoubleProps.faithful_upper _ _ 25 2 FQ ltac:(lia) UB) as U.
  pose proof (DoubleProps.faithful_pos _ _ FQ) as [P _].
  destruct (DoubleProps.faithful_shape _ _ FQ) as (mq & eq & EQ & MQ).
  rewrite EQ in *. split; [reflexivity|]. split.
  - rewrite DoubleProps.hundred_eq. apply DoubleProps.leb_of_Rle; [lia | lia |].
    rewrite <- DoubleProps.hundred_eq, DoubleProps.hundred_value. lra.
  - lra.
Qed.

(** Two positive normal doubles of the same value are the same double. *)
Lemma normal_eq m1 e1 m2 e2 :
  2 ^ 52 <= Z.pos m1 < 2 ^ 53 -> 2 ^ 52 <= Z.pos m2 < 2 ^ 53 ->
  DoubleSpec.SF2R (S754_finite false m1 e1)
  = DoubleSpec.SF2R (S754_finite false m2 e2) ->
  S754_finite false m1 e1 = S754_finite false m2 e2.
Proof.
  intros M1 M2 V. cbn [DoubleSpec.SF2R] in V.
  destruct (Z.lt_trichotomy e1 e2) as [L | [E | L]].
  - exfalso.
    pose proof (DoubleProps.off_grid (Z.pos m1) e1 (Z.pos m2) e2
                  ltac:(lia) ltac:(lia) L). lra.
  - subst e2. pose proof (DoubleProps.bpow_pos e1) as P.
    assert (I : IZR (Z.pos m1) = IZR (Z.pos m2)) by nra.
    apply eq_IZR in I. congruence.
  - exfalso.
    pose proof (DoubleProps.off_grid (Z.pos m2) e2 (Z.pos m1) e1
                  ltac:(lia) ltac:(lia) L). lra.
Qed.

Lemma delta_range x y : 0 <= U64.sub x y < 2 ^ 64.
Proof. apply (U64Props.wrap_range (x - y)). Qed.

(** A usage whose exact value is a whole number of percent. *)
Lemma whole_percent prev curr p :
  let idle_delta := U64.sub (idle_ticks curr) (idle_ticks prev) in
  let total_delta := U64.sub (total_ticks curr) (total_ticks prev) in
  0 < total_delta ->
  idle_delta <= total_delta ->
  25 * total_delta < 2 ^ 53 ->
  100 * (total_delta - idle_delta) = p * total_delta ->
  compute_cpu_usage prev curr = Double.of_u64 p.
Proof.
  intros id td Ht Hi Hs Hp. unfold compute_cpu_usage. fold id. fold td.
  pose proof (delta_range (idle_ticks curr) (idle_ticks prev)) as Ri.
  fold id in Ri.
  destruct (Z.eqb_spec td 0) as [E|_]; [lia|].
  assert (EA : U64.sub td id = td - id)
    by (apply U64Props.wrap_small; unfold U64.in_range, U64.modulus; lia).
  rewrite EA.
  destruct (Z.eq_dec (td - id) 0) as [Z0|NZ].
  { rewrite Z0, usage_zero_active by lia.
    assert (p = 0) by nia. subst p. reflexivity. }
  assert (P : 0 < p <= 100) by nia.
  pose proof (quotient_faithful (td - id) td ltac:(lia) Hs) as FQ.
  assert (X : (IZR (td - id) * 100 / IZR td = IZR p * DoubleSpec.bpow 0)%R).
  { change (DoubleSpec.bpow 0) with 1%R.
    assert (0 < IZR td)%R by (apply IZR_lt; lia).
    apply (Rmult_eq_reg_r (IZR td)); [|lra].
    unfold Rdiv. rewrite Rmult_assoc, Rinv_l, !Rmult_1_r by lra.
    replace 100%R with (IZR 100) by reflexivity.
    rewrite <- !mult_IZR. f_equal. lia. }
  pose proof (DoubleProps.faithful_exact _ _ p 0 FQ ltac:(lia) X) as V.
  destruct (DoubleProps.faithful_shape _ _ FQ) as (mq & eq & EQ & MQ).
  destruct (DoubleProps.of_u64_shape p ltac:(lia)) as (mp & ep & EP & MP & _ & _ & VP).
  rewrite EQ in V |- *. rewrite EP. apply normal_eq; [lia | lia |].
  rewrite V, X, <- EP, VP by lia.
  change (DoubleSpec.bpow 0) with 1%R. ring.
Qed.


End UsageProps.

(** [X1] The usage depends on the counters only through their differences
    modulo [2 ^ 64]: advancing the idle counters of both snapshots by one
    amount and the total counters by another, with wrap-around, leaves the
    result unchanged.  A counter that wraps between two samples is
    harmless. *)
Theorem compute_cpu_usage_shift_invariant prev curr di dt :
  compute_cpu_usage
    {| idle_ticks := U64.add (idle_ticks prev) di;
       total_ticks := U64.add (total_ticks prev) dt |}
    {| idle_ticks := U64.add (idle_ticks curr) di;
       total_ticks := U64.add (total_ticks curr) dt |}
  = compute_cpu_usage prev curr.
Proof.
  unfold compute_cpu_usage. cbn [idle_ticks total_ticks].
  now rewrite !UsageProps.sub_shift.
Qed.

(** [X2] With the wrapped deltas [idle_delta <= total_delta] and
    [25 * total_delta < 2 ^ 53], a usage whose exact value is a whole
    number [p] of percent is returned as exactly the double [p]: 100.0 when
    no idle tick passed, 0.0 when every tick was idle, 50.0 at one half. *)
Theorem compute_cpu_usage_whole_percent prev curr p :
  let idle_delta := U64.sub (idle_ticks curr) (idle_ticks prev) in
  let total_delta := U64.sub (total_ticks curr) (total_ticks prev) in
  0 < total_delta ->
  idle_delta <= total_delta ->
  25 * total_delta < 2 ^ 53 ->
  100 * (total_delta - idle_delta) = p * total_delta ->
  compute_cpu_usage prev curr = Double.of_u64 p /\ 0 <= p <= 100.
Proof.
  intros id td Ht Hi Hs Hp.
  split; [now apply UsageProps.whole_percent|].
  pose proof (UsageProps.delta_range (idle_ticks curr) (idle_ticks prev)) as Ri.
  fold id in Ri. nia.
Qed.

Lemma compute_cpu_usage_whole_percent_witness :
  compute_cpu_usage {| idle_ticks := 900; total_ticks := 1000 |}
                    {| idle_ticks := 950; total_ticks := 1200 |}
  = Double.of_u64 75 /\ 0 <= 75 <= 100.
Proof.
  apply (compute_cpu_usage_whole_percent
           {| idle_ticks := 900; total_ticks := 1000 |}
           {| idle_ticks := 950; total_ticks := 1200 |} 75);
    vm_compute; try reflexivity; discriminate.
Defined.

(** ** Samples of the Linux-style build, taken one after the other *)

Module SeriesProps.
Import CpuSpec.

(** The growth of each counter between two lines with the same number of
    fields. *)
Lemma growth l1 l2 :
  Forall2 Z.le l1 l2 ->
  exists ds,
    Forall (fun x => 0 <= x) ds /\
    (forall j, nth j ds 0 = nth j l2 0 - nth j l1 0) /\
    (forall n, list_sum (firstn n ds)
               = list_sum (firstn n l2) - list_sum (firstn n l1)).
Proof.
  induction 1 as [|x y l1 l2 L _ (ds & P & N & S)].
  - exists []. split; [constructor|]. split.
    + intros [|j]; reflexivity.
    + intros [|n]; reflexivity.
  - exists ((y - x) :: ds). split; [constructor; [lia | exact P]|]. split.
    + intros [|j]; [reflexivity | apply N].
    + intros [|n]; [reflexivity|].
      cbn [firstn]. unfold list_sum in *. cbn [fold_right].
      specialize (S n). lia.
Qed.

Lemma fields_nonneg fields :
  Forall good_field fields -> Forall (fun x => 0 <= x) (map snd fields).
Proof.
  intros F. apply Forall_map. eapply Forall_impl; [|exact F].
  intros [sep n] (_ & _ & R). cbn [snd] in *. lia.
Qed.

Lemma filter_length_perm {A} (f : A -> bool) l1 l2 :
  Permutation l1 l2 ->
  List.length (filter f l1) = List.length (filter f l2).
Proof.
  induction 1 as [|x l1 l2 _ IH|x y l|l1 l2 l3 _ IH1 _ IH2]; simpl.
  - reflexivity.
  - destruct (f x); simpl; congruence.
  - destruct (f x), (f y); reflexivity.
  - congruence.
Qed.

End SeriesProps.

(** [X3] Two well-formed first lines of the accounting file with the same
    number of fields, each counter of the second at least that of the
    first: when the ten fields of the second sum to less than [2 ^ 64] and
    twenty-five times the growth of that sum stays below [2 ^ 53], both
    samples succeed and the usage derived from them lies between 0 and
    100. *)
Theorem usage_of_successive_samples
    h1 h2 stat1 stat2 more1 more2 fields1 fields2 tail1 tail2 :
  Linux.proc_stat h1 = Some stat1 ->
  IStream.getline stat1 = Some ("cpu" ++ CpuSpec.fields_text fields1 tail1, more1) ->
  Forall CpuSpec.good_field fields1 -> string_forall isspace tail1 = true ->
  Linux.proc_stat h2 = Some stat2 ->
  IStream.getline stat2 = Some ("cpu" ++ CpuSpec.fields_text fields2 tail2, more2) ->
  Forall CpuSpec.good_field fields2 -> string_forall isspace tail2 = true ->
  Forall2 Z.le (map snd fields1) (map snd fields2) ->
  CpuSpec.list_sum (firstn 10 (map snd fields2)) <= U64.max ->
  25 * (CpuSpec.list_sum (firstn 10 (map snd fields2))
        - CpuSpec.list_sum (firstn 10 (map snd fields1))) < 2 ^ 53 ->
  exists s1 s2,
    Linux.sample_cpu h1 = Some s1 /\ Linux.sample_cpu h2 = Some s2 /\
    Double.leb Double.zero (compute_cpu_usage s1 s2) = true /\
    Double.leb (compute_cpu_usage s1 s2) Double.hundred = true /\
    (0 <= DoubleSpec.SF2R (compute_cpu_usage s1 s2) <= 100)%R.
Proof.
  intros E1 G1 F1 T1 E2 G2 F2 T2 LE B S.
  rewrite (CpuProps.sample_cpu_fields h1 stat1 more1 fields1 tail1 E1 G1 F1 T1).
  rewrite (CpuProps.sample_cpu_fields h2 stat2 more2 fields2 tail2 E2 G2 F2 T2).
  pose proof (SeriesProps.fields_nonneg _ F1) as P1.
  pose proof (SeriesProps.fields_nonneg _ F2) as P2.
  revert LE B S P1 P2.
  generalize (map snd fields1) (map snd fields2). intros l1 l2 LE B S P1 P2.
  destruct (SeriesProps.growth l1 l2 LE) as (ds & PD & N & SD).
  pose proof (idle_le_total _ P1) as I1.
  pose proof (idle_le_total _ P2) as I2.
  pose proof (idle_le_total _ PD) as ID.
  rewrite !N, SD in ID.
  assert (ID' : 0 <= nth 3 l2 0 + nth 4 l2 0 - (nth 3 l1 0 + nth 4 l1 0)
                <= CpuSpec.list_sum (firstn 10 l2) - CpuSpec.list_sum (firstn 10 l1))
    by lia.
  clear ID. rename ID' into ID.
  pose proof (list_sum_firstn_nonneg _ 10 PD) as TD. rewrite SD in TD.
  revert B S I1 I2 ID TD.
  generalize (CpuSpec.list_sum (firstn 10 l1)) (CpuSpec.list_sum (firstn 10 l2))
             (nth 3 l1 0 + nth 4 l1 0) (nth 3 l2 0 + nth 4 l2 0).
  intros t1 t2 i1 i2 B S I1 I2 ID TD. unfold U64.max, U64.modulus in B.
  assert (W : forall x, 0 <= x < 2 ^ 64 -> U64.wrap x = x)
    by (intros x Hx; apply U64Props.wrap_small; exact Hx).
  rewrite (W t1), (W t2), (W i1), (W i2) by lia.
  eexists _, _. split; [reflexivity|]. split; [reflexivity|].
  unfold compute_cpu_usage. cbn [idle_ticks total_ticks].
  unfold U64.sub.
  rewrite !(W (t2 - t1)), !(W (i2 - i1)) by lia.
  destruct (Z.eqb_spec (t2 - t1) 0) as [Z0|NZ].
  { repeat split; try reflexivity; simpl; lra. }
  rewrite !(W (t2 - t1 - (i2 - i1))) by lia.
  apply UsageProps.quotient_range; lia.
Qed.

Lemma usage_of_successive_samples_witness :
  exists s1 s2,
    Linux.sample_cpu (host_with_stat (Some stat_sample)) = Some s1 /\
    Linux.sample_cpu (host_with_stat (Some ProgramSpec.stat_later)) = Some s2 /\
    Double.leb Double.zero (compute_cpu_usage s1 s2) = true /\
    Double.leb (compute_cpu_usage s1 s2) Double.hundred = true /\
    (0 <= DoubleSpec.SF2R (compute_cpu_usage s1 s2) <= 100)%R.
Proof.
  refine (usage_of_successive_samples
            (host_with_stat (Some stat_sample))
            (host_with_stat (Some ProgramSpec.stat_later))
            stat_sample ProgramSpec.stat_later _ _
            stat_sample_fields SeriesSpec.stat_later_fields "" ""
            eq_refl eq_refl _ eq_refl eq_refl eq_refl _ eq_refl _ _ _).
  - repeat constructor; simpl; try discriminate; unfold U64.max, U64.modulus; lia.
  - repeat constructor; simpl; try discriminate; unfold U64.max, U64.modulus; lia.
  - repeat constructor; simpl; lia.
  - vm_compute. discriminate.
  - vm_compute. reflexivity.
Defined.

(** ** [sample_cpu] on any content *)

Module CellProps.
Import IStream CellSpec.

Lemma isdigit_value c : isdigit c = true -> 0 <= digit_value c.
Proof.
  unfold isdigit, digit_value. intros H. apply andb_true_iff in H.
  destruct H as [H _]. apply Z.leb_le in H. lia.
Qed.

Lemma take_digits_nonneg s : forall acc any,
  0 <= acc -> 0 <= fst (fst (take_digits s acc any)).
Proof.
  induction s as [|c r IH]; intros acc any A; cbn [take_digits]; [exact A|].
  destruct (isdigit c) eqn:D; [|exact A].
  apply IH. pose proof (isdigit_value c D). lia.
Qed.

Lemma read_u64_cell s : cell (ex_value (read_u64 s)).
Proof.
  unfold read_u64, cell.
  destruct (read_sign (skip_ws s)) as [negative body].
  pose proof (take_digits_nonneg body 0 false ltac:(lia)) as N.
  destruct (take_digits body 0 false) as [[result any] rest]. cbn [fst] in N.
  destruct (negb any); cbn [ex_value];
    [unfold U64.max, U64.modulus; lia|].
  destruct (Z.ltb_spec U64.max result); cbn [ex_value];
    [unfold U64.max, U64.modulus; lia|].
  destruct negative; [|lia].
  pose proof (U64Props.wrap_range (- result)) as W.
  unfold U64.in_range, U64.max in *. lia.
Qed.

Lemma store_cell i v : forall a,
  cell v -> Forall cell a -> Forall cell (store i v a).
Proof.
  induction i as [|i IH]; intros [|x a] V F; cbn [store];
    try constructor; inversion F; subst; auto.
Qed.

Lemma read_values_cell n : forall i iss good values,
  Forall cell values -> Forall cell (Linux.read_values n i iss good values).
Proof.
  induction n as [|n IH]; intros i iss good values F; cbn [Linux.read_values];
    [exact F|].
  destruct good; [|exact F].
  apply IH. apply store_cell; [apply read_u64_cell | exact F].
Qed.

Lemma upto_newline_line line : forall more,
  ProgramSpec.count_char LF line = O ->
  upto_newline (line ++ String LF more) = (line, more).
Proof.
  induction line as [|c line IH]; intros more N; [reflexivity|].
  cbn [ProgramSpec.count_char] in N.
  cbn [append upto_newline].
  destruct (Ascii.eqb_spec c LF) as [->|D]; [discriminate|].
  assert (E : (Z.of_nat (nat_of_ascii c) =? 10) = false).
  { apply Z.eqb_neq. intros K. apply D.
    rewrite <- (ascii_nat_embedding c). unfold LF. f_equal. lia. }
  rewrite E, IH by exact N. reflexivity.
Qed.

Lemma upto_newline_last line :
  ProgramSpec.count_char LF line = O -> upto_newline line = (line, "").
Proof.
  induction line as [|c line IH]; intros N; [reflexivity|].
  cbn [ProgramSpec.count_char] in N. cbn [upto_newline].
  destruct (Ascii.eqb_spec c LF) as [->|D]; [discriminate|].
  assert (E : (Z.of_nat (nat_of_ascii c) =? 10) = false).
  { apply Z.eqb_neq. intros K. apply D.
    rewrite <- (ascii_nat_embedding c). unfold LF. f_equal. lia. }
  rewrite E, IH by exact N. reflexivity.
Qed.

End CellProps.

(** [X4] Whatever the accounting file holds, a snapshot that is taken comes
    from the ten cells of [values] as the reading loop leaves them: each is
    a 64-bit value, the total is their sum and the idle count the sum of
    the fourth and fifth, modulo [2 ^ 64].  Unless the sum of the ten cells
    overflows, the idle count does not exceed the total.  On a first line
    made of [cpu] and decimal fields the cells are the first ten fields,
    with zero for each missing one. *)
Theorem sample_cpu_idle_within_total :
  (forall h snapshot,
     Linux.sample_cpu h = Some snapshot ->
     List.length (CellSpec.cells h) = 10%nat /\
     Forall (fun v => 0 <= v <= U64.max) (CellSpec.cells h) /\
     total_ticks snapshot = U64.wrap (CpuSpec.list_sum (CellSpec.cells h)) /\
     idle_ticks snapshot
     = U64.wrap (nth 3 (CellSpec.cells h) 0 + nth 4 (CellSpec.cells h) 0) /\
     (CpuSpec.list_sum (CellSpec.cells h) <= U64.max ->
      idle_ticks snapshot = nth 3 (CellSpec.cells h) 0 + nth 4 (CellSpec.cells h) 0 /\
      total_ticks snapshot = CpuSpec.list_sum (CellSpec.cells h) /\
      idle_ticks snapshot <= total_ticks snapshot)) /\
  (forall h stat more fields tail,
     Linux.proc_stat h = Some stat ->
     IStream.getline stat = Some ("cpu" ++ CpuSpec.fields_text fields tail, more) ->
     Forall CpuSpec.good_field fields ->
     string_forall isspace tail = true ->
     forall i, (i < 10)%nat ->
       nth i (CellSpec.cells h) 0 = nth i (map snd fields) 0).
Proof.
  split.
  - intros h snapshot. unfold Linux.sample_cpu, CellSpec.cells.
    destruct (Linux.proc_stat h) as [stat|]; [|discriminate].
    destruct (IStream.getline stat) as [[line more]|]; [|discriminate].
    destruct (IStream.read_word line) as [[w rest]|].
    + destruct (negb (w =? "cpu")%string); [discriminate|].
      intros H.
      apply (f_equal (fun o => match o with Some s => s | None => snapshot end)) in H.
      cbv beta iota in H. subst snapshot. cbn [idle_ticks total_ticks].
      set (values := Linux.read_values 10 0 rest true (repeat 0 10)).
      assert (C : Forall CellSpec.cell values).
      { apply CellProps.read_values_cell.
        repeat constructor; unfold U64.max, U64.modulus; lia. }
      assert (L : List.length values = 10%nat)
        by (unfold values; now rewrite read_values_length).
      split; [exact L|]. split; [exact C|].
      split; [apply CpuProps.sum_values_eq|]. split; [reflexivity|].
      intros B. rewrite CpuProps.sum_values_eq. unfold U64.add.
      assert (P : Forall (fun x => 0 <= x) values).
      { eapply Forall_impl; [|exact C]. intros v [V _]. exact V. }
      pose proof (idle_le_total values P) as I.
      rewrite firstn_all2 in I by lia.
      rewrite !U64Props.wrap_small
        by (unfold U64.in_range, U64.max in *; lia).
      lia.
    + change (negb ("" =? "cpu")%string) with true. discriminate.
  - intros h stat more fields tail E G F T i Hi. unfold CellSpec.cells.
    rewrite E, G.
    pose proof (CpuProps.fields_text_no_leading_digit fields tail F T) as ND.
    assert (RW : IStream.read_word ("cpu" ++ CpuSpec.fields_text fields tail)
                 = Some ("cpu", CpuSpec.fields_text fields tail)).
    { assert (TW : IStream.take_word (CpuSpec.fields_text fields tail)
                   = ("", CpuSpec.fields_text fields tail)).
      { destruct fields as [|[sep n] rest].
        - simpl. destruct tail as [|c r]; [reflexivity|]. simpl in *.
          apply andb_true_iff in T. destruct T as [-> _]. reflexivity.
        - inversion F as [|? ? [N [B _]] _]; subst. simpl in N, B.
          destruct sep as [|c sep]; [contradiction|]. simpl in *.
          apply andb_true_iff in B. destruct B as [-> _]. reflexivity. }
      unfold IStream.read_word.
      change (IStream.skip_ws ("cpu" ++ CpuSpec.fields_text fields tail))
        with ("cpu" ++ CpuSpec.fields_text fields tail).
      change ("cpu" ++ CpuSpec.fields_text fields tail)
        with (String "c" (String "p" (String "u" (CpuSpec.fields_text fields tail)))).
      rewrite !CpuProps.take_word_cons by reflexivity. now rewrite TW. }
    rewrite RW, CpuProps.read_values_fields by assumption.
    set (ns := map snd fields).
    assert (L : (List.length (firstn 10 (ns ++ [0%Z])%list) <= 10)%nat)
      by (rewrite length_firstn; lia).
    pose proof (CpuProps.store_list_zeros _ [] 10 L) as S.
    cbn [List.length app] in S. rewrite S.
    now apply CpuProps.nth_firstn_app_zero.
Qed.

Lemma sample_cpu_idle_within_total_witness :
  List.length (CellSpec.cells (host_with_stat (Some stat_sample))) = 10%nat /\
  Forall (fun v => 0 <= v <= U64.max)
         (CellSpec.cells (host_with_stat (Some stat_sample))) /\
  1370082 = U64.wrap (CpuSpec.list_sum
                        (CellSpec.cells (host_with_stat (Some stat_sample)))) /\
  1362405 = U64.wrap (nth 3 (CellSpec.cells (host_with_stat (Some stat_sample))) 0
                      + nth 4 (CellSpec.cells (host_with_stat (Some stat_sample))) 0) /\
  (CpuSpec.list_sum (CellSpec.cells (host_with_stat (Some stat_sample))) <= U64.max ->
   1362405 = nth 3 (CellSpec.cells (host_with_stat (Some stat_sample))) 0
             + nth 4 (CellSpec.cells (host_with_stat (Some stat_sample))) 0 /\
   1370082 = CpuSpec.list_sum (CellSpec.cells (host_with_stat (Some stat_sample))) /\
   1362405 <= 1370082).
Proof.
  apply (proj1 sample_cpu_idle_within_total (host_with_stat (Some stat_sample))
           {| idle_ticks := 1362405; total_ticks := 1370082 |}).
  vm_compute. reflexivity.
Defined.

(** [X5] Only the first line of the accounting file is read: what follows
    the first line feed has no effect on the snapshot, and a file that ends
    without a line feed gives the same snapshot as one that ends with
    it. *)
Theorem sample_cpu_reads_first_line_only h1 h2 line more1 more2 :
  ProgramSpec.count_char LF line = O ->
  Linux.proc_stat h1 = Some (line ++ String LF more1) ->
  (Linux.proc_stat h2 = Some (line ++ String LF more2) \/
   (line <> "" /\ Linux.proc_stat h2 = Some line)) ->
  Linux.sample_cpu h1 = Linux.sample_cpu h2.
Proof.
  intros N E1 E2. unfold Linux.sample_cpu. rewrite E1.
  assert (G : forall more, IStream.getline (line ++ String LF more)
                           = Some (line, more)).
  { intros more. unfold IStream.getline.
    rewrite (CellProps.upto_newline_line line more N).
    destruct line; reflexivity. }
  rewrite G. destruct E2 as [E2|[NE E2]]; rewrite E2.
  - now rewrite G.
  - unfold IStream.getline. rewrite (CellProps.upto_newline_last line N).
    destruct line; [contradiction | reflexivity].
Qed.

Lemma sample_cpu_reads_first_line_only_witness :
  Linux.sample_cpu (host_with_stat (Some stat_sample))
  = Linux.sample_cpu
      (host_with_stat (Some "cpu  3357 0 4313 1362393 12 0 7 0 0 0")).
Proof.
  refine (sample_cpu_reads_first_line_only
            (host_with_stat (Some stat_sample))
            (host_with_stat (Some "cpu  3357 0 4313 1362393 12 0 7 0 0 0"))
            "cpu  3357 0 4313 1362393 12 0 7 0 0 0"
            ("cpu0 1678 0 2156 681196 6 0 3 0 0 0" ++ newline) ""
            eq_refl eq_refl (or_intror (conj _ eq_refl))).
  discriminate.
Defined.

(** ** [sample_tasks] and the order of the directory *)

(** [X6] The task count does not depend on the order in which the process
    directory is enumerated. *)
Theorem sample_tasks_order_independent h1 h2 entries1 entries2 :
  Permutation entries1 entries2 ->
  Linux.proc h1 = TaskSpec.listing entries1 ->
  Linux.proc h2 = TaskSpec.listing entries2 ->
  Linux.sample_tasks h1 = Linux.sample_tasks h2.
Proof.
  intros P E1 E2. unfold Linux.sample_tasks. rewrite E1, E2.
  change 0 with (U64.wrap 0).
  rewrite !TaskProps.count_tasks_listing. unfold TaskSpec.task_count.
  now rewrite (SeriesProps.filter_length_perm _ _ _ P).
Qed.

Lemma sample_tasks_order_independent_witness :
  Linux.sample_tasks (host_with_proc sample_proc)
  = Linux.sample_tasks (host_with_proc SeriesSpec.proc_reordered).
Proof.
  refine (sample_tasks_order_independent
            (host_with_proc sample_proc) (host_with_proc SeriesSpec.proc_reordered)
            _ _ _ eq_refl eq_refl).
  apply (Permutation_trans (l' := [("self", true); ("1", true); ("net", true);
                                   ("217", true); ("uptime", false); ("33", false)])).
  { apply perm_swap. }
  apply perm_skip.
  apply (Permutation_trans (l' := [("1", true); ("217", true); ("net", true);
                                   ("uptime", false); ("33", false)])).
  { apply perm_skip. apply perm_swap. }
  apply (Permutation_trans (l' := [("217", true); ("1", true); ("net", true);
                                   ("uptime", false); ("33", false)])).
  { apply perm_swap. }
  do 3 apply perm_skip. apply perm_swap.
Defined.

(** ** [sample_memory] on the text of a memory file *)

Module MeminfoProps.
Import Linux MemSpec MeminfoSpec.

Lemma take_word_token w : forall rest,
  string_forall (fun c => negb (isspace c)) w = true -> word_end rest ->
  IStream.take_word (w ++ rest) = (w, rest).
Proof.
  induction w as [|c w IH]; intros rest N E.
  - destruct rest as [|c r]; [reflexivity|]. simpl in *. now rewrite E.
  - simpl in N. apply andb_true_iff in N. destruct N as [C N].
    apply negb_true_iff in C. cbn [append IStream.take_word]. rewrite C.
    now rewrite IH.
Qed.

Lemma read_word_token sep w rest :
  string_forall isspace sep = true ->
  w <> "" -> string_forall (fun c => negb (isspace c)) w = true ->
  word_end rest ->
  IStream.read_word (sep ++ w ++ rest) = Some (w, rest).
Proof.
  intros B NE N E. unfold IStream.read_word.
  rewrite NumeralProps.skip_ws_blank by exact B.
  assert (S : IStream.skip_ws (w ++ rest) = w ++ rest).
  { destruct w as [|c w]; [contradiction|]. simpl in N.
    apply andb_true_iff in N. destruct N as [C _].
    apply negb_true_iff in C. cbn [append IStream.skip_ws]. now rewrite C. }
  rewrite S, take_word_token by assumption.
  destruct w; [contradiction | reflexivity].
Qed.

Lemma blank_word_end s t :
  s <> "" -> string_forall isspace s = true -> word_end (s ++ t).
Proof.
  destruct s as [|c s]; [contradiction|]. simpl. intros _ B.
  apply andb_true_iff in B. tauto.
Qed.

Lemma dec_token n :
  0 <= n ->
  dec n <> "" /\ string_forall (fun c => negb (isspace c)) (dec n) = true.
Proof.
  intros Hn. split.
  - destruct (NumeralProps.dec_shape n Hn) as (d & ds & _ & -> & _).
    discriminate.
  - pose proof (NumeralProps.dec_all_digits n Hn) as D. revert D.
    generalize (dec n). intros s. induction s as [|c s IH]; [reflexivity|].
    simpl. intros D. apply andb_true_iff in D. destruct D as [C D].
    now rewrite (NumeralProps.isdigit_not_space c C), IH.
Qed.

(** One round on a line with its unit. *)
Lemma read_triplet_line sep l more :
  string_forall isspace sep = true -> good_line l ->
  read_triplet (sep ++ line_text l ++ more)
  = Some (key l, kilobytes l, "kB", newline ++ more).
Proof.
  intros B (K1 & K2 & P1 & P2 & V). unfold read_triplet, line_text.
  rewrite !append_assoc.
  rewrite read_word_token by (try assumption; now apply blank_word_end).
  rewrite NumeralProps.read_u64_dec by (try assumption; reflexivity).
  reflexivity.
Qed.

(** One round on a line without unit: the next key is taken for it. *)
Lemma read_triplet_unitless sep l next more :
  string_forall isspace sep = true -> good_line l -> good_line next ->
  read_triplet (sep ++ unitless_text l ++ line_text next ++ more)
  = Some (key l, kilobytes l, key next,
          pad next ++ dec (kilobytes next) ++ " kB" ++ newline ++ more).
Proof.
  intros B (K1 & K2 & P1 & P2 & V) (N1 & N2 & Q1 & Q2 & _).
  unfold read_triplet, unitless_text, line_text.
  rewrite !append_assoc.
  rewrite read_word_token by (try assumption; now apply blank_word_end).
  rewrite NumeralProps.read_u64_dec by (try assumption; reflexivity).
  cbn [IStream.ex_ok IStream.ex_rest IStream.ex_value].
  rewrite read_word_token
    by (try assumption; try reflexivity; now apply blank_word_end).
  reflexivity.
Qed.

(** The round after it fails: it takes the value for a key. *)
Lemma read_triplet_shifted next more :
  good_line next ->
  read_triplet (pad next ++ dec (kilobytes next) ++ " kB" ++ newline ++ more)
  = None.
Proof.
  intros (_ & _ & _ & Q2 & V). unfold read_triplet.
  destruct (dec_token (kilobytes next) (proj1 V)) as [D1 D2].
  rewrite read_word_token by (try assumption; reflexivity).
  reflexivity.
Qed.

Lemma triplets_fuel f1 : forall f2 s,
  (String.length s < f1)%nat -> (String.length s < f2)%nat ->
  triplets f1 s = triplets f2 s.
Proof.
  induction f1 as [|f1 IH]; intros [|f2] s L1 L2; try lia.
  cbn [triplets].
  destruct (read_triplet s) as [[[[k v] u] rest]|] eqn:E; [|reflexivity].
  apply MemProps.read_triplet_length in E. f_equal. apply IH; lia.
Qed.

Lemma triplets_of_step s k v u rest :
  read_triplet s = Some (k, v, u, rest) ->
  triplets_of s = (k, v, u) :: triplets_of rest.
Proof.
  intros E. unfold triplets_of at 1. cbn [triplets]. rewrite E. f_equal.
  apply MemProps.read_triplet_length in E. unfold triplets_of.
  apply triplets_fuel; lia.
Qed.

Lemma triplets_of_end s : read_triplet s = None -> triplets_of s = [].
Proof. intros E. unfold triplets_of. cbn [triplets]. now rewrite E. Qed.

Lemma triplets_of_lines ls : forall sep tail,
  string_forall isspace sep = true -> Forall good_line ls ->
  exists sep',
    string_forall isspace sep' = true /\
    triplets_of (sep ++ text ls ++ tail)
    = (entries ls ++ triplets_of (sep' ++ tail))%list.
Proof.
  induction ls as [|l ls IH]; intros sep tail B G.
  - exists sep. split; [exact B | reflexivity].
  - inversion G as [|? ? Gl Gls]; subst.
    destruct (IH newline tail eq_refl Gls) as (sep' & B' & E).
    exists sep'. split; [exact B'|].
    cbn [text]. rewrite append_assoc.
    rewrite (triplets_of_step _ _ _ _ _ (read_triplet_line sep l _ B Gl)).
    now rewrite E.
Qed.

Lemma triplets_of_blank sep :
  string_forall isspace sep = true -> triplets_of (sep ++ "") = [].
Proof.
  intros B. apply triplets_of_end. unfold read_triplet, IStream.read_word.
  rewrite NumeralProps.skip_ws_blank by exact B. reflexivity.
Qed.

Lemma find_key_app k ts1 ts2 :
  find_key k (ts1 ++ ts2)%list
  = match find_key k ts1 with Some v => Some v | None => find_key k ts2 end.
Proof.
  induction ts1 as [|[[k1 v1] u1] ts1 IH]; [reflexivity|].
  cbn [app find_key]. destruct (k1 =? k)%string; [reflexivity | exact IH].
Qed.

Lemma count_key_app k ts1 ts2 :
  count_key k (ts1 ++ ts2)%list = (count_key k ts1 + count_key k ts2)%nat.
Proof.
  induction ts1 as [|[[k1 v1] u1] ts1 IH]; [reflexivity|].
  cbn [app count_key]. rewrite IH. lia.
Qed.

Lemma sample_memory_keys h s :
  proc_meminfo h = Some s ->
  (count_key "MemTotal:" (triplets_of s) <= 1)%nat ->
  (count_key "MemAvailable:" (triplets_of s) <= 1)%nat ->
  sample_memory h = Some (status_of_keys (triplets_of s)).
Proof.
  intros E CT CA. rewrite (MemProps.sample_memory_scan h s E).
  rewrite MemProps.scan_list_unique by (try assumption; congruence).
  unfold bytes_of, status_of, status_of_keys.
  destruct (find_key "MemTotal:" _) as [kb|]; [|reflexivity].
  destruct (U64.mul kb 1024 =? 0); reflexivity.
Qed.


Lemma find_key_entries k ls v :
  find_key k (entries ls) = Some v -> exists l, In l ls /\ kilobytes l = v.
Proof.
  induction ls as [|l ls IH]; [discriminate|].
  cbn [entries map find_key]. destruct (key l =? k)%string.
  - intros H; inversion H; subst. exists l. split; [now left | reflexivity].
  - intros H. destruct (IH H) as (l' & I & E). exists l'. split; [now right | exact E].
Qed.

Lemma sample_memory_no_total h s :
  proc_meminfo h = Some s ->
  (forall k v u, In (k, v, u) (triplets_of s) -> k <> "MemTotal:") ->
  sample_memory h = Some MemoryStatus.init.
Proof.
  intros E N. rewrite (MemProps.sample_memory_scan h s E).
  destruct (MemProps.scan_list_origin (triplets_of s) 0 0)
    as [[H|(kb & u & I & _)] _].
  - destruct (scan_list _ _) as [a b]. simpl in H. subst a. reflexivity.
  - exfalso. exact (N _ _ _ I eq_refl).
Qed.

Lemma triplets_of_text ls :
  Forall good_line ls -> triplets_of (text ls) = entries ls.
Proof.
  intros G.
  destruct (triplets_of_lines ls "" "" eq_refl G) as (sep' & B & E).
  cbn [append] in E. rewrite append_nil_r in E.
  rewrite E, (triplets_of_blank sep' B). apply app_nil_r.
Qed.

Lemma triplets_of_unitless ls l next rest :
  Forall good_line ls -> good_line l -> good_line next ->
  triplets_of (text ls ++ unitless_text l ++ text (next :: rest))
  = (entries ls ++ [(key l, kilobytes l, key next)])%list.
Proof.
  intros G Gl Gn.
  destruct (triplets_of_lines ls "" (unitless_text l ++ text (next :: rest))
              eq_refl G) as (sep' & B & E).
  cbn [append] in E. rewrite E. f_equal. cbn [text].
  rewrite (triplets_of_step _ _ _ _ _
             (read_triplet_unitless sep' l next (text rest) B Gl Gn)).
  f_equal. apply triplets_of_end. now apply read_triplet_shifted.
Qed.

End MeminfoProps.

(** [X7] On a memory file made of lines [key pad value kB], the triplets
    read are the lines, in order.  When [MemTotal:] and [MemAvailable:]
    occur at most once each, the status is the one of the first value of
    each key; with [MemTotal:] at [t] kilobytes, [0 < t], and
    [MemAvailable:] at [a] kilobytes, both below [2 ^ 54], the status is
    valid and holds [1024 * t] and [1024 * a]. *)
Theorem sample_memory_of_lines h ls :
  Linux.proc_meminfo h = Some (MeminfoSpec.text ls) ->
  Forall MeminfoSpec.good_line ls ->
  MemSpec.triplets_of (MeminfoSpec.text ls) = MeminfoSpec.entries ls /\
  ((MemSpec.count_key "MemTotal:" (MeminfoSpec.entries ls) <= 1)%nat ->
   (MemSpec.count_key "MemAvailable:" (MeminfoSpec.entries ls) <= 1)%nat ->
   Linux.sample_memory h
   = Some (MeminfoSpec.status_of_keys (MeminfoSpec.entries ls)) /\
   forall t a,
     MemSpec.find_key "MemTotal:" (MeminfoSpec.entries ls) = Some t ->
     MemSpec.find_key "MemAvailable:" (MeminfoSpec.entries ls) = Some a ->
     0 < t < 2 ^ 54 -> a < 2 ^ 54 ->
     Linux.sample_memory h
     = Some {| MemoryStatus.total_bytes := 1024 * t;
               MemoryStatus.available_bytes := 1024 * a;
               MemoryStatus.valid := true |}).
Proof.
  intros E G. pose proof (MeminfoProps.triplets_of_text ls G) as T.
  split; [exact T|]. intros CT CA.
  assert (S : Linux.sample_memory h
              = Some (MeminfoSpec.status_of_keys (MeminfoSpec.entries ls))).
  { rewrite <- T. apply MeminfoProps.sample_memory_keys; rewrite ?T; assumption. }
  split; [exact S|]. intros t a FT FA Ht Ha. rewrite S.
  unfold MeminfoSpec.status_of_keys. rewrite FT, FA.
  destruct (MeminfoProps.find_key_entries _ _ _ FA) as (l & I & EA).
  rewrite Forall_forall in G. destruct (G l I) as (_ & _ & _ & _ & V).
  rewrite EA in V.
  assert (W : forall x, 0 <= x < 2 ^ 54 -> U64.mul x 1024 = 1024 * x).
  { intros x Hx. unfold U64.mul. rewrite U64Props.wrap_small; [lia|].
    unfold U64.in_range, U64.modulus. change (2 ^ 64) with (2 ^ 54 * 1024). lia. }
  rewrite !W by lia.
  destruct (Z.eqb_spec (1024 * t) 0); [lia | reflexivity].
Qed.

Lemma sample_memory_of_lines_witness :
  Linux.sample_memory
    (host_with_meminfo (Some (MeminfoSpec.text MeminfoSpec.meminfo_lines)))
  = Some {| MemoryStatus.total_bytes := 1024 * 16384000;
            MemoryStatus.available_bytes := 1024 * 8000000;
            MemoryStatus.valid := true |}.
Proof.
  refine (proj2 (proj2 (sample_memory_of_lines
                   (host_with_meminfo (Some (MeminfoSpec.text MeminfoSpec.meminfo_lines)))
                   MeminfoSpec.meminfo_lines eq_refl _) _ _)
            16384000 8000000 eq_refl eq_refl _ _).
  - repeat constructor; simpl; try discriminate;
      unfold U64.max, U64.modulus; lia.
  - vm_compute. lia.
  - vm_compute. lia.
  - lia.
  - lia.
Defined.

(** [X8] The scan reads tokens three by three, whatever the line breaks.
    After well-formed lines, a line without unit takes the key of the next
    line for its unit, and the round after that fails on the value of that
    next line: the scan ends there and no later line is read.  If
    [MemTotal:] has not been met by then, the status is invalid, even when
    a later line carries it. *)
Theorem sample_memory_unitless_line h ls l next rest :
  Linux.proc_meminfo h
  = Some (MeminfoSpec.text ls ++ MeminfoSpec.unitless_text l ++
          MeminfoSpec.text (next :: rest)) ->
  Forall MeminfoSpec.good_line ls ->
  MeminfoSpec.good_line l -> MeminfoSpec.good_line next ->
  MemSpec.triplets_of
    (MeminfoSpec.text ls ++ MeminfoSpec.unitless_text l ++
     MeminfoSpec.text (next :: rest))
  = (MeminfoSpec.entries ls ++
     [(MeminfoSpec.key l, MeminfoSpec.kilobytes l, MeminfoSpec.key next)])%list /\
  (MemSpec.find_key "MemTotal:" (MeminfoSpec.entries ls) = None ->
   MeminfoSpec.key l <> "MemTotal:" ->
   Linux.sample_memory h = Some MemoryStatus.init).
Proof.
  intros E G Gl Gn.
  pose proof (MeminfoProps.triplets_of_unitless ls l next rest G Gl Gn) as T.
  split; [exact T|]. intros NT NL.
  apply (MeminfoProps.sample_memory_no_total h _ E).
  rewrite T. intros k v u I. apply in_app_or in I. destruct I as [I|[I|[]]].
  - intros ->. clear -I NT.
    induction ls as [|x ls IH]; [destruct I|].
    cbn [MeminfoSpec.entries map MemSpec.find_key] in NT, I.
    destruct (String.eqb_spec (MeminfoSpec.key x) "MemTotal:") as [K|K];
      [discriminate|].
    destruct I as [I|I]; [inversion I; congruence | now apply IH].
  - inversion I; subst. exact NL.
Qed.

Lemma sample_memory_unitless_line_witness :
  Linux.sample_memory
    (host_with_meminfo
       (Some (MeminfoSpec.text [] ++
              MeminfoSpec.unitless_text MeminfoSpec.hugepages_line ++
              MeminfoSpec.text MeminfoSpec.meminfo_lines)))
  = Some MemoryStatus.init.
Proof.
  refine (proj2 (sample_memory_unitless_line
                   (host_with_meminfo
                      (Some (MeminfoSpec.text [] ++
                             MeminfoSpec.unitless_text MeminfoSpec.hugepages_line ++
                             MeminfoSpec.text MeminfoSpec.meminfo_lines)))
                   [] MeminfoSpec.hugepages_line _ _ eq_refl _ _ _) eq_refl _).
  - constructor.
  - repeat split; simpl; try discriminate; unfold U64.max, U64.modulus; lia.
  - repeat split; simpl; try discriminate; unfold U64.max, U64.modulus; lia.
  - discriminate.
Defined.

Module StopProps.
Import Linux MemSpec MeminfoSpec.

Lemma scan_list_stops a : forall b st,
  both_found st = false ->
  both_found (scan_list a st) = true ->
  scan_list (a ++ b)%list st = scan_list a st.
Proof.
  induction a as [|[[k v] u] a IH]; intros b st F T.
  - cbn [scan_list] in T. congruence.
  - cbn [app scan_list] in *.
    destruct (both_found (update_meminfo k v st)) eqn:E; [reflexivity|].
    now apply IH.
Qed.

End StopProps.

(** [X9] Once both keys have been read with values that are not zero, the
    rest of the memory file is not looked at: after well-formed lines that
    hold [MemTotal:] at [t] kilobytes and [MemAvailable:] at [a] kilobytes,
    once each, with [0 < t, a < 2 ^ 54], the status is valid with [1024 * t]
    and [1024 * a], whatever text follows those lines. *)
Theorem sample_memory_ignores_the_rest h ls tail t a :
  Linux.proc_meminfo h = Some (MeminfoSpec.text ls ++ tail) ->
  Forall MeminfoSpec.good_line ls ->
  (MemSpec.count_key "MemTotal:" (MeminfoSpec.entries ls) <= 1)%nat ->
  (MemSpec.count_key "MemAvailable:" (MeminfoSpec.entries ls) <= 1)%nat ->
  MemSpec.find_key "MemTotal:" (MeminfoSpec.entries ls) = Some t ->
  MemSpec.find_key "MemAvailable:" (MeminfoSpec.entries ls) = Some a ->
  0 < t < 2 ^ 54 -> 0 < a < 2 ^ 54 ->
  Linux.sample_memory h
  = Some {| MemoryStatus.total_bytes := 1024 * t;
            MemoryStatus.available_bytes := 1024 * a;
            MemoryStatus.valid := true |}.
Proof.
  intros E G CT CA FT FA Ht Ha.
  rewrite (MemProps.sample_memory_scan h _ E).
  destruct (MeminfoProps.triplets_of_lines ls "" tail eq_refl G)
    as (sep' & B & T).
  cbn [append] in T. rewrite T.
  assert (W : forall x, 0 <= x < 2 ^ 54 -> U64.mul x 1024 = 1024 * x).
  { intros x Hx. unfold U64.mul. rewrite U64Props.wrap_small; [lia|].
    unfold U64.in_range, U64.modulus. change (2 ^ 64) with (2 ^ 54 * 1024). lia. }
  assert (S : MemSpec.scan_list (MeminfoSpec.entries ls) (0, 0)
              = (1024 * t, 1024 * a)).
  { rewrite MemProps.scan_list_unique by (try assumption; congruence).
    unfold MemSpec.bytes_of. rewrite FT, FA, !W by lia. reflexivity. }
  rewrite StopProps.scan_list_stops; [rewrite S | reflexivity |].
  - unfold Linux.status_of.
    destruct (Z.eqb_spec (1024 * t) 0); [lia | reflexivity].
  - rewrite S. unfold Linux.both_found. cbn [fst snd].
    destruct (Z.eqb_spec (1024 * t) 0); [lia|].
    destruct (Z.eqb_spec (1024 * a) 0); [lia | reflexivity].
Qed.

Lemma sample_memory_ignores_the_rest_witness :
  Linux.sample_memory
    (host_with_meminfo
       (Some (MeminfoSpec.text MeminfoSpec.meminfo_lines ++ "Slab: many kB")))
  = Some {| MemoryStatus.total_bytes := 1024 * 16384000;
            MemoryStatus.available_bytes := 1024 * 8000000;
            MemoryStatus.valid := true |}.
Proof.
  refine (sample_memory_ignores_the_rest
            (host_with_meminfo
               (Some (MeminfoSpec.text MeminfoSpec.meminfo_lines ++ "Slab: many kB")))
            MeminfoSpec.meminfo_lines "Slab: many kB" 16384000 8000000
            eq_refl _ _ _ eq_refl eq_refl _ _).
  - repeat constructor; simpl; try discriminate;
      unfold U64.max, U64.modulus; lia.
  - vm_compute. lia.
  - vm_compute. lia.
  - lia.
  - lia.
Defined.

(** ** [format_uptime] read back *)

Module UptimeProps.
Import IStream NumeralSpec UptimeSpec.

Lemma read_u64_digits d ds rest :
  Forall is_digit_value (d :: ds) ->
  digits_value (d :: ds) 0 <= U64.max ->
  no_leading_digit rest ->
  read_u64 (string_of_digits (d :: ds) ++ rest)
  = {| ex_value := digits_value (d :: ds) 0; ex_ok := true; ex_rest := rest |}.
Proof.
  intros F V R. unfold read_u64.
  pose proof F as F'. inversion F' as [|? ? Hd Hds]; subst.
  pose proof (NumeralProps.digit_char_isdigit d Hd) as Dd.
  assert (S1 : skip_ws (string_of_digits (d :: ds) ++ rest)
               = string_of_digits (d :: ds) ++ rest).
  { unfold string_of_digits. cbn [map string_of_list_ascii append skip_ws].
    now rewrite (NumeralProps.isdigit_not_space _ Dd). }
  rewrite S1.
  assert (S2 : read_sign (string_of_digits (d :: ds) ++ rest)
               = (false, string_of_digits (d :: ds) ++ rest)).
  { unfold string_of_digits. cbn [map string_of_list_ascii append].
    pose proof (NumeralProps.isdigit_not_sign _ Dd) as G.
    destruct (digit_char d) as [[] [] [] [] [] [] [] []]; simpl in *;
      congruence. }
  rewrite S2, NumeralProps.take_digits_numeral by exact F.
  rewrite NumeralProps.take_digits_stop by exact R.
  cbn [negb]. destruct (Z.ltb_spec U64.max (digits_value (d :: ds) 0)); [lia|].
  reflexivity.
Qed.

Lemma read_u64_plain n rest :
  0 <= n <= U64.max -> no_leading_digit rest ->
  read_u64 (dec n ++ rest) = {| ex_value := n; ex_ok := true; ex_rest := rest |}.
Proof. exact (NumeralProps.read_u64_dec "" n rest eq_refl). Qed.

Lemma read_u64_two_digits n rest :
  0 <= n < 100 -> no_leading_digit rest ->
  read_u64 (two_digits n ++ rest)
  = {| ex_value := n; ex_ok := true; ex_rest := rest |}.
Proof.
  intros Hn R.
  pose proof (Z.div_mod n 10 ltac:(lia)) as D.
  pose proof (Z.mod_pos_bound n 10 ltac:(lia)) as B.
  assert (Q : 0 <= n / 10 < 10)
    by (split; [apply Z.div_pos | apply Z.div_lt_upper_bound]; lia).
  change (two_digits n) with (string_of_digits [n / 10; n mod 10]).
  rewrite read_u64_digits.
  - f_equal. unfold digits_value. cbn [fold_left]. lia.
  - repeat constructor; unfold is_digit_value; lia.
  - unfold digits_value, U64.max, U64.modulus. cbn [fold_left]. lia.
  - exact R.
Qed.

Lemma read_clock_two_digits h m :
  0 <= h < 100 -> 0 <= m < 100 ->
  read_clock (two_digits h ++ ":" ++ two_digits m) = Some (h * 3600 + m * 60).
Proof.
  intros Hh Hm. unfold read_clock.
  rewrite read_u64_two_digits by (exact Hh || reflexivity).
  cbn [ex_rest ex_ok ex_value].
  change (strip_prefix ":" (":" ++ two_digits m)) with (Some (two_digits m)).
  cbv iota beta.
  rewrite <- (append_nil_r (two_digits m)).
  rewrite read_u64_two_digits by (exact Hm || exact I).
  reflexivity.
Qed.

(** The pieces of a duration of one minute or more. *)
Lemma format_uptime_pieces seconds :
  60 <= seconds ->
  let days := seconds / 86400 in
  let hours := seconds mod 86400 / 3600 in
  let minutes := seconds mod 86400 mod 3600 / 60 in
  0 <= days /\ 0 <= hours < 24 /\ 0 <= minutes < 60 /\
  days * 86400 + hours * 3600 + minutes * 60 = seconds - seconds mod 60 /\
  format_uptime seconds
  = day_prefix days ++ two_digits hours ++ ":" ++ two_digits minutes.
Proof.
  intros L days hours minutes. subst days hours minutes.
  pose proof (Z.div_mod seconds 86400 ltac:(lia)) as D1.
  pose proof (Z.mod_pos_bound seconds 86400 ltac:(lia)) as B1.
  pose proof (Z.div_mod (seconds mod 86400) 3600 ltac:(lia)) as D2.
  pose proof (Z.mod_pos_bound (seconds mod 86400) 3600 ltac:(lia)) as B2.
  pose proof (Z.div_mod (seconds mod 86400 mod 3600) 60 ltac:(lia)) as D3.
  pose proof (Z.mod_pos_bound (seconds mod 86400 mod 3600) 60 ltac:(lia)) as B3.
  assert (Hd : 0 <= seconds / 86400) by (apply Z.div_pos; lia).
  assert (Hh : 0 <= seconds mod 86400 / 3600 < 24).
  { split; [apply Z.div_pos | apply Z.div_lt_upper_bound]; lia. }
  assert (Hm : 0 <= seconds mod 86400 mod 3600 / 60 < 60).
  { split; [apply Z.div_pos | apply Z.div_lt_upper_bound]; lia. }
  assert (R : seconds mod 60 = seconds mod 86400 mod 3600 mod 60).
  { symmetry.
    apply (Z.mod_unique_pos seconds 60
             (1440 * (seconds / 86400) + 60 * (seconds mod 86400 / 3600)
              + seconds mod 86400 mod 3600 / 60)); lia. }
  split; [exact Hd|]. split; [exact Hh|]. split; [exact Hm|]. split; [lia|].
  unfold format_uptime.
  destruct (seconds <? 60) eqn:E; [apply Z.ltb_lt in E; lia|].
  cbv zeta. rewrite !setw2_fill0 by lia.
  f_equal. unfold day_prefix.
  destruct (Z.ltb_spec 0 (seconds / 86400)) as [E0|E0];
    destruct (Z.eqb_spec (seconds / 86400) 0) as [E1|E1]; try lia;
    [|reflexivity].
  destruct (Z.ltb_spec 1 (seconds / 86400)) as [E2|E2];
    destruct (Z.eqb_spec (seconds / 86400) 1) as [E3|E3]; try lia;
    rewrite ?append_assoc; reflexivity.
Qed.

Lemma decode_format seconds :
  U64.in_range seconds -> decode (format_uptime seconds) = Some (shown seconds).
Proof.
  intros [Lo Hi]. unfold U64.modulus in Hi. unfold shown.
  destruct (Z.ltb_spec seconds 60) as [S|S].
  - unfold format_uptime. destruct (Z.ltb_spec seconds 60); [|lia].
    unfold decode.
    rewrite (read_u64_plain seconds "s")
      by (unfold U64.max, U64.modulus; try lia; reflexivity).
    reflexivity.
  - destruct (format_uptime_pieces seconds S) as (Hd & Hh & Hm & V & ->).
    set (days := seconds / 86400) in *.
    set (hours := seconds mod 86400 / 3600) in *.
    set (minutes := seconds mod 86400 mod 3600 / 60) in *.
    pose proof (read_clock_two_digits hours minutes ltac:(lia) ltac:(lia)) as C.
    unfold day_prefix. destruct (Z.eqb_spec days 0) as [D0|D0].
    + change ("" ++ two_digits hours ++ ":" ++ two_digits minutes)
        with (two_digits hours ++ ":" ++ two_digits minutes).
      unfold decode.
      rewrite read_u64_two_digits by (lia || reflexivity).
      cbn [ex_rest ex_ok ex_value].
      change ((":" ++ two_digits minutes =? "s")%string) with false.
      change (strip_prefix " days, " (":" ++ two_digits minutes)) with (@None string).
      change (strip_prefix " day, " (":" ++ two_digits minutes)) with (@None string).
      cbv iota. rewrite C. f_equal. lia.
    + assert (Dr : 0 <= days <= U64.max).
      { unfold U64.max, U64.modulus.
        pose proof (Z.div_mod seconds 86400 ltac:(lia)).
        pose proof (Z.mod_pos_bound seconds 86400 ltac:(lia)). lia. }
      unfold decode. rewrite !append_assoc.
      destruct (Z.eqb_spec days 1) as [D1|D1].
      * rewrite (read_u64_plain days _ Dr) by reflexivity.
        cbn [ex_rest ex_ok ex_value].
        change ((" day" ++ ", " ++ two_digits hours ++ ":" ++ two_digits minutes
                 =? "s")%string) with false.
        change (strip_prefix " days, "
                  (" day" ++ ", " ++ two_digits hours ++ ":" ++ two_digits minutes))
          with (@None string).
        change (strip_prefix " day, "
                  (" day" ++ ", " ++ two_digits hours ++ ":" ++ two_digits minutes))
          with (Some (two_digits hours ++ ":" ++ two_digits minutes)).
        cbv iota. rewrite C. f_equal. lia.
      * rewrite (read_u64_plain days _ Dr) by reflexivity.
        cbn [ex_rest ex_ok ex_value].
        change ((" days" ++ ", " ++ two_digits hours ++ ":" ++ two_digits minutes
                 =? "s")%string) with false.
        change (strip_prefix " days, "
                  (" days" ++ ", " ++ two_digits hours ++ ":" ++ two_digits minutes))
          with (Some (two_digits hours ++ ":" ++ two_digits minutes)).
        cbv iota. rewrite C. f_equal. lia.
Qed.

End UptimeProps.

(** [X10] The rendering of a duration can be read back: below one minute it
    determines the number of seconds, from one minute on it determines the
    duration up to the dropped seconds.  Two durations with the same text
    therefore differ by less than a minute. *)
Theorem format_uptime_reads_back :
  (forall seconds, U64.in_range seconds ->
     UptimeSpec.decode (format_uptime seconds) = Some (UptimeSpec.shown seconds)) /\
  (forall a b, U64.in_range a -> U64.in_range b ->
     format_uptime a = format_uptime b ->
     UptimeSpec.shown a = UptimeSpec.shown b /\ -60 < a - b < 60).
Proof.
  split; [exact UptimeProps.decode_format|].
  intros a b Ra Rb E.
  pose proof (UptimeProps.decode_format a Ra) as Da.
  pose proof (UptimeProps.decode_format b Rb) as Db.
  rewrite E, Db in Da.
  assert (S : UptimeSpec.shown a = UptimeSpec.shown b) by congruence.
  split; [exact S|]. unfold UptimeSpec.shown in S.
  pose proof (Z.mod_pos_bound a 60 ltac:(lia)).
  pose proof (Z.mod_pos_bound b 60 ltac:(lia)).
  destruct (Z.ltb_spec a 60), (Z.ltb_spec b 60); lia.
Qed.

Lemma format_uptime_reads_back_witness :
  UptimeSpec.decode (format_uptime 93784) = Some (UptimeSpec.shown 93784).
Proof.
  apply (proj1 format_uptime_reads_back 93784).
  unfold U64.in_range, U64.modulus. lia.
Defined.

(** ** [format_memory_mib] in integer arithmetic *)

Module MibProps.
Import Double DoubleSpec DoubleProps.

Lemma nearest_even_scale k a b :
  0 < k -> 0 < b -> nearest_even (k * a) (k * b) = nearest_even a b.
Proof.
  intros K B. unfold nearest_even.
  rewrite Z.div_mul_cancel_l, Z.mul_mod_distr_l by lia.
  replace (2 * (k * (a mod b))) with (k * (2 * (a mod b))) by lia.
  assert (C : (k * (2 * (a mod b)) ?= k * b) = (2 * (a mod b) ?= b)).
  { destruct (Z.compare_spec (2 * (a mod b)) b) as [E|E|E].
    - rewrite E. apply Z.compare_refl.
    - apply Z.compare_lt_iff. nia.
    - apply Z.compare_gt_iff. nia. }
  now rewrite C.
Qed.

Lemma nearest_even_exact q d : 0 < d -> nearest_even (q * d) d = q.
Proof.
  intros D. unfold nearest_even.
  rewrite Z.div_mul, Z.mod_mul by lia.
  destruct (Z.compare_spec (2 * 0) d); [lia | reflexivity | lia].
Qed.

Lemma nearest_even_near num den :
  0 < den -> 2 * Z.abs (num - den * nearest_even num den) <= den.
Proof.
  intros D. unfold nearest_even.
  pose proof (Z.div_mod num den ltac:(lia)) as E.
  pose proof (Z.mod_pos_bound num den D) as B.
  destruct (Z.compare_spec (2 * (num mod den)) den) as [C|C|C];
    [destruct (Z.even (num / den))| |]; lia.
Qed.

(** The tenths printed for a double whose value is [n / 2 ^ 20]. *)
Lemma scaled_magnitude_mib m e n :
  SF2R (S754_finite false m e) = (IZR n / 1048576)%R ->
  scaled_magnitude 1 (S754_finite false m e) = nearest_even (10 * n) 1048576.
Proof.
  cbn [SF2R scaled_magnitude]. change (10 ^ Z.of_nat 1) with 10.
  intros V.
  assert (M : (IZR (Z.pos m) * bpow e * 1048576 = IZR n)%R).
  { rewrite V. field. }
  destruct e as [|p|p].
  - change (bpow 0) with 1%R in M.
    assert (E : n = Z.pos m * 1048576).
    { apply eq_IZR. rewrite mult_IZR. lra. }
    subst n. replace (10 * (Z.pos m * 1048576))
      with (Z.pos m * 10 * 2 ^ 0 * 1048576) by (change (2 ^ 0) with 1; lia).
    now rewrite nearest_even_exact by lia.
  - rewrite (bpow_IZR (Z.pos p)) in M by lia.
    assert (E : n = Z.pos m * 2 ^ Z.pos p * 1048576).
    { apply eq_IZR. rewrite !mult_IZR. lra. }
    subst n. replace (10 * (Z.pos m * 2 ^ Z.pos p * 1048576))
      with (Z.pos m * 10 * 2 ^ Z.pos p * 1048576) by lia.
    now rewrite nearest_even_exact by lia.
  - pose proof (RenderProps.bpow_neg p) as BN.
    pose proof (RenderProps.pow_pos_positive p) as PP.
    assert (E : Z.pos m * 1048576 = n * Z.pow_pos 2 p).
    { apply eq_IZR. rewrite !mult_IZR. rewrite <- M.
      replace (IZR (Z.pos m) * bpow (Z.neg p) * 1048576 * IZR (Z.pow_pos 2 p))%R
        with (IZR (Z.pos m) * 1048576 * (bpow (Z.neg p) * IZR (Z.pow_pos 2 p)))%R
        by ring.
      rewrite BN. ring. }
    rewrite <- (nearest_even_scale 1048576 (Z.pos m * 10) (Z.pow_pos 2 p))
      by lia.
    rewrite <- (nearest_even_scale (Z.pow_pos 2 p) (10 * n) 1048576) by lia.
    f_equal; lia.
Qed.

End MibProps.

(** [X11] Below [2 ^ 53] bytes the text is determined in integer
    arithmetic: it shows the number of tenths of a mebibyte nearest to the
    byte count, a count half-way between two tenths going to the even one.
    A whole number [k] of mebibytes is shown as [k.0]. *)
Theorem format_memory_mib_nearest_tenth :
  (forall bytes, 0 <= bytes < 2 ^ 53 ->
     format_memory_mib bytes
     = dec (Double.nearest_even (10 * bytes) 1048576 / 10) ++ "." ++
       String (digit_char (Double.nearest_even (10 * bytes) 1048576 mod 10)) "") /\
  (forall bytes,
     2 * Z.abs (10 * bytes - 1048576 * Double.nearest_even (10 * bytes) 1048576)
     <= 1048576) /\
  (forall k, 0 <= k < 2 ^ 33 ->
     format_memory_mib (k * 1048576) = dec k ++ ".0").
Proof.
  assert (G : forall bytes, 0 <= bytes < 2 ^ 53 ->
     format_memory_mib bytes
     = dec (Double.nearest_even (10 * bytes) 1048576 / 10) ++ "." ++
       String (digit_char (Double.nearest_even (10 * bytes) 1048576 mod 10)) "").
  { intros bytes [L U].
    destruct (Z.eq_dec bytes 0) as [->|N]; [vm_compute; reflexivity|].
    assert (Hn : 0 < bytes < 2 ^ 64) by lia.
    destruct (RenderProps.mib_exact bytes Hn) as (m & e & E & V).
    destruct (DoubleProps.of_u64_shape bytes Hn) as (_ & _ & _ & _ & _ & _ & X).
    rewrite X in V by lia.
    unfold format_memory_mib. rewrite E, RenderProps.fixed_one_digit.
    now rewrite (MibProps.scaled_magnitude_mib m e bytes V). }
  split; [exact G|]. split; [intros bytes; apply MibProps.nearest_even_near; lia|].
  intros k K. rewrite G by (change (2 ^ 53) with (2 ^ 33 * 1048576); lia).
  replace (10 * (k * 1048576)) with (10 * k * 1048576) by lia.
  rewrite MibProps.nearest_even_exact by lia.
  rewrite (Z.mul_comm 10 k), Z.div_mul, Z.mod_mul by lia. reflexivity.
Qed.

Lemma format_memory_mib_nearest_tenth_witness :
  format_memory_mib (16000 * 1048576) = dec 16000 ++ ".0".
Proof.
  apply (proj2 (proj2 format_memory_mib_nearest_tenth) 16000). lia.
Defined.

(** ** The samplers of the Windows-style build *)

Module WinApiProps.
Import Windows.
Import WinApiSpec.

Lemma land_shifted h l :
  0 <= l < 2 ^ 32 -> Z.land (Z.shiftl h 32) l = 0.
Proof.
  intros L. apply Z.bits_inj'. intros n Hn.
  rewrite Z.land_spec, Z.bits_0.
  destruct (Z.lt_ge_cases n 32) as [S|S].
  - rewrite Z.shiftl_spec_low by exact S. reflexivity.
  - assert (T : Z.testbit l n = false).
    { destruct (Z.eq_dec l 0) as [->|NZ]; [apply Z.bits_0|].
      apply Z.bits_above_log2; [lia|].
      assert (Z.log2 l < 32) by (apply Z.log2_lt_pow2; lia). lia. }
    rewrite T. apply andb_false_r.
Qed.

Lemma file_time_value ft :
  dwords ft ->
  file_time_to_uint64 ft = dwHighDateTime ft * 2 ^ 32 + dwLowDateTime ft.
Proof.
  intros [L H]. unfold file_time_to_uint64.
  pose proof (Z.add_lor_land (Z.shiftl (dwHighDateTime ft) 32) (dwLowDateTime ft)) as A.
  rewrite land_shifted in A by exact L.
  rewrite Z.shiftl_mul_pow2 in * by lia. lia.
Qed.

Lemma file_time_range ft : dwords ft -> 0 <= file_time_to_uint64 ft < 2 ^ 64.
Proof.
  intros D. rewrite (file_time_value ft D). destruct D as [L H].
  change (2 ^ 64) with (2 ^ 32 * 2 ^ 32). nia.
Qed.

(** The loop on a system of [n] processes, from a buffer of
    [1024 * 2 ^ j] identifiers. *)
Lemma enum_loop_counts h n (C : enumerates h n) (N : 0 <= n < 2 ^ 29) :
  forall d j fuel,
    (j + d = 19)%nat -> (d < fuel)%nat ->
    1024 * 2 ^ Z.of_nat j <= 2 * n + 1024 ->
    enum_loop fuel h (1024 * 2 ^ Z.of_nat j)
    = Some {| TaskSummary.total := n; TaskSummary.valid := true |}.
Proof.
  induction d as [|d IH]; intros j fuel J F B;
    (destruct fuel as [|fuel]; [lia|]); cbn [enum_loop]; rewrite C;
    set (size := 1024 * 2 ^ Z.of_nat j) in *;
    assert (P : 0 < 2 ^ Z.of_nat j) by (apply Z.pow_pos_nonneg; lia);
    assert (U : 2 ^ Z.of_nat j <= 2 ^ 19) by (apply Z.pow_le_mono_r; lia);
    assert (M : (size * sizeof_DWORD) mod 2 ^ 32 = size * 4)
      by (apply Z.mod_small; unfold sizeof_DWORD, size;
          change (2 ^ 32) with (4096 * 2 ^ 19 * 2); lia);
    rewrite M; unfold sizeof_DWORD; rewrite Z.div_mul by lia;
    rewrite (Z.mul_comm 4), Z.div_mul by lia.
  - assert (j = 19%nat) by lia. subst j.
    assert (n < size) by (unfold size; change (2 ^ Z.of_nat 19) with (2 ^ 19);
                          change (2 ^ 29) with (1024 * 2 ^ 19) in N; lia).
    rewrite Z.min_r by lia.
    destruct (Z.ltb_spec n size); [reflexivity | lia].
  - destruct (Z.le_gt_cases size n) as [G|G].
    + rewrite Z.min_l by lia.
      destruct (Z.ltb_spec size size); [lia|].
      replace (size * 2) with (1024 * 2 ^ Z.of_nat (S j)).
      * apply IH; [lia | lia |].
        rewrite Nat2Z.inj_succ, Z.pow_succ_r by lia. unfold size in G. lia.
      * rewrite Nat2Z.inj_succ, Z.pow_succ_r by lia. unfold size. lia.
    + rewrite Z.min_r by lia.
      destruct (Z.ltb_spec n size); [reflexivity | lia].
Qed.

End WinApiProps.

(** [X12] [file_time_to_uint64] packs the two 32-bit halves without loss: the
    result is [high * 2 ^ 32 + low], it fits in 64 bits, and both halves
    can be read back from it. *)
Theorem file_time_to_uint64_packs ft :
  WinApiSpec.dwords ft ->
  Windows.file_time_to_uint64 ft
  = Windows.dwHighDateTime ft * 2 ^ 32 + Windows.dwLowDateTime ft /\
  0 <= Windows.file_time_to_uint64 ft < 2 ^ 64 /\
  Windows.file_time_to_uint64 ft mod 2 ^ 32 = Windows.dwLowDateTime ft /\
  Windows.file_time_to_uint64 ft / 2 ^ 32 = Windows.dwHighDateTime ft.
Proof.
  intros D. pose proof (WinApiProps.file_time_range ft D) as R.
  rewrite (WinApiProps.file_time_value ft D) in *. destruct D as [L H].
  split; [reflexivity|]. split; [exact R|]. split.
  - rewrite Z.add_comm, Z.mod_add by lia. apply Z.mod_small. exact L.
  - rewrite Z.div_add_l by lia. rewrite Z.div_small by exact L. lia.
Qed.

Lemma file_time_to_uint64_packs_witness :
  Windows.file_time_to_uint64
    {| Windows.dwLowDateTime := 3489660928; Windows.dwHighDateTime := 31000000 |}
  = 31000000 * 2 ^ 32 + 3489660928.
Proof.
  refine (proj1 (file_time_to_uint64_packs
    {| Windows.dwLowDateTime := 3489660928; Windows.dwHighDateTime := 31000000 |} _)).
  unfold WinApiSpec.dwords. simpl. lia.
Defined.

(** [X13] On the Windows-style build, for system times whose halves are
    32-bit values: when idle, kernel and user time did not decrease between
    two calls, the idle time grew by no more than the kernel time (which
    contains it), the later kernel and user times sum to less than
    [2 ^ 64], and twenty-five times the growth of that sum stays below
    [2 ^ 53], the usage derived from the two samples lies between 0 and
    100. *)
Theorem windows_usage_of_successive_samples h1 h2 i1 k1 u1 i2 k2 u2 :
  Windows.GetSystemTimes h1 = Some (i1, k1, u1) ->
  Windows.GetSystemTimes h2 = Some (i2, k2, u2) ->
  WinApiSpec.dwords i1 -> WinApiSpec.dwords k1 -> WinApiSpec.dwords u1 ->
  WinApiSpec.dwords i2 -> WinApiSpec.dwords k2 -> WinApiSpec.dwords u2 ->
  Windows.file_time_to_uint64 i1 <= Windows.file_time_to_uint64 i2 ->
  Windows.file_time_to_uint64 k1 <= Windows.file_time_to_uint64 k2 ->
  Windows.file_time_to_uint64 u1 <= Windows.file_time_to_uint64 u2 ->
  Windows.file_time_to_uint64 i2 - Windows.file_time_to_uint64 i1
    <= Windows.file_time_to_uint64 k2 - Windows.file_time_to_uint64 k1 ->
  Windows.file_time_to_uint64 k2 + Windows.file_time_to_uint64 u2 < 2 ^ 64 ->
  25 * (Windows.file_time_to_uint64 k2 + Windows.file_time_to_uint64 u2
        - (Windows.file_time_to_uint64 k1 + Windows.file_time_to_uint64 u1))
    < 2 ^ 53 ->
  exists s1 s2,
    Windows.sample_cpu h1 = Some s1 /\ Windows.sample_cpu h2 = Some s2 /\
    Double.leb Double.zero (compute_cpu_usage s1 s2) = true /\
    Double.leb (compute_cpu_usage s1 s2) Double.hundred = true /\
    (0 <= DoubleSpec.SF2R (compute_cpu_usage s1 s2) <= 100)%R.
Proof.
  intros E1 E2 Di1 Dk1 Du1 Di2 Dk2 Du2.
  unfold Windows.sample_cpu. rewrite E1, E2.
  pose proof (WinApiProps.file_time_range _ Di1).
  pose proof (WinApiProps.file_time_range _ Dk1).
  pose proof (WinApiProps.file_time_range _ Du1).
  pose proof (WinApiProps.file_time_range _ Di2).
  pose proof (WinApiProps.file_time_range _ Dk2).
  pose proof (WinApiProps.file_time_range _ Du2).
  revert H H0 H1 H2 H3 H4.
  generalize (Windows.file_time_to_uint64 i1) (Windows.file_time_to_uint64 k1)
             (Windows.file_time_to_uint64 u1) (Windows.file_time_to_uint64 i2)
             (Windows.file_time_to_uint64 k2) (Windows.file_time_to_uint64 u2).
  intros a1 b1 c1 a2 b2 c2 R1 R2 R3 R4 R5 R6 LI LK LU ID B S.
  assert (W : forall x, 0 <= x < 2 ^ 64 -> U64.wrap x = x)
    by (intros x Hx; apply U64Props.wrap_small; exact Hx).
  eexists _, _. split; [reflexivity|]. split; [reflexivity|].
  unfold compute_cpu_usage. cbn [idle_ticks total_ticks].
  unfold U64.add. rewrite !(W (b1 + c1)), !(W (b2 + c2)) by lia.
  unfold U64.sub.
  rewrite !(W (b2 + c2 - (b1 + c1))), !(W (a2 - a1)) by lia.
  destruct (Z.eqb_spec (b2 + c2 - (b1 + c1)) 0) as [Z0|NZ].
  { repeat split; try reflexivity; simpl; lra. }
  rewrite !(W (b2 + c2 - (b1 + c1) - (a2 - a1))) by lia.
  apply UsageProps.quotient_range; lia.
Qed.

Lemma windows_usage_of_successive_samples_witness :
  exists s1 s2,
    Windows.sample_cpu
      (WinApiSpec.host_with_times SeriesSpec.idle_time_1
         SeriesSpec.kernel_time_1 SeriesSpec.user_time_1) = Some s1 /\
    Windows.sample_cpu
      (WinApiSpec.host_with_times SeriesSpec.idle_time_2
         SeriesSpec.kernel_time_2 SeriesSpec.user_time_2) = Some s2 /\
    Double.leb Double.zero (compute_cpu_usage s1 s2) = true /\
    Double.leb (compute_cpu_usage s1 s2) Double.hundred = true /\
    (0 <= DoubleSpec.SF2R (compute_cpu_usage s1 s2) <= 100)%R.
Proof.
  refine (windows_usage_of_successive_samples
            (WinApiSpec.host_with_times SeriesSpec.idle_time_1
               SeriesSpec.kernel_time_1 SeriesSpec.user_time_1)
            (WinApiSpec.host_with_times SeriesSpec.idle_time_2
               SeriesSpec.kernel_time_2 SeriesSpec.user_time_2)
            _ _ _ _ _ _ eq_refl eq_refl _ _ _ _ _ _ _ _ _ _ _ _);
    try (unfold WinApiSpec.dwords; simpl; lia);
    vm_compute; try reflexivity; discriminate.
Defined.

(** [X14] On the Windows-style build, when [EnumProcesses] never reports
    more bytes than the buffer it is given can hold, the doubling loop of
    [sample_tasks] ends within twenty-one calls: the byte size passed to the
    call is a 32-bit value, zero after twenty doublings. *)
Theorem windows_sample_tasks_terminates h :
  WindowsSpec.within_buffer h ->
  exists r, Windows.sample_tasks 21 h = Some r.
Proof.
  intros C. unfold Windows.sample_tasks.
  exact (WindowsProps.enum_loop_returns h C 20 0 21 eq_refl ltac:(lia)).
Qed.

Lemma windows_sample_tasks_terminates_witness :
  exists r, Windows.sample_tasks 21 (SeriesSpec.host_with_buffer_limit 300) = Some r.
Proof.
  apply (windows_sample_tasks_terminates (SeriesSpec.host_with_buffer_limit 300)).
  intros cb b. simpl. destruct (Z.ltb_spec cb 0); [discriminate|].
  intros E. inversion E. lia.
Defined.

(** [X15] On the Windows-style build, on a system of [n] processes with
    [n < 2 ^ 29], where [EnumProcesses] fills the buffer with as many
    identifiers as fit, [sample_tasks] returns a valid summary whose total
    is exactly [n], after at most twenty calls. *)
Theorem windows_sample_tasks_counts h n :
  WinApiSpec.enumerates h n -> 0 <= n < 2 ^ 29 ->
  Windows.sample_tasks 20 h
  = Some {| TaskSummary.total := n; TaskSummary.valid := true |}.
Proof.
  intros C N. unfold Windows.sample_tasks.
  exact (WinApiProps.enum_loop_counts h n C N 19 0 20 eq_refl ltac:(lia)
           ltac:(change (2 ^ Z.of_nat 0) with 1; lia)).
Qed.

Lemma windows_sample_tasks_counts_witness :
  Windows.sample_tasks 20 (WinApiSpec.host_with_processes 2500)
  = Some {| TaskSummary.total := 2500; TaskSummary.valid := true |}.
Proof.
  apply (windows_sample_tasks_counts (WinApiSpec.host_with_processes 2500) 2500).
  - intros cb. reflexivity.
  - lia.
Defined.

(** ** The console *)

(** [X16] [enable_virtual_terminal_processing] returns [true] only with the
    virtual terminal flag set in the console mode it leaves, and it changes
    no other bit of the mode; when it returns [false] the console is as it
    was.  After a success a second call succeeds and changes nothing. *)
Theorem enable_virtual_terminal_processing_sets_flag c :
  let '(ok, c') := Console.enable_virtual_terminal_processing c in
  (ok = true ->
   exists m m',
     Console.mode c = Some m /\ Console.mode c' = Some m' /\
     Z.testbit m' 2 = true /\
     (forall i, i <> 2 -> Z.testbit m' i = Z.testbit m i) /\
     Console.enable_virtual_terminal_processing c' = (true, c')) /\
  (ok = false -> c' = c).
Proof.
  unfold Console.enable_virtual_terminal_processing.
  destruct (Console.handle_valid c) eqn:HV; cbn [negb];
    [|split; [discriminate | reflexivity]].
  destruct (Console.mode c) as [m|] eqn:M;
    [|split; [discriminate | reflexivity]].
  assert (B : forall x, Z.testbit (Z.land x Console.ENABLE_VIRTUAL_TERMINAL_PROCESSING) 2
                        = Z.testbit x 2).
  { intros x. rewrite Z.land_spec. change (Z.testbit _ 2) with true at 2.
    apply andb_true_r. }
  assert (L : forall x, Z.land x Console.ENABLE_VIRTUAL_TERMINAL_PROCESSING <> 0 ->
                        Z.testbit x 2 = true).
  { intros x N. destruct (Z.testbit x 2) eqn:T; [reflexivity|].
    exfalso. apply N. apply Z.bits_inj'. intros n Hn.
    rewrite Z.land_spec, Z.bits_0.
    destruct (Z.eq_dec n 2) as [->|D]; [now rewrite T|].
    replace (Z.testbit Console.ENABLE_VIRTUAL_TERMINAL_PROCESSING n) with false;
      [apply andb_false_r|].
    symmetry. change Console.ENABLE_VIRTUAL_TERMINAL_PROCESSING with (2 ^ 2).
    apply Z.pow2_bits_false. congruence. }
  destruct (Z.eqb_spec (Z.land m Console.ENABLE_VIRTUAL_TERMINAL_PROCESSING) 0)
    as [E|N]; cbn [negb].
  - destruct (Console.accepts_mode c) eqn:A; [|split; [discriminate | reflexivity]].
    split; [intros _ | discriminate].
    exists m, (Z.lor m Console.ENABLE_VIRTUAL_TERMINAL_PROCESSING).
    cbn [Console.mode Console.handle_valid Console.accepts_mode negb].
    split; [reflexivity|]. split; [reflexivity|].
    assert (T : Z.testbit (Z.lor m Console.ENABLE_VIRTUAL_TERMINAL_PROCESSING) 2 = true).
    { rewrite Z.lor_spec. apply orb_true_r. }
    split; [exact T|]. split.
    + intros i D. rewrite Z.lor_spec.
      change Console.ENABLE_VIRTUAL_TERMINAL_PROCESSING with (2 ^ 2).
      rewrite Z.pow2_bits_false by congruence. apply orb_false_r.
    + destruct (Z.eqb_spec
                  (Z.land (Z.lor m Console.ENABLE_VIRTUAL_TERMINAL_PROCESSING)
                          Console.ENABLE_VIRTUAL_TERMINAL_PROCESSING) 0) as [E'|_];
        [|reflexivity].
      exfalso. pose proof (B (Z.lor m Console.ENABLE_VIRTUAL_TERMINAL_PROCESSING)) as B'.
      rewrite E', T in B'. rewrite Z.bits_0 in B'. discriminate.
  - split; [intros _ | discriminate].
    exists m, m. rewrite M. cbn [negb].
    split; [reflexivity|]. split; [reflexivity|].
    split; [now apply L|]. split; [reflexivity|].
    rewrite HV. cbn [negb].
    destruct (Z.eqb_spec (Z.land m Console.ENABLE_VIRTUAL_TERMINAL_PROCESSING) 0);
      [contradiction | reflexivity].
Qed.

Lemma enable_virtual_terminal_processing_sets_flag_witness :
  exists m m',
    Console.mode (ConsoleSpec.console_with_mode 3) = Some m /\
    Console.mode
      (snd (Console.enable_virtual_terminal_processing
              (ConsoleSpec.console_with_mode 3))) = Some m' /\
    Z.testbit m' 2 = true /\
    (forall i, i <> 2 -> Z.testbit m' i = Z.testbit m i) /\
    Console.enable_virtual_terminal_processing
      (snd (Console.enable_virtual_terminal_processing
              (ConsoleSpec.console_with_mode 3)))
    = (true, snd (Console.enable_virtual_terminal_processing
                    (ConsoleSpec.console_with_mode 3))).
Proof.
  pose proof (enable_virtual_terminal_processing_sets_flag
                (ConsoleSpec.console_with_mode 3)) as H.
  change (Console.enable_virtual_terminal_processing
            (ConsoleSpec.console_with_mode 3))
    with (true, ConsoleSpec.console_with_mode 7) in *.
  exact (proj1 H eq_refl).
Defined.

(** ** The main loop *)

Module ProgramProps.
Import Program ProgramSpec.

Section Build.

Variable host : Type.
Variable sample_cpu : host -> option CpuSnapshot.
Variable sample_memory : host -> option MemoryStatus.t.
Variable sample_tasks : host -> option TaskSummary.t.
Variable sample_load_averages : host -> LoadAverages.t.
Variable uptime_seconds : host -> option Z.

Local Abbreviation loop :=
  (main_loop host sample_cpu sample_memory sample_tasks
             sample_load_averages uptime_seconds).

(** The state of the loop is what it wrote and the snapshot it keeps. *)
Lemma main_loop_app xs : forall ys prev out,
  loop prev (xs ++ ys)%list out
  = match loop prev xs out with
    | running out' prev' => loop prev' ys out'
    | r => r
    end.
Proof.
  induction xs as [|[h t] xs IH]; intros ys prev out; [reflexivity|].
  cbn [app main_loop].
  destruct (sample_cpu h) as [cur|]; [|reflexivity].
  destruct (sample_memory h), (sample_tasks h), (uptime_seconds h);
    try reflexivity.
  apply IH.
Qed.

Lemma main_loop_exit rounds : forall prev out status out' err,
  loop prev rounds out = exited status out' err ->
  status = 1 /\ err = failure_message /\
  exists h t, In (h, t) rounds /\ sample_cpu h = None.
Proof.
  induction rounds as [|[h t] rounds IH]; intros prev out status out' err;
    cbn [main_loop]; [discriminate|].
  destruct (sample_cpu h) as [cur|] eqn:C.
  - destruct (sample_memory h), (sample_tasks h), (uptime_seconds h);
      try discriminate.
    intros H. destruct (IH _ _ _ _ _ H) as (S & E & h' & t' & I & N).
    split; [exact S|]. split; [exact E|]. exists h', t'. split; [now right | exact N].
  - intros H. inversion H; subst. split; [reflexivity|]. split; [reflexivity|].
    exists h, t. split; [now left | exact C].
Qed.

Lemma main_loop_runs rounds : forall prev out,
  (forall h t, In (h, t) rounds ->
     sample_cpu h <> None /\ sample_memory h <> None /\
     sample_tasks h <> None /\ uptime_seconds h <> None) ->
  exists out' prev', loop prev rounds out = running out' prev'.
Proof.
  induction rounds as [|[h t] rounds IH]; intros prev out A;
    cbn [main_loop]; [eauto|].
  destruct (A h t (or_introl eq_refl)) as (C & M & T & U).
  destruct (sample_cpu h); [|contradiction].
  destruct (sample_memory h); [|contradiction].
  destruct (sample_tasks h); [|contradiction].
  destruct (uptime_seconds h); [|contradiction].
  apply IH. intros h' t' I. apply (A h' t'). now right.
Qed.

End Build.

(** No line feed in a text. *)
Lemma count_char_app c a b :
  count_char c (a ++ b) = (count_char c a + count_char c b)%nat.
Proof.
  induction a as [|x a IH]; [reflexivity|]. cbn [append count_char].
  rewrite IH. lia.
Qed.

Lemma count_char_forall p c s :
  string_forall p s = true -> p c = false -> count_char c s = O.
Proof.
  intros F N. induction s as [|x s IH]; [reflexivity|].
  cbn [string_forall count_char] in *.
  apply andb_true_iff in F. destruct F as [X F].
  destruct (Ascii.eqb_spec x c) as [->|_]; [congruence|].
  now rewrite IH.
Qed.

Lemma dec_digits_any fuel : forall n,
  Forall NumeralSpec.is_digit_value (dec_digits fuel n).
Proof.
  induction fuel as [|fuel IH]; intros n; simpl; [constructor|].
  constructor.
  - unfold NumeralSpec.is_digit_value. apply Z.mod_pos_bound. lia.
  - destruct (n / 10 =? 0); [constructor | apply IH].
Qed.

Lemma dec_no_lf n : count_char LF (dec n) = O.
Proof.
  apply (count_char_forall isdigit); [|reflexivity].
  apply NumeralProps.string_of_digits_all_digits.
  apply Forall_rev. apply dec_digits_any.
Qed.

Lemma fill_no_lf n : count_char LF (fill n "0") = O.
Proof. induction n as [|n IH]; [reflexivity | exact IH]. Qed.

Lemma setw_no_lf w n : count_char LF (setw_setfill w "0" (dec n)) = O.
Proof.
  unfold setw_setfill. now rewrite count_char_app, fill_no_lf, dec_no_lf.
Qed.

Lemma fixed_no_lf precision d : count_char LF (Double.fixed precision d) = O.
Proof.
  unfold Double.fixed. rewrite count_char_app.
  assert (S : count_char LF (if Double.sign_bit d then "-" else "") = O)
    by (destruct (Double.sign_bit d); reflexivity).
  rewrite S.
  assert (G : forall t : Z,
             count_char LF
               (dec (t / 10 ^ Z.of_nat precision) ++
                match precision with
                | O => ""
                | S _ => "." ++ setw_setfill precision "0"
                                  (dec (t mod 10 ^ Z.of_nat precision))
                end) = O).
  { intros t. rewrite count_char_app, dec_no_lf.
    destruct precision; [reflexivity|].
    now rewrite count_char_app, setw_no_lf. }
  destruct d; try reflexivity; apply G.
Qed.

Lemma format_uptime_no_lf seconds : count_char LF (format_uptime seconds) = O.
Proof.
  unfold format_uptime. destruct (seconds <? 60).
  - now rewrite count_char_app, dec_no_lf.
  - cbv zeta. rewrite !count_char_app, !setw_no_lf.
    destruct (0 <? seconds / 86400); [|reflexivity].
    rewrite !count_char_app, dec_no_lf.
    destruct (1 <? seconds / 86400); reflexivity.
Qed.

Lemma format_memory_mib_no_lf bytes :
  count_char LF (format_memory_mib bytes) = O.
Proof. apply fixed_no_lf. Qed.

Lemma current_time_string_no_lf t : count_char LF (current_time_string t) = O.
Proof.
  unfold current_time_string. now rewrite !count_char_app, !setw_no_lf.
Qed.

End ProgramProps.

(** [X17] [main] returns only after a failed CPU sample, with status 1 and
    the failure message on the error stream, on whatever build.  It does so
    at the first round whose CPU sample fails, with the frames written so
    far and without looking at any later round. *)
Theorem main_returns_on_cpu_failure
    host sample_cpu sample_memory sample_tasks sample_load_averages
    uptime_seconds :
  let main := Program.main host sample_cpu sample_memory sample_tasks
                           sample_load_averages uptime_seconds in
  (forall first rounds status out err,
     main first rounds = Program.exited status out err ->
     status = 1 /\ err = Program.failure_message /\
     (sample_cpu first = None \/
      exists h t, In (h, t) rounds /\ sample_cpu h = None)) /\
  (forall first before h t after out prev,
     main first before = Program.running out prev ->
     sample_cpu h = None ->
     main first (before ++ (h, t) :: after)%list
     = Program.exited 1 out Program.failure_message).
Proof.
  cbv zeta. split.
  - intros first rounds status out err. unfold Program.main.
    destruct (sample_cpu first) as [prev|] eqn:C.
    + intros H.
      destruct (ProgramProps.main_loop_exit _ _ _ _ _ _ _ _ _ _ _ _ H)
        as (S & E & X).
      auto.
    + intros H. inversion H; subst. auto.
  - intros first before h t after out prev. unfold Program.main.
    destruct (sample_cpu first) as [p|]; [|discriminate].
    intros R C. rewrite ProgramProps.main_loop_app, R.
    cbn [Program.main_loop]. now rewrite C.
Qed.

Lemma main_returns_on_cpu_failure_witness :
  Program.linux_main (host_with_stat (Some stat_sample))
    ([] ++ (host_with_stat None, ProgramSpec.noon) :: [])%list
  = Program.exited 1 "" Program.failure_message.
Proof.
  refine (proj2 (main_returns_on_cpu_failure Linux.host Linux.sample_cpu
                   Linux.sample_memory (fun h => Some (Linux.sample_tasks h))
                   Linux.sample_load_averages Linux.uptime_seconds)
            (host_with_stat (Some stat_sample)) [] (host_with_stat None)
            ProgramSpec.noon [] "" {| idle_ticks := 1362405; total_ticks := 1370082 |}
            _ eq_refl).
  vm_compute. reflexivity.
Defined.

(** [X18] A round whose CPU sample succeeds, and whose other samplers have
    a defined result, appends one frame to what was written and keeps the
    new snapshot: the screen is cleared, and the usage shown is the one
    derived from the snapshot kept by the round before and the new one.
    While every round is such, [main] stays in its loop. *)
Theorem main_appends_one_frame
    host sample_cpu sample_memory sample_tasks sample_load_averages
    uptime_seconds :
  let main := Program.main host sample_cpu sample_memory sample_tasks
                           sample_load_averages uptime_seconds in
  (forall first before h t out prev current memory tasks uptime,
     main first before = Program.running out prev ->
     sample_cpu h = Some current ->
     sample_memory h = Some memory ->
     sample_tasks h = Some tasks ->
     uptime_seconds h = Some uptime ->
     main first (before ++ [(h, t)])%list
     = Program.running
         (out ++ clear_screen ++
          Program.render (current_time_string t) uptime
            (sample_load_averages h) tasks
            (compute_cpu_usage prev current) memory)
         current) /\
  (forall first rounds,
     sample_cpu first <> None ->
     (forall h t, In (h, t) rounds ->
        sample_cpu h <> None /\ sample_memory h <> None /\
        sample_tasks h <> None /\ uptime_seconds h <> None) ->
     exists out prev, main first rounds = Program.running out prev).
Proof.
  cbv zeta. split.
  - intros first before h t out prev current memory tasks uptime.
    unfold Program.main.
    destruct (sample_cpu first) as [p|]; [|discriminate].
    intros R C M T U. rewrite ProgramProps.main_loop_app, R.
    cbn [Program.main_loop]. now rewrite C, M, T, U.
  - intros first rounds F A. unfold Program.main.
    destruct (sample_cpu first) as [p|]; [|contradiction].
    now apply ProgramProps.main_loop_runs.
Qed.

Lemma main_appends_one_frame_witness :
  exists out prev,
    Program.linux_main (host_with_stat (Some stat_sample))
      [(ProgramSpec.host_with_stat_uptime ProgramSpec.stat_later
          FieldSpec.uptime_sample, ProgramSpec.noon)]
    = Program.running out prev.
Proof.
  refine (proj2 (main_appends_one_frame Linux.host Linux.sample_cpu
                   Linux.sample_memory (fun h => Some (Linux.sample_tasks h))
                   Linux.sample_load_averages Linux.uptime_seconds)
            (host_with_stat (Some stat_sample)) _ _ _).
  - vm_compute. discriminate.
  - intros h t [E|[]]. inversion E; subst.
    repeat split; vm_compute; discriminate.
Defined.

(** [X19] On either build the program stays in its loop for as long as the
    CPU statistics can be read: on the Linux-style build when, besides, the
    uptime read converts to a 64-bit count; on the Windows-style build when
    [EnumProcesses] never reports more bytes than the buffer holds. *)
Theorem builds_keep_running :
  (forall first rounds,
     Linux.sample_cpu first <> None ->
     (forall h t, In (h, t) rounds ->
        Linux.sample_cpu h <> None /\ Linux.uptime_seconds h <> None) ->
     exists out prev, Program.linux_main first rounds = Program.running out prev) /\
  (forall console first rounds,
     Windows.GetSystemTimes first <> None ->
     (forall h t, In (h, t) rounds ->
        Windows.GetSystemTimes h <> None /\ WindowsSpec.within_buffer h) ->
     exists out prev,
       snd (Program.windows_main console first rounds) = Program.running out prev).
Proof.
  split.
  - intros first rounds F A. unfold Program.linux_main, Program.main.
    destruct (Linux.sample_cpu first) as [p|]; [|contradiction].
    apply ProgramProps.main_loop_runs. intros h t I.
    destruct (A h t I) as [C U].
    split; [exact C|]. split; [|split; [discriminate | exact U]].
    destruct (Linux.proc_meminfo h) as [s|] eqn:E.
    + rewrite (MemProps.sample_memory_scan h s E). discriminate.
    + unfold Linux.sample_memory. rewrite E. discriminate.
  - intros console first rounds F A.
    unfold Program.windows_main, Program.main. cbn [snd].
    assert (C : forall h, Windows.GetSystemTimes h <> None ->
                          Windows.sample_cpu h <> None).
    { intros h. unfold Windows.sample_cpu.
      destruct (Windows.GetSystemTimes h) as [[[i k] u]|];
        [discriminate | contradiction]. }
    destruct (Windows.sample_cpu first) as [p|] eqn:S;
      [|exfalso; now apply (C first F)].
    apply ProgramProps.main_loop_runs. intros h t I.
    destruct (A h t I) as [G B].
    split; [now apply C|]. split; [discriminate|]. split; [|discriminate].
    unfold Windows.sample_tasks.
    destruct (WindowsProps.enum_loop_returns h B 20 0 21 eq_refl ltac:(lia))
      as [r R].
    change (1024 * 2 ^ Z.of_nat 0) with 1024 in R. rewrite R. discriminate.
Qed.

Lemma builds_keep_running_witness :
  exists out prev,
    snd (Program.windows_main (ConsoleSpec.console_with_mode 3)
           (ProgramSpec.windows_host SeriesSpec.idle_time_1
              SeriesSpec.kernel_time_1 SeriesSpec.user_time_1 5000)
           [(ProgramSpec.windows_host SeriesSpec.idle_time_2
               SeriesSpec.kernel_time_2 SeriesSpec.user_time_2 6000,
             ProgramSpec.noon)])
    = Program.running out prev.
Proof.
  refine (proj2 builds_keep_running _ _ _ _ _).
  - discriminate.
  - intros h t [E|[]]. inversion E; subst. split; [discriminate|].
    intros cb b. simpl. destruct (Z.ltb_spec cb 0); [discriminate|].
    intros K. inversion K. lia.
Defined.

(** ** The frame *)

Ltac hide t lemma :=
  let H := fresh "H" in
  pose proof lemma as H; revert H; generalize t; intros ? H.

(** [X20] Whatever the samples, the text of a frame is four lines, each
    starting with its label and ended by a line feed: none of the formatted
    values holds a line feed. *)
Theorem frame_has_four_lines now uptime loads tasks cpu_usage memory :
  exists l1 l2 l3 l4,
    Program.render (current_time_string now) uptime loads tasks cpu_usage memory
    = "top - " ++ l1 ++ String LF
        ("Tasks: " ++ l2 ++ String LF
           ("%Cpu(s): " ++ l3 ++ String LF
              ("MiB Mem : " ++ l4 ++ String LF ""))) /\
    ProgramSpec.count_char LF l1 = O /\ ProgramSpec.count_char LF l2 = O /\
    ProgramSpec.count_char LF l3 = O /\ ProgramSpec.count_char LF l4 = O.
Proof.
  unfold Program.render.
  hide (current_time_string now) (ProgramProps.current_time_string_no_lf now).
  hide (format_uptime uptime) (ProgramProps.format_uptime_no_lf uptime).
  hide (Double.fixed 2 (LoadAverages.one loads))
       (ProgramProps.fixed_no_lf 2 (LoadAverages.one loads)).
  hide (Double.fixed 2 (LoadAverages.five loads))
       (ProgramProps.fixed_no_lf 2 (LoadAverages.five loads)).
  hide (Double.fixed 2 (LoadAverages.fifteen loads))
       (ProgramProps.fixed_no_lf 2 (LoadAverages.fifteen loads)).
  hide (dec (TaskSummary.total tasks)) (ProgramProps.dec_no_lf (TaskSummary.total tasks)).
  hide (Double.fixed 1 cpu_usage) (ProgramProps.fixed_no_lf 1 cpu_usage).
  hide (Double.fixed 1 (Double.sub Double.hundred cpu_usage))
       (ProgramProps.fixed_no_lf 1 (Double.sub Double.hundred cpu_usage)).
  hide (format_memory_mib (MemoryStatus.total_bytes memory))
       (ProgramProps.format_memory_mib_no_lf (MemoryStatus.total_bytes memory)).
  hide (format_memory_mib (Program.used_bytes memory))
       (ProgramProps.format_memory_mib_no_lf (Program.used_bytes memory)).
  hide (format_memory_mib (MemoryStatus.available_bytes memory))
       (ProgramProps.format_memory_mib_no_lf (MemoryStatus.available_bytes memory)).
  exists (s ++ " up " ++ s0 ++ ",  load average: " ++
          (if LoadAverages.valid loads then s1 ++ ", " ++ s2 ++ ", " ++ s3
           else "N/A, N/A, N/A")),
         (if TaskSummary.valid tasks
          then s4 ++ " total" ++ ", 1 running, 0 sleeping, 0 stopped, 0 zombie"
          else "N/A"),
         (s5 ++ " us, " ++ s6 ++ " id"),
         (if MemoryStatus.valid memory
          then s7 ++ " total, " ++ s8 ++ " used, " ++ s9 ++ " free"
          else "N/A").
  split.
  - destruct (LoadAverages.valid loads), (TaskSummary.valid tasks),
             (MemoryStatus.valid memory).
    all: rewrite !append_assoc.
    all: reflexivity.
  - destruct (LoadAverages.valid loads), (TaskSummary.valid tasks),
             (MemoryStatus.valid memory).
    all: rewrite !ProgramProps.count_char_app.
    all: rewrite ?H, ?H0, ?H1, ?H2, ?H3, ?H4, ?H5, ?H6, ?H7, ?H8, ?H9.
    all: repeat split; reflexivity.
Qed.

(** [X21] The used memory of a frame never wraps around: for 64-bit sizes
    it is the total less the available size when the total is the larger,
    and zero otherwise, so it never exceeds the total. *)
Theorem used_bytes_saturates memory :
  U64.in_range (MemoryStatus.total_bytes memory) ->
  U64.in_range (MemoryStatus.available_bytes memory) ->
  Program.used_bytes memory
  = Z.max 0 (MemoryStatus.total_bytes memory
             - MemoryStatus.available_bytes memory) /\
  0 <= Program.used_bytes memory <= MemoryStatus.total_bytes memory.
Proof.
  unfold U64.in_range, U64.modulus, Program.used_bytes, U64.sub.
  intros T A.
  destruct (Z.ltb_spec (MemoryStatus.available_bytes memory)
                       (MemoryStatus.total_bytes memory)).
  - rewrite U64Props.wrap_small by (unfold U64.in_range, U64.modulus; lia). lia.
  - lia.
Qed.

Lemma used_bytes_saturates_witness :
  Program.used_bytes (ProgramSpec.memory_status 1000 4096)
  = Z.max 0 (1000 - 4096) /\
  0 <= Program.used_bytes (ProgramSpec.memory_status 1000 4096) <= 1000.
Proof.
  apply (used_bytes_saturates (ProgramSpec.memory_status 1000 4096));
    unfold U64.in_range, U64.modulus; simpl; lia.
Defined.

Module CpuLineProps.
Import CpuLineSpec.

Lemma whole_table : forallb whole_ok (seq 0 101) = true.
Proof. vm_compute. reflexivity. Qed.

Lemma whole_text p :
  0 <= p <= 100 ->
  Double.fixed 1 (Double.of_u64 p) = dec p ++ ".0" /\
  Double.fixed 1 (Double.sub Double.hundred (Double.of_u64 p))
  = dec (100 - p) ++ ".0".
Proof.
  intros P. pose proof whole_table as T. rewrite forallb_forall in T.
  specialize (T (Z.to_nat p)). unfold whole_ok in T.
  rewrite Z2Nat.id in T by lia.
  assert (I : In (Z.to_nat p) (seq 0 101)) by (apply in_seq; lia).
  apply T in I. apply andb_true_iff in I. destruct I as [A B].
  apply String.eqb_eq in A, B. split; assumption.
Qed.

End CpuLineProps.

(** [X22] Under the conditions of the exact whole percentage [p], the
    third line of the frame reads [p.0 us] and [(100 - p).0 id]: the two
    figures shown add up to one hundred. *)
Theorem cpu_line_of_whole_percent
    now uptime loads tasks memory prev curr p :
  let idle_delta := U64.sub (idle_ticks curr) (idle_ticks prev) in
  let total_delta := U64.sub (total_ticks curr) (total_ticks prev) in
  0 < total_delta ->
  idle_delta <= total_delta ->
  25 * total_delta < 2 ^ 53 ->
  100 * (total_delta - idle_delta) = p * total_delta ->
  exists above below,
    Program.render now uptime loads tasks (compute_cpu_usage prev curr) memory
    = above ++
      "%Cpu(s): " ++ dec p ++ ".0 us, " ++ dec (100 - p) ++ ".0 id" ++
      String LF below.
Proof.
  intros id td Ht Hi Hs Hp.
  rewrite (UsageProps.whole_percent prev curr p Ht Hi Hs Hp).
  assert (P : 0 <= p <= 100).
  { pose proof (UsageProps.delta_range (idle_ticks curr) (idle_ticks prev)) as Ri.
    fold id in Ri. nia. }
  destruct (CpuLineProps.whole_text p P) as [A B].
  unfold Program.render. rewrite A, B.
  generalize (dec p) (dec (100 - p)). intros sp sq.
  eexists
    ("top - " ++ now ++ " up " ++ format_uptime uptime ++ ",  load average: " ++
     (if LoadAverages.valid loads then
        Double.fixed 2 (LoadAverages.one loads) ++ ", " ++
        Double.fixed 2 (LoadAverages.five loads) ++ ", " ++
        Double.fixed 2 (LoadAverages.fifteen loads)
      else "N/A, N/A, N/A") ++
     String LF "" ++
     (if TaskSummary.valid tasks then
        "Tasks: " ++ dec (TaskSummary.total tasks) ++ " total" ++
        ", 1 running, 0 sleeping, 0 stopped, 0 zombie" ++ String LF ""
      else "Tasks: N/A" ++ String LF "")),
    _.
  generalize (format_uptime uptime)
             (Double.fixed 2 (LoadAverages.one loads))
             (Double.fixed 2 (LoadAverages.five loads))
             (Double.fixed 2 (LoadAverages.fifteen loads))
             (dec (TaskSummary.total tasks)).
  intros s1 s2 s3 s4 s5.
  destruct (LoadAverages.valid loads), (TaskSummary.valid tasks);
    rewrite !append_assoc; reflexivity.
Qed.

Lemma cpu_line_of_whole_percent_witness :
  exists above below,
    Program.render "12:00:07" 93784 LoadAverages.init TaskSummary.init
      (compute_cpu_usage {| idle_ticks := 900; total_ticks := 1000 |}
                         {| idle_ticks := 950; total_ticks := 1200 |})
      MemoryStatus.init
    = above ++
      "%Cpu(s): " ++ dec 75 ++ ".0 us, " ++ dec (100 - 75) ++ ".0 id" ++
      String LF below.
Proof.
  apply (cpu_line_of_whole_percent "12:00:07" 93784 LoadAverages.init
           TaskSummary.init MemoryStatus.init
           {| idle_ticks := 900; total_ticks := 1000 |}
           {| idle_ticks := 950; total_ticks := 1200 |} 75);
    vm_compute; try reflexivity; discriminate.
Defined.

